(** * Lovable MCP server: session endpoints and capability handlers

    A shallow embedding of [src/index.ts] (version 2.0.0): the GitHub
    helper [githubRequest], the capability handlers registered by
    [createMcpServer], and the two transport endpoints [/sse] and
    [/messages] with the module-level session table [transports].

    Conventions of the embedding.
    - A JavaScript value that comes out of [response.json()] or goes into
      [JSON.stringify] is a [jsval].
    - An [async] function is a computation in the monad [M]: it threads the
      log of upstream calls issued so far and either returns a value or
      throws a [JsError].
    - The upstream collaborator is a function [fetch] from the calls issued
      so far and the current call to what the call yields.
    - Text the program only concatenates or compares is a [string]; text
      that [encodeURIComponent] inspects one UTF-16 code unit at a time is a
      [utf16], a list of code units. *)

From Stdlib Require Import ZArith Lia Ascii.
From stdpp Require Import gmap strings list fin_maps pretty sorting.

Local Open Scope Z_scope.

(** ** JavaScript values *)

#[local] Unset Elimination Schemes.
Inductive jsval : Type :=
| JUndefined
| JNull
| JBool (b : bool)
| JNum (n : Z)
| JStr (s : string)
| JArr (items : list jsval)
| JObj (fields : list (string * jsval)).
#[local] Set Elimination Schemes.

(** Numbers are the integers the GitHub payloads carry.
    [!v] is [negb (truthy v)]. *)
Definition truthy (v : jsval) : bool :=
  match v with
  | JUndefined | JNull => false
  | JBool b => b
  | JNum n => negb (n =? 0)
  | JStr s => negb (String.eqb s "")
  | JArr _ | JObj _ => true
  end.

(** An object literal or a parsed JSON object: the last binding of a key
    is the one a property read sees. *)
Fixpoint assoc (k : string) (fields : list (string * jsval)) : option jsval :=
  match fields with
  | [] => None
  | (k', v) :: rest =>
      match assoc k rest with
      | Some w => Some w
      | None => if String.eqb k k' then Some v else None
      end
  end.

(** ** Exceptions *)

Record JsError : Type := mkError { err_name : string; err_message : string }.

Definition Error (msg : string) : JsError := mkError "Error" msg.
Definition TypeError (msg : string) : JsError := mkError "TypeError" msg.
Definition SyntaxError (msg : string) : JsError := mkError "SyntaxError" msg.
Definition URIError (msg : string) : JsError := mkError "URIError" msg.

(** ** Upstream calls *)

Inductive Method : Type := GET | PUT | DELETE | POST | PATCH.

(** One [fetch] call: the URL, the method and the object handed to
    [JSON.stringify] for the body ([JUndefined] when there is none). *)
Record Call : Type := mkCall {
  call_method : Method;
  call_url : string;
  call_body : jsval
}.

(** What [fetch] resolves to: [status] decides [response.ok], [text] is
    what [response.text()] resolves to, [json] is how [response.json()]
    settles, with the parsed body or with the error of the parser. *)
Record Response : Type := mkResponse {
  status : Z;
  text : string;
  json : JsError + jsval
}.

(** [fetch] itself rejects when the request cannot be made. *)
Inductive FetchResult : Type :=
| Rejected (e : JsError)
| Responded (r : Response).

Definition response_ok (r : Response) : bool :=
  (200 <=? status r) && (status r <=? 299).

(** ** The monad of asynchronous code *)

Definition Log : Type := list Call.

Definition M (A : Type) : Type := Log -> Log * (JsError + A).

Definition ret {A} (a : A) : M A := fun log => (log, inr a).
Definition throw {A} (e : JsError) : M A := fun log => (log, inl e).

Definition bind {A B} (m : M A) (k : A -> M B) : M B :=
  fun log =>
    match m log with
    | (log', inl e) => (log', inl e)
    | (log', inr a) => k a log'
    end.

(** [try { m } catch (e) { h e }]: the calls [m] issued stay issued. *)
Definition try_catch {A} (m : M A) (h : JsError -> M A) : M A :=
  fun log =>
    match m log with
    | (log', inl e) => h e log'
    | (log', inr a) => (log', inr a)
    end.

(** A promise that has been started and has settled: its outcome is a
    value, not an exception of the caller. *)
Definition settled {A} (m : M A) : M (JsError + A) :=
  fun log => let '(log', r) := m log in (log', inr r).

(** A computation that issues no upstream call: [silent m] says that [m]
    leaves the log as it found it and that its outcome does not depend on
    the log; [eval m] is that outcome. *)
Definition eval {A} (m : M A) : JsError + A := snd (m []).

Definition silent {A} (m : M A) : Prop := forall log, m log = (log, eval m).

Declare Scope js_scope.
Delimit Scope js_scope with js.
Notation "'let*' x ':=' m 'in' k" := (bind m (fun x => k))
  (at level 10, x name, m at level 100, k at level 200) : js_scope.
Notation "'do' m 'in' k" := (bind m (fun _ => k))
  (at level 10, m at level 100, k at level 200) : js_scope.
Local Open Scope js_scope.

(** Property read [v.k]. Reading a property of [undefined] or [null]
    throws; arrays and strings have [length]; anything else that lacks the
    property yields [undefined]. The handlers read no property that
    [Object.prototype] would supply. *)
Definition prop (v : jsval) (k : string) : M jsval :=
  match v with
  | JUndefined =>
      throw (TypeError ("Cannot read properties of undefined (reading '" +:+ k +:+ "')"))
  | JNull =>
      throw (TypeError ("Cannot read properties of null (reading '" +:+ k +:+ "')"))
  | JObj fields => ret (default JUndefined (assoc k fields))
  | JArr items =>
      ret (if String.eqb k "length" then JNum (Z.of_nat (length items)) else JUndefined)
  | JStr s =>
      ret (if String.eqb k "length" then JNum (Z.of_nat (String.length s)) else JUndefined)
  | JBool _ | JNum _ => ret JUndefined
  end.

(** The callback of [map] or [filter] run over the items in order; the
    first exception ends the traversal. *)
Fixpoint mapM {A B} (f : A -> M B) (l : list A) : M (list B) :=
  match l with
  | [] => ret []
  | x :: rest => let* y := f x in let* ys := mapM f rest in ret (y :: ys)
  end.

Fixpoint filterM {A} (f : A -> M bool) (l : list A) : M (list A) :=
  match l with
  | [] => ret []
  | x :: rest =>
      let* keep := f x in
      let* ys := filterM f rest in
      ret (if keep then x :: ys else ys)
  end.

(** The [TypeError] of a call [receiver.what(...)] on a value that has no
    method [what]; [receiver] is the text of the receiver in the source,
    which the message quotes. *)
Definition not_a_function (receiver what : string) : JsError :=
  TypeError (receiver +:+ "." +:+ what +:+ " is not a function").

(** [v.map] and [v.filter] exist on arrays only: on anything else the call
    throws. *)
Definition as_array (receiver what : string) (v : jsval) : M (list jsval) :=
  match v with
  | JArr items => ret items
  | JUndefined =>
      throw (TypeError ("Cannot read properties of undefined (reading '" +:+ what +:+ "')"))
  | JNull =>
      throw (TypeError ("Cannot read properties of null (reading '" +:+ what +:+ "')"))
  | _ => throw (not_a_function receiver what)
  end.

Definition js_map (receiver : string) (v : jsval) (f : jsval -> M jsval) : M jsval :=
  let* items := as_array receiver "map" v in
  let* out := mapM f items in
  ret (JArr out).

Definition js_filter (receiver : string) (v : jsval) (f : jsval -> M bool) : M jsval :=
  let* items := as_array receiver "filter" v in
  let* out := filterM f items in
  ret (JArr out).

(** ** Strings *)

(** [s.replace(pat, "")] with a string pattern: the first occurrence of
    [pat] is removed. *)
Fixpoint remove_first (pat s : string) : string :=
  if String.prefix pat s then String.substring (String.length pat) (String.length s) s
  else match s with
       | EmptyString => EmptyString
       | String c rest => String c (remove_first pat rest)
       end.

Definition ends_with (suffix s : string) : bool :=
  let n := String.length s in
  let k := String.length suffix in
  (k <=? n)%nat && String.eqb (String.substring (n - k) k s) suffix.

Definition str_replace (receiver : string) (v : jsval) (pat : string) : M jsval :=
  match v with
  | JStr s => ret (JStr (remove_first pat s))
  | JUndefined =>
      throw (TypeError "Cannot read properties of undefined (reading 'replace')")
  | JNull => throw (TypeError "Cannot read properties of null (reading 'replace')")
  | _ => throw (not_a_function receiver "replace")
  end.

Definition str_endsWith (receiver : string) (v : jsval) (suffix : string) : M bool :=
  match v with
  | JStr s => ret (ends_with suffix s)
  | JUndefined =>
      throw (TypeError "Cannot read properties of undefined (reading 'endsWith')")
  | JNull => throw (TypeError "Cannot read properties of null (reading 'endsWith')")
  | _ => throw (not_a_function receiver "endsWith")
  end.

(** [a === "lit"] for a string literal. *)
Definition strict_eq_str (v : jsval) (lit : string) : bool :=
  match v with
  | JStr s => String.eqb s lit
  | _ => false
  end.

(** [o || d] for an optional string argument: [undefined] and the empty
    string are falsy. *)
Definition or_default (o : option string) (d : string) : string :=
  match o with
  | Some s => if String.eqb s "" then d else s
  | None => d
  end.

(** ** What a handler returns

    [{ content: [{ type: "text", text }] }], where [text] is either
    [JSON.stringify(v, null, 2)] of a value [v] or a string as it is. *)
Inductive ToolText : Type :=
| Stringified (v : jsval)
| Raw (s : string).

(** ** [encodeURIComponent]

    ECMAScript's [Encode] with the unreserved set of [encodeURIComponent]:
    letters, digits and [-_.!~*'()] pass; any other code point is written
    as the [%XX] of its UTF-8 octets; an unpaired surrogate raises
    [URIError]. *)

Definition utf16 : Type := list Z.

Definition is_lead (c : Z) : bool := (0xD800 <=? c) && (c <=? 0xDBFF).
Definition is_trail (c : Z) : bool := (0xDC00 <=? c) && (c <=? 0xDFFF).

Definition uri_mark : list Z := [45; 95; 46; 33; 126; 42; 39; 40; 41].

Definition unescaped (c : Z) : bool :=
  ((65 <=? c) && (c <=? 90)) || ((97 <=? c) && (c <=? 122))
  || ((48 <=? c) && (c <=? 57)) || bool_decide (c ∈ uri_mark).

Definition char_of (c : Z) : ascii := Ascii.ascii_of_N (Z.to_N c).

Definition hex_digit (d : Z) : ascii :=
  if d <? 10 then char_of (48 + d) else char_of (55 + d).

Definition percent (octet : Z) : string :=
  String "%"%char (String (hex_digit (octet / 16)) (String (hex_digit (octet mod 16)) "")).

Definition utf8_octets (cp : Z) : list Z :=
  if cp <? 0x80 then [cp]
  else if cp <? 0x800 then [0xC0 + cp / 64; 0x80 + cp mod 64]
  else if cp <? 0x10000 then
    [0xE0 + cp / 4096; 0x80 + (cp / 64) mod 64; 0x80 + cp mod 64]
  else
    [0xF0 + cp / 262144; 0x80 + (cp / 4096) mod 64;
     0x80 + (cp / 64) mod 64; 0x80 + cp mod 64].

Definition escape (cp : Z) : string :=
  foldr (fun o acc => percent o +:+ acc) "" (utf8_octets cp).

Definition surrogate_pair (lead trail : Z) : Z :=
  (lead - 0xD800) * 0x400 + (trail - 0xDC00) + 0x10000.

Definition uri_malformed : JsError := URIError "URI malformed".

Fixpoint encodeURIComponent (s : utf16) : JsError + string :=
  match s with
  | [] => inr ""
  | c :: rest =>
      if unescaped c then
        match encodeURIComponent rest with
        | inr r => inr (String (char_of c) r)
        | inl e => inl e
        end
      else if is_trail c then inl uri_malformed
      else if is_lead c then
        match rest with
        | d :: rest' =>
            if is_trail d then
              match encodeURIComponent rest' with
              | inr r => inr (escape (surrogate_pair c d) +:+ r)
              | inl e => inl e
              end
            else inl uri_malformed
        | [] => inl uri_malformed
        end
      else
        match encodeURIComponent rest with
        | inr r => inr (escape c +:+ r)
        | inl e => inl e
        end
  end.

(** No surrogate code unit stands alone: every lead is followed by a
    trail and every trail follows a lead. *)
Fixpoint well_formed (s : utf16) : bool :=
  match s with
  | [] => true
  | c :: rest =>
      if is_trail c then false
      else if is_lead c then
        match rest with
        | d :: rest' => is_trail d && well_formed rest'
        | [] => false
        end
      else well_formed rest
  end.

(** A string literal seen as code units. *)
Fixpoint utf16_of (s : string) : utf16 :=
  match s with
  | EmptyString => []
  | String c rest => Z.of_N (Ascii.N_of_ascii c) :: utf16_of rest
  end.

Definition lift {A} (r : JsError + A) : M A := fun log => (log, r).

(** ** [Promise.all]

    The promises are started in array order and settle in an order the
    program does not control; [order] lists the array indices in the order
    in which the promises settled. The result rejects with the reason of
    the first promise that rejected, and fulfils with all the values when
    none did. *)

Fixpoint first_rejection {A} (order : list nat) (rs : list (JsError + A))
  : option JsError :=
  match order with
  | [] => None
  | i :: rest =>
      match rs !! i with
      | Some (inl e) => Some e
      | _ => first_rejection rest rs
      end
  end.

Definition fulfilled {A} (r : JsError + A) : option A :=
  match r with
  | inr v => Some v
  | inl _ => None
  end.

Definition Promise_all {A} (order : list nat) (rs : list (JsError + A)) : M (list A) :=
  match first_rejection (order ++ seq 0 (length rs)) rs with
  | Some e => throw e
  | None => ret (omap fulfilled rs)
  end.

(** [p.catch(() => v)] on a settled promise. *)
Definition catch_with {A} (v : A) (r : JsError + A) : JsError + A :=
  match r with
  | inl _ => inr v
  | inr a => inr a
  end.

(** ** Own property keys

    [Object.keys], [Object.entries], [JSON.stringify] and the spread
    [{ ...a, ...b }] list the own keys of an object: the array indices
    first, in ascending order, then the other keys in the order in which
    they were first created. *)

Definition digit_value (c : ascii) : option N :=
  let n := Ascii.N_of_ascii c in
  if ((48 <=? n) && (n <=? 57))%N then Some (n - 48)%N else None.

Fixpoint digits_value (acc : N) (s : string) : option N :=
  match s with
  | EmptyString => Some acc
  | String c rest =>
      match digit_value c with
      | Some d => digits_value (10 * acc + d)%N rest
      | None => None
      end
  end.

(** An array index is a canonical decimal numeral below [2^32 - 1]. *)
Definition array_index (k : string) : option N :=
  match k with
  | EmptyString => None
  | String c _ =>
      match digits_value 0 k with
      | Some n =>
          if (String.eqb k "0" || negb (Ascii.eqb c "0")) && (n <? 4294967295)%N
          then Some n
          else None
      | None => None
      end
  end.

(** Each key once, at the place of its first occurrence. *)
Fixpoint first_occurrences (keys : list string) : list string :=
  match keys with
  | [] => []
  | k :: rest => k :: List.filter (fun k' => negb (String.eqb k' k)) (first_occurrences rest)
  end.

Definition index_le (a b : N * string) : Prop := (fst a <= fst b)%N.

#[local] Instance index_le_dec : RelDecision index_le.
Proof. intros a b. unfold index_le. apply _. Defined.

Definition indexed (keys : list string) : list (N * string) :=
  omap (fun k => (fun n => (n, k)) <$> array_index k) keys.

Definition property_order (keys : list string) : list string :=
  map snd (merge_sort index_le (indexed keys))
  ++ List.filter (fun k => negb (bool_decide (is_Some (array_index k)))) keys.

(** ** Plain objects used as maps

    [results] and [transports] are object literals [{}], so they inherit
    from [Object.prototype]: a read of a key they do not own finds the
    inherited property of that name when there is one, and an assignment
    to [__proto__] reaches the inherited setter, which ignores a value
    that is not an object and creates no own property. *)

Definition Object_prototype_names : list string :=
  ["constructor"; "__defineGetter__"; "__defineSetter__"; "hasOwnProperty";
   "__lookupGetter__"; "__lookupSetter__"; "isPrototypeOf";
   "propertyIsEnumerable"; "toString"; "valueOf"; "__proto__";
   "toLocaleString"].

Definition Object_prototype_has (k : string) : bool :=
  bool_decide (k ∈ Object_prototype_names).

(** [o[k] = v] for a string [v], on the assignments that [o], an object
    literal that started empty, has received so far, oldest first. *)
Definition obj_set_string (o : list (string * jsval)) (k v : string)
  : list (string * jsval) :=
  if String.eqb k "__proto__" then o else o ++ [(k, JStr v)].

(** The own properties of the object after the assignments [o]: every
    key once, in property order, with the value last assigned to it. *)
Definition own_properties (o : list (string * jsval)) : list (string * jsval) :=
  omap (fun k => (fun v => (k, v)) <$> assoc k o)
       (property_order (first_occurrences (map fst o))).

Fixpoint join (sep : string) (parts : list string) : string :=
  match parts with
  | [] => ""
  | [p] => p
  | p :: rest => p +:+ sep +:+ join sep rest
  end.

(** ** The GitHub helper and the capability handlers *)

Record RequestInit : Type := mkInit { method : Method; body : jsval }.

Definition no_options : RequestInit := mkInit GET JUndefined.

(** The call [fetch] receives from [githubRequest(endpoint, options)]; the
    headers are the same on every call and are left out. *)
Definition api_call (endpoint : string) (options : RequestInit) : Call :=
  mkCall (method options) ("https://api.github.com" +:+ endpoint) (body options).

Section Server.

(** [process.env.GITHUB_OWNER]. *)
Variable GITHUB_OWNER : string.

(** The upstream collaborator behind the global [fetch]. *)
Variable fetch : Log -> Call -> FetchResult.

(** [Buffer.from(s, "base64").toString()] of the Node runtime, for a
    string [s]. *)
Variable base64_decode : string -> string.

(** [Buffer.from(v, "base64")] for a value [v] that is not a string: Node
    builds a buffer from an array or an array-like object, whatever the
    encoding argument says, and refuses anything else with a [TypeError].
    The buffer is given by its base64 text, so that its [toString()] is
    [base64_decode] of that text. *)
Variable base64_of_value : jsval -> JsError + string.

(** [Buffer.from(s).toString("base64")] *)
Variable base64_encode : string -> string.

(** The order in which the promises of a [Promise.all] settle. *)
Variable settle_order : list nat.

Definition github_error (r : Response) : JsError :=
  Error ("GitHub API error: " +:+ pretty (status r) +:+ " - " +:+ text r).

Definition githubRequest (endpoint : string) (options : RequestInit) : M jsval :=
  fun log =>
    let c := api_call endpoint options in
    let log' := log ++ [c] in
    match fetch log c with
    | Rejected e => (log', inl e)
    | Responded r =>
        if response_ok r then (log', json r)
        else (log', inl (github_error r))
    end.

(** The upstream answers the call [c], issued after [log], with a
    success status and the JSON value [v]. *)
Definition answers (log : Log) (c : Call) (v : jsval) : Prop :=
  exists r, fetch log c = Responded r /\ response_ok r = true /\ json r = inr v.

(** The upstream answers the call [c], issued after [log], with the
    response [r], whose status is not a success. *)
Definition rejects (log : Log) (c : Call) (r : Response) : Prop :=
  fetch log c = Responded r /\ response_ok r = false.

(** The failure [githubRequest] turns every non-success response into. *)
Definition generic_upstream_failure (e : JsError) : Prop :=
  exists r, e = github_error r.

(** [Buffer.from(v, "base64").toString()] *)
Definition Buffer_from_base64 (v : jsval) : M string :=
  match v with
  | JStr s => ret (base64_decode s)
  | _ =>
      let* s := lift (base64_of_value v) in
      ret (base64_decode s)
  end.

Definition repo_url (repo : string) : string :=
  "/repos/" +:+ GITHUB_OWNER +:+ "/" +:+ repo.

Definition contents_url (repo path : string) : string :=
  repo_url repo +:+ "/contents/" +:+ path.

(** The repository has nothing at [path]: whatever happened before, a
    read of its contents is answered 404. *)
Definition lacks (repo path : string) : Prop :=
  forall log, exists r,
    fetch log (api_call (contents_url repo path) no_options) = Responded r
    /\ status r = 404.

(** *** Project discovery *)

Definition get_project_stats (repo : string) : M ToolText :=
  let* p1 := settled (githubRequest (repo_url repo) no_options) in
  let* p2 := settled (githubRequest (repo_url repo +:+ "/languages") no_options) in
  let* p3 := settled (githubRequest (repo_url repo +:+ "/contributors") no_options) in
  let* p4 := settled (githubRequest (repo_url repo +:+ "/commits?per_page=1") no_options) in
  let* all := Promise_all settle_order [p1; p2; catch_with (JArr []) p3; p4] in
  let repoData := nth 0 all JUndefined in
  let languages := nth 1 all JUndefined in
  let contributors := nth 2 all JUndefined in
  let* size := prop repoData "size" in
  let* stars := prop repoData "stargazers_count" in
  let* forks := prop repoData "forks_count" in
  let* openIssues := prop repoData "open_issues_count" in
  let* contributorsCount := prop contributors "length" in
  let* defaultBranch := prop repoData "default_branch" in
  let* createdAt := prop repoData "created_at" in
  let* lastPush := prop repoData "pushed_at" in
  ret (Stringified (JObj [
    ("size", size); ("stars", stars); ("forks", forks);
    ("openIssues", openIssues); ("languages", languages);
    ("contributorsCount", contributorsCount);
    ("defaultBranch", defaultBranch); ("createdAt", createdAt);
    ("lastPush", lastPush)])).

(** *** File operations *)

Definition read_file (repo path : string) (branch : option string) : M ToolText :=
  let ref := match branch with
             | Some b => if String.eqb b "" then "" else "?ref=" +:+ b
             | None => ""
             end in
  let* file := githubRequest (contents_url repo path +:+ ref) no_options in
  let* file_content := prop file "content" in
  let* content := Buffer_from_base64 file_content in
  ret (Raw content).

Definition read_one (repo path : string) : M string :=
  try_catch
    (let* file := githubRequest (contents_url repo path) no_options in
     let* content := prop file "content" in
     Buffer_from_base64 content)
    (fun e => ret ("Error: " +:+ err_message e)).

(** What an entry of [results] is: decoded content or an error string. *)
Definition is_entry (s : string) : Prop :=
  (exists content, s = base64_decode content)
  \/ (exists e, s = "Error: " +:+ err_message e).

(** The [for (const path of paths)] loop over the object [results]. *)
Fixpoint read_files_loop (repo : string) (paths : list string)
    (results : list (string * jsval)) : M (list (string * jsval)) :=
  match paths with
  | [] => ret results
  | path :: rest =>
      let* entry := read_one repo path in
      read_files_loop repo rest (obj_set_string results path entry)
  end.

(** [results] as [JSON.stringify] sees it. *)
Definition results_object (results : list (string * jsval)) : jsval :=
  JObj (own_properties results).

Definition read_multiple_files (repo : string) (paths : list string) : M ToolText :=
  let* results := read_files_loop repo paths [] in
  ret (Stringified (results_object results)).

(** The [try] block of [update_file]: the current version token,
    [undefined] when anything in the block throws. *)
Definition update_file_sha (repo path : string) : M jsval :=
  try_catch
    (let* existing := githubRequest (contents_url repo path) no_options in
     prop existing "sha")
    (fun _ => ret JUndefined).

Definition update_file_options (content message : string)
    (branch : option string) (sha : jsval) : RequestInit :=
  mkInit PUT (JObj [("message", JStr message);
                    ("content", JStr (base64_encode content));
                    ("branch", JStr (or_default branch "main"));
                    ("sha", sha)]).

(** The rest of [update_file]: the PUT that presents [sha]
    ([JSON.stringify] leaves a field out when its value is [undefined]). *)
Definition update_file_put (repo path content message : string)
    (branch : option string) (sha : jsval) : M ToolText :=
  let* result :=
    githubRequest (contents_url repo path)
      (update_file_options content message branch sha) in
  let* commit := prop result "commit" in
  let* commit_sha := prop commit "sha" in
  ret (Stringified (JObj [("success", JBool true); ("commit", commit_sha)])).

Definition update_file (repo path content message : string)
    (branch : option string) : M ToolText :=
  let* sha := update_file_sha repo path in
  update_file_put repo path content message branch sha.

Definition delete_file_options (message : string) (branch : option string)
    (sha : jsval) : RequestInit :=
  mkInit DELETE (JObj [("message", JStr message);
                       ("sha", sha);
                       ("branch", JStr (or_default branch "main"))]).

Definition delete_file (repo path message : string)
    (branch : option string) : M ToolText :=
  let* existing := githubRequest (contents_url repo path) no_options in
  let* sha := prop existing "sha" in
  do githubRequest (contents_url repo path)
       (delete_file_options message branch sha) in
  ret (Stringified (JObj [("success", JBool true); ("deleted", JStr path)])).

Definition rename_create_options (message content : string) : RequestInit :=
  mkInit PUT (JObj [("message", JStr (message +:+ " (create)"));
                    ("content", JStr (base64_encode content))]).

Definition rename_delete_options (message : string) (sha : jsval) : RequestInit :=
  mkInit DELETE (JObj [("message", JStr (message +:+ " (delete old)"));
                       ("sha", sha)]).

Definition rename_file (repo oldPath newPath message : string) : M ToolText :=
  (* Read old file *)
  let* file := githubRequest (contents_url repo oldPath) no_options in
  let* file_content := prop file "content" in
  let* content := Buffer_from_base64 file_content in
  (* Create new file *)
  do githubRequest (contents_url repo newPath)
       (rename_create_options message content) in
  (* Delete old file *)
  let* sha := prop file "sha" in
  do githubRequest (contents_url repo oldPath)
       (rename_delete_options message sha) in
  ret (Stringified (JObj [
    ("success", JBool true); ("from", JStr oldPath); ("to", JStr newPath)])).

(** *** Issues *)

Definition format_issue (i : jsval) : M jsval :=
  let* number := prop i "number" in
  let* title := prop i "title" in
  let* state := prop i "state" in
  let* user := prop i "user" in
  let* author := prop user "login" in
  let* labels := prop i "labels" in
  let* label_names := js_map "i.labels" labels (fun l => prop l "name") in
  let* createdAt := prop i "created_at" in
  let* url := prop i "html_url" in
  ret (JObj [
    ("number", number); ("title", title); ("state", state);
    ("author", author); ("labels", label_names);
    ("createdAt", createdAt); ("url", url)]).

(** Whether an item of the issues listing carries a [pull_request]
    marker, as the filter callback sees it. *)
Definition carries_pull_request (i : jsval) : bool :=
  match i with
  | JObj fields => truthy (default JUndefined (assoc "pull_request" fields))
  | _ => false
  end.

(** The filter callback [(i) => !i.pull_request]. *)
Definition not_pull_request (i : jsval) : M bool :=
  let* pr := prop i "pull_request" in
  ret (negb (truthy pr)).

(** The endpoint [list_issues] asks for: [labels] is appended when it is
    given and not empty. *)
Definition list_issues_url (repo : string) (state : option string)
    (labels : option utf16) : M string :=
  let url := repo_url repo +:+ "/issues?state=" +:+ or_default state "open" in
  match labels with
  | Some (c :: l) =>
      let* enc := lift (encodeURIComponent (c :: l)) in
      ret (url +:+ "&labels=" +:+ enc)
  | _ => ret url
  end.

Definition list_issues (repo : string) (state : option string)
    (labels : option utf16) : M ToolText :=
  let* url := list_issues_url repo state labels in
  let* issues := githubRequest url no_options in
  let* kept := js_filter "issues" issues not_pull_request in
  let* formatted := js_map "issues.filter(...)" kept format_issue in
  ret (Stringified formatted).

(** An item of the shape the issues listing has: an object whose [user]
    is an object and whose [labels] is an array of objects. *)
Definition is_object (v : jsval) : bool :=
  match v with
  | JObj _ => true
  | _ => false
  end.

Definition issue_shaped (i : jsval) : bool :=
  match i with
  | JObj fields =>
      is_object (default JUndefined (assoc "user" fields))
      && match default JUndefined (assoc "labels" fields) with
         | JArr labels => forallb is_object labels
         | _ => false
         end
  | _ => false
  end.

(** *** Conventional folders *)

Definition absent (msg : string) : ToolText :=
  Stringified (JObj [("error", JStr msg)]).


Definition list_custom_components (repo : string) : M ToolText :=
  try_catch
    (let* contents := githubRequest (contents_url repo "src/components") no_options in
     let* files :=
       js_filter "contents" contents (fun item =>
         let* type := prop item "type" in
         if strict_eq_str type "file" then
           let* name := prop item "name" in
           str_endsWith "item.name" name ".tsx"
         else ret false) in
     let* components :=
       js_map "contents.filter(...)" files (fun item =>
         let* name := prop item "name" in
         let* name := str_replace "item.name" name ".tsx" in
         let* path := prop item "path" in
         ret (JObj [("name", name); ("path", path)])) in
     ret (Stringified components))
    (fun _ => ret (absent "No custom components found")).


(** The item shape shared by hooks, utils and lib:
    [name.replace(".ts", "").replace(".tsx", "")]. *)
Definition ts_item (item : jsval) : M jsval :=
  let* name := prop item "name" in
  let* name := str_replace "item.name" name ".ts" in
  let* name := str_replace "item.name.replace(...)" name ".tsx" in
  let* path := prop item "path" in
  ret (JObj [("name", name); ("path", path)]).

Definition list_hooks (repo : string) : M ToolText :=
  try_catch
    (let* contents := githubRequest (contents_url repo "src/hooks") no_options in
     let* hooks := js_map "contents" contents ts_item in
     ret (Stringified hooks))
    (fun _ => ret (absent "No hooks found")).


Definition list_utils (repo : string) : M ToolText :=
  try_catch
    (let* contents := githubRequest (contents_url repo "src/utils") no_options in
     let* utils := js_map "contents" contents ts_item in
     ret (Stringified utils))
    (fun _ =>
       (* Try lib folder as alternative *)
       try_catch
         (let* libContents := githubRequest (contents_url repo "src/lib") no_options in
          let* lib := js_map "libContents" libContents ts_item in
          ret (Stringified lib))
         (fun _ => ret (absent "No utils/lib found"))).

Definition list_types (repo : string) : M ToolText :=
  try_catch
    (let* contents := githubRequest (contents_url repo "src/types") no_options in
     let* types :=
       js_map "contents" contents (fun item =>
         let* name := prop item "name" in
         let* name := str_replace "item.name" name ".ts" in
         let* name := str_replace "item.name.replace(...)" name ".d.ts" in
         let* path := prop item "path" in
         ret (JObj [("name", name); ("path", path)])) in
     ret (Stringified types))
    (fun _ => ret (absent "No types folder found")).


(** *** Build URL *)

Definition build_prefix : string := "https://lovable.dev/?autosubmit=true#prompt=".

Definition image_param (img : utf16) : M string :=
  let* enc := lift (encodeURIComponent img) in
  ret ("images=" +:+ enc).

Definition generate_build_url (prompt : utf16) (images : option (list utf16))
  : M ToolText :=
  let* encodedPrompt := lift (encodeURIComponent prompt) in
  let url := build_prefix +:+ encodedPrompt in
  let* url :=
    match images with
    | Some (img :: more) =>
        let* params := mapM image_param (take 10 (img :: more)) in
        ret (url +:+ "&" +:+ join "&" params)
    | _ => ret url
    end in
  ret (Stringified (JObj [
    ("url", JStr url); ("promptLength", JNum (Z.of_nat (length prompt)))])).

End Server.

(** ** Transport endpoints and the session table *)

Module Sessions.

(** An [SSEServerTransport] of the SDK: the identifier its constructor
    generated and the response stream it writes to. *)
Record SSEServerTransport : Type := mkTransport {
  sessionId : string;
  res : nat
}.

(** Writes to the module-level object [transports]. *)
Inductive TableOp : Type :=
| Assign (k : string) (t : SSEServerTransport)
| Remove (k : string).

(** The process state: the own properties of [transports] and the writes
    made to it so far, oldest first. *)
Record Server : Type := mkServer {
  transports : gmap string SSEServerTransport;
  history : list TableOp
}.

Definition initial : Server := mkServer ∅ [].

(** [transports[k] = t]. The identifiers are the UUIDs of the SDK, never
    [__proto__], so the assignment creates an own property. *)
Definition assign (k : string) (t : SSEServerTransport) (s : Server) : Server :=
  mkServer (<[k := t]> (transports s)) (history s ++ [Assign k t]).

(** [delete transports[k]] *)
Definition remove (k : string) (s : Server) : Server :=
  mkServer (delete k (transports s)) (history s ++ [Remove k]).

(** What the expression [transports[k]] evaluates to. *)
Inductive Lookup : Type :=
| Own (t : SSEServerTransport)
| Inherited
| NotFound.

Definition lookup (s : Server) (k : string) : Lookup :=
  match transports s !! k with
  | Some t => Own t
  | None => if Object_prototype_has k then Inherited else NotFound
  end.

(** The callback the [/sse] handler stores in [transport.onclose]. *)
Definition onclose (t : SSEServerTransport) (s : Server) : Server :=
  remove (sessionId t) s.

(** [app.get("/sse")], for the transport [t] that
    [new SSEServerTransport("/messages", res)] built; [connected] tells
    whether [mcpServer.connect(transport)] resolved. *)
Definition sse_get (t : SSEServerTransport) (connected : bool) (s : Server) : Server :=
  let s := assign (sessionId t) t s in
  if connected then s else remove (sessionId t) s.

(** What [transport.handlePostMessage(req, res)] did. *)
Inductive PostEffect : Type :=
| Completed
| Threw (headersSent : bool).

Record HttpReply : Type := mkReply { code : Z; error : string }.

(** The outcome of a POST to [/messages]: the transport whose
    [handlePostMessage] was invoked, if any, and the reply this handler
    wrote itself, if any. *)
Record PostOutcome : Type := mkOutcome {
  dispatched : option SSEServerTransport;
  reply : option HttpReply
}.

Section Messages.

Variable handlePostMessage : SSEServerTransport -> PostEffect.

(** [app.post("/messages")]; [query] is [req.query.sessionId]. *)
Definition post_messages (s : Server) (query : option string) : PostOutcome :=
  match query with
  | None => mkOutcome None (Some (mkReply 400 "Missing sessionId"))
  | Some sessionId =>
      if String.eqb sessionId "" then
        mkOutcome None (Some (mkReply 400 "Missing sessionId"))
      else
        match lookup s sessionId with
        | NotFound => mkOutcome None (Some (mkReply 404 "Session not found"))
        | Inherited =>
            (* [transport.handlePostMessage] is undefined: the call
               throws a TypeError inside the [try]; nothing was sent *)
            mkOutcome None (Some (mkReply 500 "Internal server error"))
        | Own t =>
            match handlePostMessage t with
            | Completed => mkOutcome (Some t) None
            | Threw true => mkOutcome (Some t) None
            | Threw false =>
                mkOutcome (Some t) (Some (mkReply 500 "Internal server error"))
            end
        end
  end.

End Messages.

(** What happens to the process, one request or callback at a time. *)
Inductive Event : Type :=
| SseOpen (t : SSEServerTransport) (connected : bool)
| StreamClose (t : SSEServerTransport)
| PostMessage (query : option string).

Definition step (s : Server) (e : Event) : Server :=
  match e with
  | SseOpen t connected => sse_get t connected s
  | StreamClose t => onclose t s
  | PostMessage _ => s
  end.

Definition run (events : list Event) (s : Server) : Server :=
  foldl step s events.

Definition opens (k : string) (e : Event) : bool :=
  match e with
  | SseOpen t _ => String.eqb (sessionId t) k
  | _ => false
  end.

(** No event of the list opens a stream under the identifier [k]. *)
Definition quiet (k : string) (events : list Event) : bool :=
  forallb (fun e => negb (opens k e)) events.

Definition assigns (k : string) (op : TableOp) : bool :=
  match op with
  | Assign k' _ => String.eqb k' k
  | Remove _ => false
  end.

(** How many times [k] was assigned. *)
Definition times_added (k : string) (s : Server) : nat :=
  length (filter (fun op => assigns k op = true) (history s)).

(** The identifiers [randomUUID()] produces, which is where the SDK's
    transport takes [sessionId] from: 36 characters, hyphens at 8, 13,
    18 and 23, lower-case hexadecimal digits elsewhere. *)
Definition is_hex (c : ascii) : bool :=
  let n := Ascii.nat_of_ascii c in
  ((48 <=? n) && (n <=? 57) || (97 <=? n) && (n <=? 102))%nat.

Fixpoint uuid_shape (i : nat) (s : string) : bool :=
  match s with
  | EmptyString => Nat.eqb i 36
  | String c rest =>
      (if bool_decide (i ∈ [8; 13; 18; 23]%nat) then Ascii.eqb c "-" else is_hex c)
      && uuid_shape (S i) rest
  end.

Definition is_uuid (s : string) : bool := uuid_shape 0 s.

End Sessions.

(** ** Upstream behaviours used as concrete inputs *)

Module Scenarios.

Definition ok_json (code : Z) (v : jsval) : FetchResult :=
  Responded (mkResponse code "" (inr v)).

(** A non-success response whose body is the text [msg]. *)
Definition refusal (code : Z) (msg : string) : Response :=
  mkResponse code msg (inl (SyntaxError "Unexpected token in JSON")).

Definition refused (code : Z) (msg : string) : FetchResult :=
  Responded (refusal code msg).

Definition is_get (c : Call) : bool :=
  match call_method c with GET => true | _ => false end.

Definition is_put (c : Call) : bool :=
  match call_method c with PUT => true | _ => false end.

(** A repository in which no path exists. *)
Definition empty_repo (log : Log) (c : Call) : FetchResult :=
  refused 404 "Not Found".

(** The codec is irrelevant to the scenarios; the identity stands in. *)
Definition codec (s : string) : string := s.

(** So is what [Buffer.from] makes of a [content] that is not a string:
    no outcome below depends on it, and a refusal stands in. *)
Definition no_buffer (v : jsval) : JsError + string :=
  inl (TypeError "The first argument must be of type string or an instance of Buffer, ArrayBuffer, or Array or an Array-like Object.").

(** [rename_file]: the read and the create succeed, the delete is
    refused. *)
Definition delete_refused (log : Log) (c : Call) : FetchResult :=
  match call_method c with
  | GET => ok_json 200 (JObj [("content", JStr "aGk="); ("sha", JStr "abc")])
  | PUT => ok_json 201 (JObj [("content", JObj [("sha", JStr "def")])])
  | _ => refused 409 "conflict"
  end.

(** Every call is refused the same way: nothing is changed upstream. *)
Definition all_refused (log : Log) (c : Call) : FetchResult :=
  refused 409 "conflict".

(** [update_file]: the read serves the token [v1]; by the time of the
    write another actor has moved the file to [v2], and the upstream
    refuses any write that does not present [v2]. *)
Definition stale_token (log : Log) (c : Call) : FetchResult :=
  match call_method c with
  | GET => ok_json 200 (JObj [("sha", JStr "v1")])
  | _ =>
      match call_body c with
      | JObj fields =>
          match assoc "sha" fields with
          | Some (JStr "v2") => ok_json 200 (JObj [("commit", JObj [("sha", JStr "c2")])])
          | _ => refused 409 "src/App.tsx does not match v2"
          end
      | _ => refused 422 "Invalid request"
      end
  end.

(** [update_file]: the read fails with a server error, the write is
    accepted. *)
Definition read_unavailable (log : Log) (c : Call) : FetchResult :=
  match call_method c with
  | GET => refused 500 "Internal Server Error"
  | _ => ok_json 201 (JObj [("commit", JObj [("sha", JStr "c1")])])
  end.

(** [get_project_stats]: only the contributors call is refused. *)
Definition contributors_forbidden (log : Log) (c : Call) : FetchResult :=
  if String.eqb (call_url c) "https://api.github.com/repos/me/demo/contributors"
  then refused 403 "Forbidden"
  else ok_json 200 (JObj [("size", JNum 3); ("stargazers_count", JNum 5)]).

(** [get_project_stats]: every call is answered; the commits call with
    [commits]. *)
Definition commits_answered (commits : jsval) (log : Log) (c : Call) : FetchResult :=
  if String.eqb (call_url c) "https://api.github.com/repos/me/demo/commits?per_page=1"
  then ok_json 200 commits
  else if String.eqb (call_url c) "https://api.github.com/repos/me/demo/contributors"
  then ok_json 200 (JArr [JObj [("login", JStr "ann")]])
  else if String.eqb (call_url c) "https://api.github.com/repos/me/demo/languages"
  then ok_json 200 (JObj [("TypeScript", JNum 1000)])
  else ok_json 200 (JObj [("size", JNum 3); ("stargazers_count", JNum 5)]).

(** [list_issues]: the listing holds one issue and one pull request. *)
Definition an_issue : jsval :=
  JObj [("number", JNum 1); ("title", JStr "Crash on login");
        ("state", JStr "open"); ("user", JObj [("login", JStr "ann")]);
        ("labels", JArr [JObj [("name", JStr "bug")]]);
        ("created_at", JStr "2025-01-01T00:00:00Z");
        ("html_url", JStr "https://github.com/me/demo/issues/1")].

Definition a_pull_request : jsval :=
  JObj [("number", JNum 2); ("title", JStr "Fix login");
        ("state", JStr "open"); ("user", JObj [("login", JStr "bob")]);
        ("labels", JArr []);
        ("created_at", JStr "2025-01-02T00:00:00Z");
        ("html_url", JStr "https://github.com/me/demo/pull/2");
        ("pull_request", JObj [("url", JStr "https://api.github.com/repos/me/demo/pulls/2")])].

(** [an_issue] as [list_issues] reshapes it. *)
Definition the_issue_formatted : jsval :=
  JObj [("number", JNum 1); ("title", JStr "Crash on login");
        ("state", JStr "open"); ("author", JStr "ann");
        ("labels", JArr [JStr "bug"]);
        ("createdAt", JStr "2025-01-01T00:00:00Z");
        ("url", JStr "https://github.com/me/demo/issues/1")].

Definition issue_listing (log : Log) (c : Call) : FetchResult :=
  ok_json 200 (JArr [an_issue; a_pull_request]).

(** A session identifier as [randomUUID()] makes them, and two more. *)
Definition a_session : Sessions.SSEServerTransport :=
  Sessions.mkTransport "123e4567-e89b-42d3-a456-426614174000" 1.

Definition another_session : Sessions.SSEServerTransport :=
  Sessions.mkTransport "9b2d1c3e-7f60-4a51-8e2b-0c1d2e3f4a5b" 2.
End Scenarios.

(** * The rest of the server

    The handlers, helpers and endpoints of [src/index.ts] that the
    properties above do not reach. In what follows a [string] is read as
    the sequence of its code units, each below 256: on such strings
    [length], [includes] and [substring] are what the definitions below
    compute. *)

(** ** More of JavaScript *)

(** [s.includes(pat)]. *)
Fixpoint str_includes (pat s : string) : bool :=
  String.prefix pat s
  || match s with
     | EmptyString => false
     | String _ rest => str_includes pat rest
     end.

(** A name without a dot, as the base name of a source file usually is. *)
Definition dotless (s : string) : bool :=
  forallb (fun ch => negb (Ascii.eqb ch ".")) (String.list_ascii_of_string s).

(** [v.substring(0, n)]. *)
Definition str_substring (receiver : string) (v : jsval) (n : nat) : M jsval :=
  match v with
  | JStr s => ret (JStr (String.substring 0 n s))
  | JUndefined =>
      throw (TypeError "Cannot read properties of undefined (reading 'substring')")
  | JNull => throw (TypeError "Cannot read properties of null (reading 'substring')")
  | _ => throw (not_a_function receiver "substring")
  end.

(** [v.slice(0, n)]: arrays and strings have [slice]. *)
Definition js_slice (receiver : string) (v : jsval) (n : nat) : M jsval :=
  match v with
  | JArr items => ret (JArr (take n items))
  | JStr s => ret (JStr (String.substring 0 n s))
  | JUndefined =>
      throw (TypeError "Cannot read properties of undefined (reading 'slice')")
  | JNull => throw (TypeError "Cannot read properties of null (reading 'slice')")
  | _ => throw (not_a_function receiver "slice")
  end.

(** The value of [item.k] for an item that is an object. *)
Definition field (item : jsval) (k : string) : jsval :=
  match item with
  | JObj fields => default JUndefined (assoc k fields)
  | _ => JUndefined
  end.

Definition nullish (v : jsval) : bool :=
  match v with
  | JUndefined | JNull => true
  | _ => false
  end.

(** [v || {}] and [v || []]. *)
Definition or_value (v fallback : jsval) : jsval :=
  if truthy v then v else fallback.

(** [v?.k]. *)
Definition optional_prop (v : jsval) (k : string) : M jsval :=
  match v with
  | JUndefined | JNull => ret JUndefined
  | _ => prop v k
  end.

(** The characters of a string, one string each. *)
Fixpoint characters (s : string) : list jsval :=
  match s with
  | EmptyString => []
  | String c rest => JStr (String c EmptyString) :: characters rest
  end.

(** What [for (const x of v)] runs over: arrays and strings are iterable,
    nothing else that JSON can produce is. *)
Definition iterate (what : string) (v : jsval) : M (list jsval) :=
  match v with
  | JArr items => ret items
  | JStr s => ret (characters s)
  | _ => throw (TypeError (what +:+ " is not iterable"))
  end.

(** A number argument of a handler, by the two things the handlers do with
    one: print it in a template literal and test it with [||]. *)
Record JsNumber : Type := mkNumber { number_text : string; number_truthy : bool }.

(** [n || d] printed in a template literal. *)
Definition number_or (n : option JsNumber) (d : string) : string :=
  match n with
  | Some x => if number_truthy x then number_text x else d
  | None => d
  end.

Section ToString.

(** [Number.prototype.toString] of the runtime. *)
Variable Number_toString : Z -> string.

Definition cannot_convert : JsError :=
  TypeError "Cannot convert object to primitive value".

(** [`${v}`]. An array prints its elements joined by commas, [null] and
    [undefined] among them as nothing; an object prints as
    [[object Object]], unless the JSON it was parsed from gave it a
    [toString] of its own, which is not callable. *)
Fixpoint to_string (v : jsval) : JsError + string :=
  match v with
  | JUndefined => inr "undefined"
  | JNull => inr "null"
  | JBool b => inr (if b then "true" else "false")
  | JNum n => inr (Number_toString n)
  | JStr s => inr s
  | JArr items =>
      match
        (fix elements (l : list jsval) : JsError + list string :=
           match l with
           | [] => inr []
           | x :: rest =>
               match (match x with
                      | JUndefined | JNull => inr ""
                      | _ => to_string x
                      end) with
               | inl e => inl e
               | inr s =>
                   match elements rest with
                   | inl e => inl e
                   | inr ss => inr (s :: ss)
                   end
               end
           end) items
      with
      | inl e => inl e
      | inr parts => inr (join "," parts)
      end
  | JObj fields =>
      match assoc "toString" fields with
      | Some _ => inl cannot_convert
      | None => inr "[object Object]"
      end
  end.

End ToString.

(** ** The own keys of a value *)

(** The own enumerable string keys of a value, as they were created. *)
Definition created_keys (v : jsval) : list string :=
  match v with
  | JObj fields => map fst fields
  | JArr items => map (fun i => pretty (N.of_nat i)) (seq 0 (length items))
  | JStr s => map (fun i => pretty (N.of_nat i)) (seq 0 (String.length s))
  | _ => []
  end.

(** [Object.keys(v)]. *)
Definition Object_keys (v : jsval) : list string :=
  property_order (first_occurrences (created_keys v)).

(** [Object.keys({ ...a, ...b })]. *)
Definition spread_keys (a b : jsval) : list string :=
  property_order (first_occurrences (created_keys a ++ created_keys b)).

(** ** The remaining helpers and handlers *)

Section MoreHandlers.

Variable GITHUB_OWNER : string.
Variable fetch : Log -> Call -> FetchResult.
Variable base64_decode : string -> string.
Variable base64_of_value : jsval -> JsError + string.
Variable base64_encode : string -> string.

(** [JSON.parse] and [Number.prototype.toString] of the runtime. *)
Variable JSON_parse : string -> JsError + jsval.
Variable Number_toString : Z -> string.

(** What [fetch] yields for the request of [get_diff], which asks for
    [application/vnd.github.v3.diff] instead of JSON. *)
Variable fetch_diff : Log -> Call -> FetchResult.

(** *** Project detection *)

(** [files.includes(name)] on the array of mapped names. *)
Definition includes_name (files : list jsval) (name : string) : bool :=
  existsb (fun v => strict_eq_str v name) files.

(** The three files whose presence makes a repository a Lovable project. *)
Definition marker_files : list string :=
  ["vite.config.ts"; "tailwind.config.ts"; "components.json"].

(** Some item of the listing is named [name]. *)
Definition has_file (items : list jsval) (name : string) : bool :=
  existsb (fun f => strict_eq_str (field f "name") name) items.

(** [isLovableProject(owner, repo)]; [repo] is whatever the caller passes,
    printed into the endpoint. *)
Definition isLovableProject (owner : string) (repo : jsval) : M bool :=
  try_catch
    (let* name := lift (to_string Number_toString repo) in
     let* contents :=
       githubRequest fetch ("/repos/" +:+ owner +:+ "/" +:+ name +:+ "/contents")
         no_options in
     let* items := as_array "contents" "map" contents in
     let* files := mapM (fun f => prop f "name") items in
     let hasVite := includes_name files "vite.config.ts" in
     let hasTailwind := includes_name files "tailwind.config.ts" in
     let hasComponentsJson := includes_name files "components.json" in
     ret (hasVite && hasTailwind && hasComponentsJson))
    (fun _ => ret false).

Definition project_summary (repo : jsval) : M jsval :=
  let* name := prop repo "name" in
  let* fullName := prop repo "full_name" in
  let* description := prop repo "description" in
  let* private := prop repo "private" in
  let* url := prop repo "html_url" in
  let* updatedAt := prop repo "updated_at" in
  let* language := prop repo "language" in
  ret (JObj [
    ("name", name); ("fullName", fullName); ("description", description);
    ("private", private); ("url", url); ("updatedAt", updatedAt);
    ("language", language)]).

(** The summary [list_projects] pushes for a repository object. *)
Definition summary_of (repo : jsval) : jsval :=
  JObj [
    ("name", field repo "name"); ("fullName", field repo "full_name");
    ("description", field repo "description"); ("private", field repo "private");
    ("url", field repo "html_url"); ("updatedAt", field repo "updated_at");
    ("language", field repo "language")].

(** The repositories the loop does not skip. *)
Definition probed (includePrivate : bool) (repos : list jsval) : list jsval :=
  if includePrivate then repos
  else List.filter (fun repo => negb (truthy (field repo "private"))) repos.

(** The call with which [isLovableProject] probes a repository, none when
    its name cannot be printed. *)
Definition probe_calls (owner : string) (repo : jsval) : list Call :=
  match to_string Number_toString repo with
  | inr name =>
      [api_call ("/repos/" +:+ owner +:+ "/" +:+ name +:+ "/contents") no_options]
  | inl _ => []
  end.

(** The test [!includePrivate && repo.private] that skips a repository. *)
Definition skipped (includePrivate : bool) (repo : jsval) : M bool :=
  if includePrivate then ret false
  else let* private := prop repo "private" in ret (truthy private).

(** The [for (const repo of repos)] loop of [list_projects]. *)
Fixpoint list_projects_loop (includePrivate : bool) (repos : list jsval)
    (lovableProjects : list jsval) : M (list jsval) :=
  match repos with
  | [] => ret lovableProjects
  | repo :: rest =>
      let* skip := skipped includePrivate repo in
      if skip then list_projects_loop includePrivate rest lovableProjects
      else
        let* name := prop repo "name" in
        let* lovable := isLovableProject GITHUB_OWNER name in
        if lovable then
          let* summary := project_summary repo in
          list_projects_loop includePrivate rest (lovableProjects ++ [summary])
        else list_projects_loop includePrivate rest lovableProjects
  end.

(** [includePrivate] defaults to [true]. *)
Definition list_projects (includePrivate : option bool) : M ToolText :=
  let* repos :=
    githubRequest fetch ("/users/" +:+ GITHUB_OWNER +:+ "/repos?per_page=100&sort=updated")
      no_options in
  let* items := iterate "repos" repos in
  let* lovableProjects := list_projects_loop (default true includePrivate) items [] in
  ret (Stringified (JArr lovableProjects)).

(** *** Project information *)

Definition short_commit (c : jsval) : M jsval :=
  let* full := prop c "sha" in
  let* sha := str_substring "c.sha" full 7 in
  let* commit := prop c "commit" in
  let* message := prop commit "message" in
  let* author := prop commit "author" in
  let* name := prop author "name" in
  let* date := prop author "date" in
  ret (JObj [("sha", sha); ("message", message); ("author", name); ("date", date)]).

Definition is_string (v : jsval) : bool :=
  match v with
  | JStr _ => true
  | _ => false
  end.

(** A commit of the shape the commits listing has: an object whose [sha]
    is a string and whose [commit] is an object with an [author] object. *)
Definition commit_shaped (c : jsval) : bool :=
  is_object c && is_string (field c "sha")
  && is_object (field c "commit")
  && is_object (field (field c "commit") "author").

Definition short_sha (v : jsval) : jsval :=
  match v with
  | JStr s => JStr (String.substring 0 7 s)
  | _ => JUndefined
  end.

(** What [short_commit] makes of a commit of that shape. *)
Definition short_of (c : jsval) : jsval :=
  JObj [("sha", short_sha (field c "sha"));
        ("message", field (field c "commit") "message");
        ("author", field (field (field c "commit") "author") "name");
        ("date", field (field (field c "commit") "author") "date")].

(** The [try] block around [package.json]: [null] when anything in it
    throws. *)
Definition read_package_json (owner repo : string) : M jsval :=
  try_catch
    (let* pkgContent :=
       githubRequest fetch ("/repos/" +:+ owner +:+ "/" +:+ repo +:+ "/contents/package.json")
         no_options in
     let* content := prop pkgContent "content" in
     let* decoded := Buffer_from_base64 base64_decode base64_of_value content in
     lift (JSON_parse decoded))
    (fun _ => ret JNull).

Definition getLovableProjectInfo (owner repo : string) : M jsval :=
  let* repoData :=
    githubRequest fetch ("/repos/" +:+ owner +:+ "/" +:+ repo) no_options in
  let* commits :=
    githubRequest fetch ("/repos/" +:+ owner +:+ "/" +:+ repo +:+ "/commits?per_page=5")
      no_options in
  let* packageJson := read_package_json owner repo in
  let* fullName := prop repoData "full_name" in
  let* description := prop repoData "description" in
  let* private := prop repoData "private" in
  let* url := prop repoData "html_url" in
  let* createdAt := prop repoData "created_at" in
  let* updatedAt := prop repoData "updated_at" in
  let* pushedAt := prop repoData "pushed_at" in
  let* defaultBranch := prop repoData "default_branch" in
  let* language := prop repoData "language" in
  let* size := prop repoData "size" in
  let* dependencies := optional_prop packageJson "dependencies" in
  let* devDependencies := optional_prop packageJson "devDependencies" in
  let* first5 := js_slice "commits" commits 5 in
  let* recentCommits := js_map "commits.slice(...)" first5 short_commit in
  ret (JObj [
    ("name", JStr repo); ("fullName", fullName); ("description", description);
    ("private", private); ("url", url); ("createdAt", createdAt);
    ("updatedAt", updatedAt); ("pushedAt", pushedAt);
    ("defaultBranch", defaultBranch); ("language", language); ("size", size);
    ("dependencies", or_value dependencies (JObj []));
    ("devDependencies", or_value devDependencies (JObj []));
    ("recentCommits", recentCommits)]).

Definition get_project (repo : string) : M ToolText :=
  let* info := getLovableProjectInfo GITHUB_OWNER repo in
  ret (Stringified info).

Definition get_project_structure (repo : string) (path : option string) : M ToolText :=
  let* contents :=
    githubRequest fetch (contents_url GITHUB_OWNER repo (or_default path "")) no_options in
  let* structure :=
    js_map "contents" contents (fun item =>
      let* name := prop item "name" in
      let* type := prop item "type" in
      let* path := prop item "path" in
      let* size := prop item "size" in
      ret (JObj [("name", name); ("type", type); ("path", path); ("size", size)])) in
  ret (Stringified structure).

(** *** File operations *)

Definition copy_file_options (message content : string) : RequestInit :=
  mkInit PUT (JObj [("message", JStr message);
                    ("content", JStr (base64_encode content))]).

(** The write of [copy_file], once the content of the source is known. *)
Definition copy_file_put (repo destPath message content : string) : M ToolText :=
  let* result :=
    githubRequest fetch (contents_url GITHUB_OWNER repo destPath)
      (copy_file_options message content) in
  let* commit := prop result "commit" in
  let* commit_sha := prop commit "sha" in
  ret (Stringified (JObj [
    ("success", JBool true); ("copied", JStr destPath); ("commit", commit_sha)])).

Definition copy_file (repo sourcePath destPath message : string) : M ToolText :=
  let* file := githubRequest fetch (contents_url GITHUB_OWNER repo sourcePath) no_options in
  let* file_content := prop file "content" in
  let* content := Buffer_from_base64 base64_decode base64_of_value file_content in
  copy_file_put repo destPath message content.

(** *** Version control *)

(** The row [get_commits] makes of a commit. *)
Definition commit_row (c : jsval) : M jsval :=
  let* full := prop c "sha" in
  let* sha := str_substring "c.sha" full 7 in
  let* fullSha := prop c "sha" in
  let* commit := prop c "commit" in
  let* message := prop commit "message" in
  let* author := prop commit "author" in
  let* name := prop author "name" in
  let* date := prop author "date" in
  let* url := prop c "html_url" in
  ret (JObj [("sha", sha); ("fullSha", fullSha); ("message", message);
             ("author", name); ("date", date); ("url", url)]).

Definition get_commits_url (repo : string) (branch : option string)
    (limit : option JsNumber) : string :=
  let branchParam := match branch with
                     | Some b => if String.eqb b "" then "" else "&sha=" +:+ b
                     | None => ""
                     end in
  repo_url GITHUB_OWNER repo +:+ "/commits?per_page=" +:+ number_or limit "10"
  +:+ branchParam.

Definition get_commits (repo : string) (branch : option string)
    (limit : option JsNumber) : M ToolText :=
  let* commits := githubRequest fetch (get_commits_url repo branch limit) no_options in
  let* formatted := js_map "commits" commits commit_row in
  ret (Stringified formatted).

Definition get_branches (repo : string) : M ToolText :=
  let* branches := githubRequest fetch (repo_url GITHUB_OWNER repo +:+ "/branches") no_options in
  let* formatted :=
    js_map "branches" branches (fun b =>
      let* name := prop b "name" in
      let* protected := prop b "protected" in
      let* commit := prop b "commit" in
      let* full := prop commit "sha" in
      let* sha := str_substring "b.commit.sha" full 7 in
      ret (JObj [("name", name); ("protected", protected); ("sha", sha)])) in
  ret (Stringified formatted).

Definition create_branch_options (branch : string) (sha : jsval) : RequestInit :=
  mkInit POST (JObj [("ref", JStr ("refs/heads/" +:+ branch)); ("sha", sha)]).

Definition create_branch (repo branch : string) (fromBranch : option string)
  : M ToolText :=
  let* sourceRef :=
    githubRequest fetch
      (repo_url GITHUB_OWNER repo +:+ "/git/ref/heads/" +:+ or_default fromBranch "main")
      no_options in
  let* object := prop sourceRef "object" in
  let* sha := prop object "sha" in
  let* result :=
    githubRequest fetch (repo_url GITHUB_OWNER repo +:+ "/git/refs")
      (create_branch_options branch sha) in
  let* created := prop result "object" in
  let* created_sha := prop created "sha" in
  ret (Stringified (JObj [
    ("success", JBool true); ("branch", JStr branch); ("sha", created_sha)])).

Definition delete_branch (repo branch : string) : M ToolText :=
  do githubRequest fetch (repo_url GITHUB_OWNER repo +:+ "/git/refs/heads/" +:+ branch)
       (mkInit DELETE JUndefined) in
  ret (Stringified (JObj [("success", JBool true); ("deleted", JStr branch)])).

(** [get_diff] calls [fetch] itself and returns the text of whatever
    response comes back; [response.ok] is not looked at. *)
Definition get_diff (repo base head : string) : M ToolText :=
  fun log =>
    let c := mkCall GET
               ("https://api.github.com" +:+ repo_url GITHUB_OWNER repo +:+ "/compare/"
                +:+ base +:+ "..." +:+ head)
               JUndefined in
    match fetch_diff log c with
    | Rejected e => (log ++ [c], inl e)
    | Responded r => (log ++ [c], inr (Raw (text r)))
    end.

(** *** Tags *)

Definition list_tags (repo : string) : M ToolText :=
  let* tags := githubRequest fetch (repo_url GITHUB_OWNER repo +:+ "/tags") no_options in
  let* formatted :=
    js_map "tags" tags (fun t =>
      let* name := prop t "name" in
      let* commit := prop t "commit" in
      let* full := prop commit "sha" in
      let* sha := str_substring "t.commit.sha" full 7 in
      ret (JObj [("name", name); ("sha", sha)])) in
  ret (Stringified formatted).

Definition tag_object_options (tag sha : string) (message : option string)
  : RequestInit :=
  mkInit POST (JObj [("tag", JStr tag);
                     ("message", JStr (or_default message tag));
                     ("object", JStr sha);
                     ("type", JStr "commit")]).

Definition tag_ref_options (tag : string) (sha : jsval) : RequestInit :=
  mkInit POST (JObj [("ref", JStr ("refs/tags/" +:+ tag)); ("sha", sha)]).

Definition create_tag (repo tag sha : string) (message : option string) : M ToolText :=
  (* Create annotated tag object *)
  let* tagObject :=
    githubRequest fetch (repo_url GITHUB_OWNER repo +:+ "/git/tags")
      (tag_object_options tag sha message) in
  (* Create reference *)
  let* object_sha := prop tagObject "sha" in
  do githubRequest fetch (repo_url GITHUB_OWNER repo +:+ "/git/refs")
       (tag_ref_options tag object_sha) in
  let* object_sha' := prop tagObject "sha" in
  ret (Stringified (JObj [
    ("success", JBool true); ("tag", JStr tag); ("sha", object_sha')])).

(** *** Issues and search *)

(** The object [updateData]: a field is set when its argument is truthy,
    so an empty string sets nothing and an empty array sets [labels]. *)
Definition updateData (title body state : option string)
    (labels : option (list string)) : list (string * jsval) :=
  (match title with
   | Some t => if String.eqb t "" then [] else [("title", JStr t)]
   | None => []
   end)
  ++ (match body with
      | Some b => if String.eqb b "" then [] else [("body", JStr b)]
      | None => []
      end)
  ++ (match state with
      | Some s => if String.eqb s "" then [] else [("state", JStr s)]
      | None => []
      end)
  ++ (match labels with
      | Some l => [("labels", JArr (map JStr l))]
      | None => []
      end).

Definition update_issue (repo : string) (number : JsNumber)
    (title body state : option string) (labels : option (list string)) : M ToolText :=
  let* issue :=
    githubRequest fetch
      (repo_url GITHUB_OWNER repo +:+ "/issues/" +:+ number_text number)
      (mkInit PATCH (JObj (updateData title body state labels))) in
  let* issue_number := prop issue "number" in
  let* issue_state := prop issue "state" in
  ret (Stringified (JObj [
    ("success", JBool true); ("number", issue_number); ("state", issue_state)])).

Definition search_code (repo : string) (query : utf16) : M ToolText :=
  let* encoded := lift (encodeURIComponent query) in
  let* results :=
    githubRequest fetch
      ("/search/code?q=" +:+ encoded +:+ "+repo:" +:+ GITHUB_OWNER +:+ "/" +:+ repo)
      no_options in
  let* items := prop results "items" in
  let* formatted :=
    js_map "results.items" items (fun item =>
      let* path := prop item "path" in
      let* name := prop item "name" in
      let* url := prop item "html_url" in
      ret (JObj [("path", path); ("name", name); ("url", url)])) in
  ret (Stringified formatted).

Inductive IssueType : Type := TypeIssue | TypePr.

(** The query of [search_issues]: the repository qualifier and the type
    qualifier are appended to [query] before the whole is encoded. *)
Definition search_issues_query (repo : string) (query : utf16)
    (type : option IssueType) : utf16 :=
  query ++ utf16_of ("+repo:" +:+ GITHUB_OWNER +:+ "/" +:+ repo)
  ++ match type with
     | Some TypeIssue => utf16_of "+is:issue"
     | Some TypePr => utf16_of "+is:pr"
     | None => []
     end.

Definition search_issue_item (item : jsval) : M jsval :=
  let* number := prop item "number" in
  let* title := prop item "title" in
  let* state := prop item "state" in
  let* pull_request := prop item "pull_request" in
  let* user := prop item "user" in
  let* author := prop user "login" in
  let* createdAt := prop item "created_at" in
  let* url := prop item "html_url" in
  ret (JObj [
    ("number", number); ("title", title); ("state", state);
    ("type", JStr (if truthy pull_request then "pr" else "issue"));
    ("author", author); ("createdAt", createdAt); ("url", url)]).

Definition search_issues (repo : string) (query : utf16) (type : option IssueType)
  : M ToolText :=
  let* encoded := lift (encodeURIComponent (search_issues_query repo query type)) in
  let* results := githubRequest fetch ("/search/issues?q=" +:+ encoded) no_options in
  let* items := prop results "items" in
  let* formatted := js_map "results.items" items search_issue_item in
  ret (Stringified formatted).

(** *** Configuration files *)

(** The body shared by the handlers that fetch one file and decode it. *)
Definition read_decoded (endpoint : string) : M string :=
  let* file := githubRequest fetch endpoint no_options in
  let* content := prop file "content" in
  Buffer_from_base64 base64_decode base64_of_value content.

Definition get_supabase_config (repo : string) : M ToolText :=
  try_catch
    (let* clientContent :=
       read_decoded (contents_url GITHUB_OWNER repo "src/integrations/supabase/client.ts") in
     let* types :=
       try_catch
         (let* decoded :=
            read_decoded (contents_url GITHUB_OWNER repo "src/integrations/supabase/types.ts") in
          ret (JStr decoded))
         (fun _ => ret JNull) in
     ret (Stringified (JObj [
       ("hasSupabase", JBool true);
       ("client", JStr clientContent);
       ("types", JStr (if truthy types then "Found (use read_file to view)"
                       else "Not found"))])))
    (fun _ => ret (Stringified (JObj [("hasSupabase", JBool false)]))).

Definition get_tailwind_config (repo : string) : M ToolText :=
  try_catch
    (let* content := read_decoded (contents_url GITHUB_OWNER repo "tailwind.config.ts") in
     ret (Raw content))
    (fun _ => ret (Raw "No tailwind.config.ts found")).

Definition get_vite_config (repo : string) : M ToolText :=
  try_catch
    (let* content := read_decoded (contents_url GITHUB_OWNER repo "vite.config.ts") in
     ret (Raw content))
    (fun _ => ret (Raw "No vite.config.ts found")).

Definition get_package_json (repo : string) : M ToolText :=
  let* content := read_decoded (contents_url GITHUB_OWNER repo "package.json") in
  ret (Raw content).

Definition get_env_example (repo : string) : M ToolText :=
  try_catch
    (let* content := read_decoded (contents_url GITHUB_OWNER repo ".env.example") in
     ret (Raw content))
    (fun _ => ret (Raw "No .env.example found")).

Definition get_readme (repo : string) : M ToolText :=
  try_catch
    (let* content := read_decoded (repo_url GITHUB_OWNER repo +:+ "/readme") in
     ret (Raw content))
    (fun _ => ret (Raw "No README found")).

(** *** Dependency analysis *)

Definition categories_init : list (string * list string) :=
  [("UI Framework", []); ("Styling", []); ("State Management", []);
   ("Data Fetching", []); ("Backend/Database", []); ("Forms", []);
   ("Routing", []); ("Build Tools", []); ("Other", [])].

Definition categoryMap : list (string * string) :=
  [("react", "UI Framework"); ("react-dom", "UI Framework");
   ("@radix-ui", "UI Framework"); ("lucide-react", "UI Framework");
   ("tailwindcss", "Styling"); ("tailwind", "Styling");
   ("class-variance-authority", "Styling"); ("clsx", "Styling");
   ("@tanstack/react-query", "Data Fetching"); ("axios", "Data Fetching");
   ("@supabase", "Backend/Database"); ("supabase", "Backend/Database");
   ("react-hook-form", "Forms"); ("zod", "Forms");
   ("react-router", "Routing"); ("vite", "Build Tools");
   ("typescript", "Build Tools")].

(** The inner loop: the category of the first pattern that [dep]
    includes. *)
Fixpoint first_match (dep : string) (entries : list (string * string)) : option string :=
  match entries with
  | [] => None
  | (pattern, category) :: rest =>
      if str_includes pattern dep then Some category else first_match dep rest
  end.

(** [categories[category].push(dep)] *)
Definition push_to (category dep : string) (categories : list (string * list string))
  : list (string * list string) :=
  map (fun '(k, deps) => if String.eqb k category then (k, deps ++ [dep]) else (k, deps))
      categories.

Definition categorize (categories : list (string * list string)) (dep : string)
  : list (string * list string) :=
  match first_match dep categoryMap with
  | Some category => push_to category dep categories
  | None => push_to "Other" dep categories
  end.

(** Remove empty categories. *)
Definition remove_empty (categories : list (string * list string))
  : list (string * list string) :=
  List.filter (fun '(_, deps) => negb (Nat.eqb (length deps) 0)) categories.

Definition categories_value (categories : list (string * list string)) : jsval :=
  JObj (map (fun '(k, deps) => (k, JArr (map JStr deps))) categories).

Definition analyze_dependencies (repo : string) : M ToolText :=
  let* decoded := read_decoded (contents_url GITHUB_OWNER repo "package.json") in
  let* packageJson := lift (JSON_parse decoded) in
  let* dependencies := prop packageJson "dependencies" in
  let deps := or_value dependencies (JObj []) in
  let* devDependencies := prop packageJson "devDependencies" in
  let devDeps := or_value devDependencies (JObj []) in
  let categories := foldl categorize categories_init (spread_keys deps devDeps) in
  let production := Z.of_nat (length (Object_keys deps)) in
  let development := Z.of_nat (length (Object_keys devDeps)) in
  ret (Stringified (JObj [
    ("total", JNum (production + development));
    ("production", JNum production);
    ("development", JNum development);
    ("categories", categories_value (remove_empty categories))])).

End MoreHandlers.

(** ** The health endpoint *)

Module Health.

Import Sessions.

(** [app.get("/health")]: [Object.keys(transports).length] counts the
    entries of the session table. *)
Definition sessions (s : Server) : nat := size (transports s).

Definition health (owner : string) (s : Server) : jsval :=
  JObj [("status", JStr "ok");
        ("sessions", JNum (Z.of_nat (sessions s)));
        ("version", JStr "2.0.0");
        ("owner", JStr owner);
        ("toolCount", JNum 50)].

(** The event opens or closes a stream under the identifier [k]. *)
Definition touches (k : string) (e : Event) : bool :=
  match e with
  | SseOpen t _ | StreamClose t => String.eqb (sessionId t) k
  | PostMessage _ => false
  end.

Definition undisturbed (k : string) (events : list Event) : bool :=
  forallb (fun e => negb (touches k e)) events.

Definition open_all (ts : list SSEServerTransport) : list Event :=
  map (fun t => SseOpen t true) ts.

Definition close_all (ts : list SSEServerTransport) : list Event :=
  map StreamClose ts.

End Health.


(** ** More scenarios *)

Module MoreScenarios.

Import Scenarios.

(** [Number.prototype.toString] on the integers. *)
Definition decimal (n : Z) : string := pretty n.

(** An entry of a contents listing. *)
Definition entry (type name : string) : jsval :=
  JObj [("name", JStr name); ("type", JStr type); ("path", JStr ("src/" +:+ name))].

(** The root of a Lovable project, and an upstream that lists it for every
    repository. *)
Definition lovable_root : list jsval :=
  [entry "file" "components.json"; entry "file" "package.json";
   entry "dir" "src"; entry "file" "tailwind.config.ts";
   entry "file" "vite.config.ts"].

Definition lovable_repo (log : Log) (c : Call) : FetchResult :=
  ok_json 200 (JArr lovable_root).

(** An account with a public and a private repository, both of them
    Lovable projects. *)
Definition public_repo : jsval :=
  JObj [("name", JStr "demo"); ("full_name", JStr "me/demo"); ("private", JBool false)].

Definition private_repo : jsval :=
  JObj [("name", JStr "secret"); ("full_name", JStr "me/secret"); ("private", JBool true)].

Definition account (log : Log) (c : Call) : FetchResult :=
  if String.eqb (call_url c)
       "https://api.github.com/users/me/repos?per_page=100&sort=updated"
  then ok_json 200 (JArr [public_repo; private_repo])
  else ok_json 200 (JArr lovable_root).

(** A commit as the commits listing has them. *)
Definition a_commit : jsval :=
  JObj [("sha", JStr "0123456789abcdef0123456789abcdef01234567");
        ("commit", JObj [("message", JStr "Initial commit");
                         ("author", JObj [("name", JStr "ann");
                                          ("date", JStr "2025-01-01T00:00:00Z")])])].

Definition commit_log (log : Log) (c : Call) : FetchResult :=
  ok_json 200 (JArr [a_commit]).

(** A repository with one commit and no [package.json]. *)
Definition bare_project (log : Log) (c : Call) : FetchResult :=
  if String.eqb (call_url c) "https://api.github.com/repos/me/demo"
  then ok_json 200 (JObj [("name", JStr "demo"); ("default_branch", JStr "main")])
  else if String.eqb (call_url c) "https://api.github.com/repos/me/demo/commits?per_page=5"
  then ok_json 200 (JArr [a_commit])
  else refused 404 "Not Found".

(** A parser that fails on every text. *)
Definition no_json (s : string) : JsError + jsval :=
  inl (SyntaxError "Unexpected end of JSON input").

(** Every call is accepted and answered with an object that has a [sha]
    and an [object]. *)
Definition git_objects (log : Log) (c : Call) : FetchResult :=
  ok_json 201 (JObj [("sha", JStr "t1"); ("object", JObj [("sha", JStr "abc")])]).

(** The upstream accepts every call with [204 No Content]. *)
Definition no_content (log : Log) (c : Call) : FetchResult :=
  Responded (mkResponse 204 "" (inl (SyntaxError "Unexpected end of JSON input"))).

(** A search that finds [an_issue] and [a_pull_request]. *)
Definition search_results (log : Log) (c : Call) : FetchResult :=
  ok_json 200 (JObj [("total_count", JNum 2);
                     ("items", JArr [an_issue; a_pull_request])]).

(** Folders of a project. *)
Definition hooks_listing (log : Log) (c : Call) : FetchResult :=
  ok_json 200 (JArr [entry "file" "use-toast.ts"; entry "file" "use-mobile.tsx"]).

Definition types_listing (log : Log) (c : Call) : FetchResult :=
  ok_json 200 (JArr [entry "file" "index.ts"; entry "file" "global.d.ts"]).

Definition components_listing (log : Log) (c : Call) : FetchResult :=
  ok_json 200 (JArr [entry "file" "Header.tsx"; entry "dir" "ui";
                     entry "file" "README.md"]).

(** A [package.json], and a parser that yields it for every text. *)
Definition a_manifest : jsval :=
  JObj [("name", JStr "demo");
        ("dependencies", JObj [("react", JStr "^18.3.1");
                               ("react-router-dom", JStr "^6.26.2");
                               ("zod", JStr "^3.23.8")]);
        ("devDependencies", JObj [("vite", JStr "^5.4.1");
                                  ("react", JStr "^18.3.1")])].

Definition parse_manifest (s : string) : JsError + jsval := inr a_manifest.

Definition manifest_repo (log : Log) (c : Call) : FetchResult :=
  ok_json 200 (JObj [("content", JStr "e30="); ("sha", JStr "abc")]).

(** A repository whose only file is [a.txt]. *)
Definition one_file (log : Log) (c : Call) : FetchResult :=
  if String.eqb (call_url c) "https://api.github.com/repos/me/demo/contents/a.txt"
  then ok_json 200 (JObj [("content", JStr "aGk="); ("sha", JStr "abc")])
  else refused 404 "Not Found".

(** A project with a Supabase client and no types file. *)
Definition supabase_without_types (log : Log) (c : Call) : FetchResult :=
  if String.eqb (call_url c)
       "https://api.github.com/repos/me/demo/contents/src/integrations/supabase/client.ts"
  then ok_json 200 (JObj [("content", JStr "Y2xpZW50")])
  else refused 404 "Not Found".

End MoreScenarios.
(** * Properties *)

Import Sessions.

(** ** The session table *)

Lemma uuid_not_empty (k : string) : is_uuid k = true -> k <> "".
Proof. intros H ->. discriminate H. Qed.

Lemma uuid_not_inherited (k : string) :
  is_uuid k = true -> Object_prototype_has k = false.
Proof.
  intros H. unfold Object_prototype_has.
  apply bool_decide_eq_false. intros Hin.
  unfold Object_prototype_names in Hin.
  repeat (apply elem_of_cons in Hin as [-> | Hin]; [vm_compute in H; discriminate H |]).
  by apply elem_of_nil in Hin.
Qed.

Lemma times_added_assign k k' t s :
  times_added k (assign k' t s) =
  if String.eqb k' k then S (times_added k s) else times_added k s.
Proof.
  unfold times_added, assign. cbn [history].
  rewrite filter_app, length_app, filter_cons, filter_nil.
  cbn [assigns]. destruct (String.eqb k' k); case_decide; simpl; try done; lia.
Qed.

Lemma times_added_remove k k' s : times_added k (remove k' s) = times_added k s.
Proof.
  unfold times_added, remove. cbn [history].
  rewrite filter_app, length_app, filter_cons, filter_nil.
  cbn [assigns]. case_decide; simpl; try done; lia.
Qed.

Lemma lookup_remove_same k s : lookup (remove k s) k =
  if Object_prototype_has k then Inherited else NotFound.
Proof. unfold lookup, remove. cbn [transports]. by rewrite lookup_delete_eq. Qed.

Lemma step_quiet_times k e s :
  opens k e = false -> times_added k (step s e) = times_added k s.
Proof.
  destruct e as [t c | t | q]; simpl; intros H; [ | apply times_added_remove | done].
  unfold sse_get. destruct c.
  - by rewrite times_added_assign, H.
  - by rewrite times_added_remove, times_added_assign, H.
Qed.

Lemma step_quiet_absent k e s :
  opens k e = false -> transports s !! k = None -> transports (step s e) !! k = None.
Proof.
  destruct e as [t c | t | q]; simpl; intros H Hs; [ | | done].
  - apply String.eqb_neq in H. unfold sse_get.
    destruct c; simpl.
    + by rewrite lookup_insert_ne.
    + rewrite lookup_delete_ne by done. by rewrite lookup_insert_ne.
  - unfold onclose, remove; simpl.
    destruct (decide (sessionId t = k)) as [-> | Hne].
    + apply lookup_delete_eq.
    + by rewrite lookup_delete_ne.
Qed.

Lemma run_quiet_times k events : forall s,
  quiet k events = true -> times_added k (run events s) = times_added k s.
Proof.
  induction events as [| e events IH]; intros s H; [done |].
  simpl in H. apply andb_true_iff in H as [He H].
  apply negb_true_iff in He.
  unfold run in *. simpl. rewrite IH by done. by apply step_quiet_times.
Qed.

Lemma run_quiet_absent k events : forall s,
  quiet k events = true -> transports s !! k = None ->
  transports (run events s) !! k = None.
Proof.
  induction events as [| e events IH]; intros s H Hs; [done |].
  simpl in H. apply andb_true_iff in H as [He H].
  apply negb_true_iff in He.
  unfold run in *. simpl. apply IH; [done |]. by apply step_quiet_absent.
Qed.

(** C1. For a session of the [/sse] endpoint, whose identifier is the UUID
    its transport generated and is used by no other stream: the identifier
    is assigned into the session table exactly once, when the stream is
    established; once the stream has closed (the [onclose] callback has run,
    whatever made the transport close) or [connect] has failed, the
    identifier is removed, and every later read of it in the table, the one
    of the [/messages] endpoint included, finds nothing, whatever requests
    and closures of other streams follow. *)
Theorem session_added_once_and_gone_after_close
    (handlePostMessage : SSEServerTransport -> PostEffect)
    (t : SSEServerTransport) (before during later : list Event) :
  is_uuid (sessionId t) = true ->
  quiet (sessionId t) before = true ->
  quiet (sessionId t) during = true ->
  quiet (sessionId t) later = true ->
  let opened := sse_get t true (run before initial) in
  let closed := onclose t (run during opened) in
  lookup opened (sessionId t) = Own t
  /\ times_added (sessionId t) opened = 1%nat
  /\ times_added (sessionId t) (run later closed) = 1%nat
  /\ lookup (run later closed) (sessionId t) = NotFound
  /\ post_messages handlePostMessage (run later closed) (Some (sessionId t))
     = mkOutcome None (Some (mkReply 404 "Session not found"))
  /\ lookup (run later (sse_get t false (run before initial))) (sessionId t) = NotFound.
Proof.
  intros Hid Hb Hd Hl opened closed.
  pose proof (uuid_not_inherited _ Hid) as Hproto.
  pose proof (uuid_not_empty _ Hid) as Hne.
  assert (Hopened : times_added (sessionId t) opened = 1%nat).
  { unfold opened, sse_get. rewrite times_added_assign, String.eqb_refl.
    by rewrite run_quiet_times. }
  assert (Hgone : lookup (run later closed) (sessionId t) = NotFound).
  { unfold lookup. rewrite run_quiet_absent; [by rewrite Hproto | done |].
    unfold closed, onclose, remove. simpl. apply lookup_delete_eq. }
  split; [| split; [done | split; [| split; [done | split]]]].
  - unfold lookup, opened, sse_get, assign. simpl. by rewrite lookup_insert_eq.
  - rewrite run_quiet_times by done. unfold closed, onclose.
    rewrite times_added_remove. by rewrite run_quiet_times.
  - unfold post_messages. apply String.eqb_neq in Hne. rewrite Hne. by rewrite Hgone.
  - unfold lookup. rewrite run_quiet_absent; [by rewrite Hproto | done |].
    unfold sse_get, remove. simpl. apply lookup_delete_eq.
Qed.

(** ** The message endpoint *)

Lemma post_messages_missing handlePostMessage s query :
  query = None \/ query = Some "" ->
  post_messages handlePostMessage s query
  = mkOutcome None (Some (mkReply 400 "Missing sessionId")).
Proof. by intros [-> | ->]. Qed.

(** An identifier that the table does not own and that names no property
    of [Object.prototype] is answered 404, with no dispatch. *)
Lemma post_messages_unknown handlePostMessage s k :
  k <> "" -> transports s !! k = None -> Object_prototype_has k = false ->
  post_messages handlePostMessage s (Some k)
  = mkOutcome None (Some (mkReply 404 "Session not found")).
Proof.
  intros Hk Hnone Hproto. unfold post_messages, lookup.
  apply String.eqb_neq in Hk. by rewrite Hk, Hnone, Hproto.
Qed.

(** An identifier that the table does not own but that names a property of
    [Object.prototype] reads as that inherited property: the handler takes
    it for a transport, the call of its [handlePostMessage] throws, and the
    reply is 500. *)
Lemma post_messages_inherited handlePostMessage s k :
  transports s !! k = None -> Object_prototype_has k = true ->
  post_messages handlePostMessage s (Some k)
  = mkOutcome None (Some (mkReply 500 "Internal server error")).
Proof.
  intros Hnone Hproto. unfold post_messages, lookup. rewrite Hnone, Hproto.
  destruct (String.eqb k "") eqn:E; [| done].
  apply String.eqb_eq in E. subst k. discriminate Hproto.
Qed.

(** C2 at the identifier [constructor]. No session was ever opened, so the
    identifier is not in the session table; the POST is answered 500
    [Internal server error] instead of 404 [Session not found]. The
    dispatcher is not invoked. *)
Theorem post_messages_constructor_is_500 handlePostMessage :
  transports initial !! "constructor" = None
  /\ post_messages handlePostMessage initial (Some "constructor")
     = mkOutcome None (Some (mkReply 500 "Internal server error")).
Proof. split; reflexivity. Qed.

(** ** Computations that issue no upstream call *)

Lemma bind_ret {A B} (m : M A) (k : A -> M B) log log' a :
  m log = (log', inr a) -> bind m k log = k a log'.
Proof. intros H. unfold bind. by rewrite H. Qed.

Lemma bind_throw {A B} (m : M A) (k : A -> M B) log log' e :
  m log = (log', inl e) -> bind m k log = (log', inl e).
Proof. intros H. unfold bind. by rewrite H. Qed.

Lemma silent_ret {A} (a : A) : silent (ret a).
Proof. done. Qed.

Lemma silent_throw {A} (e : JsError) : silent (throw (A := A) e).
Proof. done. Qed.

Lemma silent_lift {A} (r : JsError + A) : silent (lift r).
Proof. done. Qed.

Lemma silent_bind {A B} (m : M A) (k : A -> M B) :
  silent m -> (forall a, silent (k a)) -> silent (bind m k).
Proof.
  intros Hm Hk log. unfold eval, bind. rewrite (Hm log), (Hm []).
  destruct (eval m) as [e | a]; [done |]. by rewrite (Hk a log), (Hk a []).
Qed.

Lemma silent_try_catch {A} (m : M A) (h : JsError -> M A) :
  silent m -> (forall e, silent (h e)) -> silent (try_catch m h).
Proof.
  intros Hm Hh log. unfold eval, try_catch. rewrite (Hm log), (Hm []).
  destruct (eval m) as [e | a]; [| done]. by rewrite (Hh e log), (Hh e []).
Qed.

Lemma silent_prop v k : silent (prop v k).
Proof. by destruct v. Qed.

Lemma silent_as_array receiver what v : silent (as_array receiver what v).
Proof. by destruct v. Qed.

Lemma silent_str_replace receiver v pat : silent (str_replace receiver v pat).
Proof. by destruct v. Qed.

Lemma silent_str_endsWith receiver v suffix :
  silent (str_endsWith receiver v suffix).
Proof. by destruct v. Qed.

Lemma silent_mapM {A B} (f : A -> M B) (l : list A) :
  (forall x, silent (f x)) -> silent (mapM f l).
Proof.
  intros Hf. induction l as [| x l IH]; [done |].
  simpl. apply silent_bind; [done |]. intros y.
  apply silent_bind; [done |]. intros ys. apply silent_ret.
Qed.

Lemma silent_filterM {A} (f : A -> M bool) (l : list A) :
  (forall x, silent (f x)) -> silent (filterM f l).
Proof.
  intros Hf. induction l as [| x l IH]; [done |].
  simpl. apply silent_bind; [done |]. intros keep.
  apply silent_bind; [done |]. intros ys. apply silent_ret.
Qed.

Lemma silent_js_map receiver v f :
  (forall x, silent (f x)) -> silent (js_map receiver v f).
Proof.
  intros Hf. unfold js_map. apply silent_bind; [apply silent_as_array |].
  intros items. apply silent_bind; [by apply silent_mapM |].
  intros out. apply silent_ret.
Qed.

Lemma silent_js_filter receiver v f :
  (forall x, silent (f x)) -> silent (js_filter receiver v f).
Proof.
  intros Hf. unfold js_filter. apply silent_bind; [apply silent_as_array |].
  intros items. apply silent_bind; [by apply silent_filterM |].
  intros out. apply silent_ret.
Qed.

Lemma silent_Promise_all {A} order (rs : list (JsError + A)) :
  silent (Promise_all order rs).
Proof. intros log. unfold eval, Promise_all. by destruct (first_rejection _ _). Qed.

Lemma silent_fst {A} (m : M A) log : silent m -> fst (m log) = log.
Proof. intros H. by rewrite (H log). Qed.

Lemma silent_Buffer_from_base64 decode other v :
  silent (Buffer_from_base64 decode other v).
Proof.
  destruct v; try done;
    apply silent_bind; first [apply silent_lift | intros; apply silent_ret].
Qed.

(** What [Buffer.from(v, "base64").toString()] returns is the decoding of
    some base64 text. *)
Lemma Buffer_from_base64_decoded decode other v decoded :
  eval (Buffer_from_base64 decode other v) = inr decoded ->
  exists content, decoded = decode content.
Proof.
  destruct v; unfold eval, Buffer_from_base64, bind, lift, ret; simpl;
    try (destruct (other _) as [e | s]; [done |]);
    intros [= <-]; by eexists.
Qed.

Create HintDb silent.
#[export] Hint Resolve silent_ret silent_throw silent_lift silent_prop
  silent_as_array silent_str_replace silent_str_endsWith silent_Promise_all
  silent_Buffer_from_base64 : silent.

Ltac silent :=
  repeat first
    [ progress intros
    | apply silent_bind
    | apply silent_try_catch
    | apply silent_js_map
    | apply silent_js_filter
    | apply silent_mapM
    | apply silent_filterM
    | solve [auto with silent] ].

(** ** [Promise.all] *)

Lemma first_rejection_sound {A} order (rs : list (JsError + A)) e :
  first_rejection order rs = Some e -> exists i, rs !! i = Some (inl e).
Proof.
  induction order as [| i order IH]; [done |]. simpl.
  destruct (rs !! i) as [[e' | v] |] eqn:E; try done.
  intros [= ->]. by exists i.
Qed.

Lemma first_rejection_finds {A} order (rs : list (JsError + A)) i e :
  i ∈ order -> rs !! i = Some (inl e) ->
  exists e', first_rejection order rs = Some e'.
Proof.
  induction order as [| j order IH]; intros Hin Hi.
  - by apply elem_of_nil in Hin.
  - simpl. destruct (rs !! j) as [[e' | v] |] eqn:E; [by eexists | |];
      (apply elem_of_cons in Hin as [-> | Hin]; [congruence | by apply IH]).
Qed.

Lemma first_rejection_none {A} order (vs : list A) :
  first_rejection order (map inr vs) = None.
Proof.
  induction order as [| i order IH]; [done |]. simpl.
  rewrite list_lookup_fmap. by destruct (vs !! i).
Qed.

Lemma omap_fulfilled {A} (vs : list A) :
  omap fulfilled (map (inr (A := JsError)) vs) = vs.
Proof. induction vs as [| v vs IH]; [done |]. cbn. by rewrite IH. Qed.

Lemma Promise_all_fulfilled {A} order (vs : list A) log :
  Promise_all order (map inr vs) log = (log, inr vs).
Proof.
  unfold Promise_all. rewrite first_rejection_none.
  unfold ret. by rewrite omap_fulfilled.
Qed.

Lemma Promise_all_rejected {A} order (rs : list (JsError + A)) i e log :
  rs !! i = Some (inl e) ->
  exists j e', rs !! j = Some (inl e') /\ Promise_all order rs log = (log, inl e').
Proof.
  intros Hi. unfold Promise_all.
  destruct (first_rejection_finds (order ++ seq 0 (length rs)) rs i e) as [e' He'];
    [| done |].
  - apply elem_of_app. right. apply elem_of_seq.
    apply lookup_lt_Some in Hi. lia.
  - rewrite He'. destruct (first_rejection_sound _ _ _ He') as [j Hj]. by exists j, e'.
Qed.

(** *** [list_issues] *)

Lemma silent_not_pull_request i : silent (not_pull_request i).
Proof. unfold not_pull_request. silent. Qed.

Lemma silent_format_issue i : silent (format_issue i).
Proof. unfold format_issue. silent. Qed.

Lemma silent_list_issues_url owner repo state labels :
  silent (list_issues_url owner repo state labels).
Proof. unfold list_issues_url. destruct labels as [[| c l] |]; silent. Qed.

Lemma eval_bind {A B} (m : M A) (k : A -> M B) :
  silent m ->
  eval (bind m k) = match eval m with
                    | inl e => inl e
                    | inr a => eval (k a)
                    end.
Proof. intros Hm. unfold eval, bind. rewrite (Hm []). by destruct (eval m). Qed.

(** The filter keeps exactly the items without a [pull_request] marker. *)
Lemma filterM_not_pull_request items kept :
  eval (filterM not_pull_request items) = inr kept ->
  kept = List.filter (fun i => negb (carries_pull_request i)) items.
Proof.
  revert kept. induction items as [| i items IH]; intros kept; simpl.
  - by intros [= <-].
  - rewrite eval_bind by apply silent_not_pull_request.
    destruct (eval (not_pull_request i)) as [e | keep] eqn:Ei; [done |].
    rewrite eval_bind by (apply silent_filterM, silent_not_pull_request).
    destruct (eval (filterM not_pull_request items)) as [e | ys]; [done |].
    specialize (IH ys eq_refl). subst ys.
    assert (keep = negb (carries_pull_request i)) as ->.
    { destruct i; try discriminate Ei; by injection Ei as <-. }
    intros [= <-]. by destruct (negb (carries_pull_request i)).
Qed.

Lemma mapM_Forall2 {A B} (f : A -> M B) (l : list A) (out : list B) :
  (forall x, silent (f x)) ->
  eval (mapM f l) = inr out ->
  Forall2 (fun x y => eval (f x) = inr y) l out.
Proof.
  intros Hf. revert out. induction l as [| x l IH]; intros out; simpl.
  - intros [= <-]. constructor.
  - rewrite eval_bind by done.
    destruct (eval (f x)) as [e | y] eqn:Ex; [done |].
    rewrite eval_bind by by apply silent_mapM.
    destruct (eval (mapM f l)) as [e | ys]; [done |].
    intros [= <-]. constructor; [done | by apply IH].
Qed.

Lemma mapM_total {A B} (f : A -> M B) (l : list A) :
  (forall x, silent (f x)) ->
  Forall (fun x => exists y, eval (f x) = inr y) l ->
  exists out, eval (mapM f l) = inr out.
Proof.
  intros Hf H. induction H as [| x l [y Hy] _ [ys IH]]; [by eexists |].
  exists (y :: ys). simpl. rewrite eval_bind by done. rewrite Hy.
  rewrite eval_bind by by apply silent_mapM. by rewrite IH.
Qed.

Lemma filterM_total {A} (f : A -> M bool) (l : list A) :
  (forall x, silent (f x)) ->
  Forall (fun x => exists b, eval (f x) = inr b) l ->
  exists out, eval (filterM f l) = inr out.
Proof.
  intros Hf H. induction H as [| x l [b Hb] _ [ys IH]]; [by eexists |].
  eexists. simpl. rewrite eval_bind by done. rewrite Hb.
  rewrite eval_bind by by apply silent_filterM. by rewrite IH.
Qed.

Lemma format_issue_total i :
  issue_shaped i = true -> exists o, eval (format_issue i) = inr o.
Proof.
  destruct i as [| | | | | | fields]; try done. simpl.
  intros [Huser Hlabels]%andb_true_iff.
  destruct (default JUndefined (assoc "user" fields)) as [| | | | | | user] eqn:Eu; try done.
  destruct (default JUndefined (assoc "labels" fields)) as [| | | | | labels |] eqn:El;
    try done.
  destruct (mapM_total (fun l => prop l "name") labels) as [names Hnames].
  { intros l. apply silent_prop. }
  { apply Forall_forall. intros l Hl.
    rewrite forallb_forall in Hlabels.
    specialize (Hlabels l (proj1 (list_elem_of_In _ _) Hl)).
    destruct l; try done. by eexists. }
  eexists. unfold format_issue.
  do 4 (rewrite eval_bind by silent; cbn [eval prop ret snd]).
  rewrite Eu. rewrite eval_bind by silent. cbn [eval prop ret snd].
  rewrite eval_bind by silent. cbn [eval prop ret snd]. rewrite El.
  rewrite eval_bind by silent. unfold js_map at 1.
  rewrite eval_bind by silent. cbn [eval as_array ret snd].
  rewrite eval_bind by silent. rewrite Hnames. cbn [eval ret snd].
  do 2 (rewrite eval_bind by silent; cbn [eval prop ret snd]).
  reflexivity.
Qed.

Lemma not_pull_request_total i :
  issue_shaped i = true -> exists b, eval (not_pull_request i) = inr b.
Proof. destruct i; try done. by eexists. Qed.

Lemma js_filter_not_pull_request receiver issues kept :
  eval (js_filter receiver issues not_pull_request) = inr kept ->
  exists items,
    issues = JArr items
    /\ kept = JArr (List.filter (fun i => negb (carries_pull_request i)) items).
Proof.
  unfold js_filter. rewrite eval_bind by silent.
  destruct issues as [| | | | | items |]; try done. cbn [eval as_array ret snd].
  rewrite eval_bind by (apply silent_filterM, silent_not_pull_request).
  destruct (eval (filterM not_pull_request items)) as [e | ys] eqn:E; [done |].
  intros [= <-]. exists items. by rewrite (filterM_not_pull_request _ _ E).
Qed.

Lemma js_map_format_issue receiver items formatted :
  eval (js_map receiver (JArr items) format_issue) = inr formatted ->
  exists out,
    formatted = JArr out
    /\ Forall2 (fun i o => eval (format_issue i) = inr o) items out.
Proof.
  unfold js_map. rewrite eval_bind by silent. cbn [eval as_array ret snd].
  rewrite eval_bind by (apply silent_mapM, silent_format_issue).
  destruct (eval (mapM format_issue items)) as [e | out] eqn:E; [done |].
  intros [= <-]. exists out. split; [done |].
  apply mapM_Forall2; [apply silent_format_issue | done].
Qed.

Lemma Forall2_filter_not_pull_request {B} (P : jsval -> B -> Prop) items (out : list B) :
  Forall2 P (List.filter (fun i => negb (carries_pull_request i)) items) out ->
  Forall2 (fun i o => carries_pull_request i = false /\ P i o)
    (List.filter (fun i => negb (carries_pull_request i)) items) out.
Proof.
  intros H.
  assert (Hall : Forall (fun i => carries_pull_request i = false)
                   (List.filter (fun i => negb (carries_pull_request i)) items)).
  { apply Forall_forall. intros i [_ Hi]%list_elem_of_In%filter_In.
    by apply negb_true_iff in Hi. }
  induction H as [| i o l l' Hio _ IH]; [constructor |].
  apply Forall_cons in Hall as [Hi Hall]. constructor; [done | by apply IH].
Qed.

(** ** [encodeURIComponent] *)

Lemma unescaped_not_surrogate c :
  unescaped c = true -> is_lead c = false /\ is_trail c = false.
Proof.
  unfold unescaped, is_lead, is_trail. intros H.
  assert (c < 0xD800) as Hc.
  { repeat (apply orb_true_iff in H as [H | H]);
      [apply andb_true_iff in H as [_ H]; lia ..|].
    apply bool_decide_eq_true in H. unfold uri_mark in H.
    repeat (apply elem_of_cons in H as [-> | H]; [lia |]).
    by apply elem_of_nil in H. }
  split; apply andb_false_iff; left; lia.
Qed.

(** [encodeURIComponent] returns exactly on the well-formed strings, and
    [URI malformed] is the only error it raises. *)
Lemma encodeURIComponent_well_formed_upto (n : nat) : forall s : utf16,
  (length s <= n)%nat ->
  (well_formed s = true -> exists enc, encodeURIComponent s = inr enc)
  /\ (well_formed s = false -> encodeURIComponent s = inl uri_malformed).
Proof.
  induction n as [| n IH]; intros [| c rest] Hlen; simpl in Hlen; try lia.
  - split; [by eexists | done].
  - split; [by eexists | done].
  - simpl. destruct (unescaped c) eqn:Hu.
    + destruct (unescaped_not_surrogate c Hu) as [-> ->].
      destruct (IH rest ltac:(lia)) as [Hwf Hbad]. split; intros H.
      * destruct (Hwf H) as [enc ->]. by eexists.
      * by rewrite (Hbad H).
    + destruct (is_trail c); [split; [done | done] |].
      destruct (is_lead c).
      * destruct rest as [| d rest']; [split; done |].
        destruct (is_trail d); simpl; [| split; done].
        destruct (IH rest' ltac:(simpl in Hlen; lia)) as [Hwf Hbad]. split; intros H.
        -- destruct (Hwf H) as [enc ->]. by eexists.
        -- by rewrite (Hbad H).
      * destruct (IH rest ltac:(lia)) as [Hwf Hbad]. split; intros H.
        -- destruct (Hwf H) as [enc ->]. by eexists.
        -- by rewrite (Hbad H).
Qed.

Lemma encodeURIComponent_well_formed (s : utf16) :
  well_formed s = true -> exists enc, encodeURIComponent s = inr enc.
Proof. apply (encodeURIComponent_well_formed_upto (length s)). lia. Qed.

Lemma encodeURIComponent_ill_formed (s : utf16) :
  well_formed s = false -> encodeURIComponent s = inl uri_malformed.
Proof. apply (encodeURIComponent_well_formed_upto (length s)). lia. Qed.

Lemma silent_generate_build_url prompt images :
  silent (generate_build_url prompt images).
Proof.
  unfold generate_build_url. apply silent_bind; [apply silent_lift |].
  intros enc. apply silent_bind; [| intros; apply silent_ret].
  destruct images as [[| img more] |]; [apply silent_ret | | apply silent_ret].
  apply silent_bind; [| intros; apply silent_ret].
  apply silent_mapM. intros img'. unfold image_param.
  apply silent_bind; [apply silent_lift | intros; apply silent_ret].
Qed.

(** ** Own properties *)

Lemma assoc_absent k (fields : list (string * jsval)) :
  k ∉ map fst fields -> assoc k fields = None.
Proof.
  induction fields as [| [k' v] fields IH]; [done |]. simpl.
  intros [Hne Hk]%not_elem_of_cons. rewrite (IH Hk).
  by destruct (String.eqb_spec k k').
Qed.

Lemma assoc_present k (fields : list (string * jsval)) :
  k ∈ map fst fields -> is_Some (assoc k fields).
Proof.
  induction fields as [| [k' v] fields IH]; simpl.
  - intros H. by apply elem_of_nil in H.
  - intros [-> | Hin]%elem_of_cons.
    + destruct (assoc k' fields); [by eexists |]. rewrite String.eqb_refl. by eexists.
    + destruct (IH Hin) as [w ->]. by eexists.
Qed.

Lemma assoc_app k (o o' : list (string * jsval)) :
  assoc k (o ++ o') = match assoc k o' with
                      | Some v => Some v
                      | None => assoc k o
                      end.
Proof.
  induction o as [| [k' v] o IH]; simpl.
  - by destruct (assoc k o').
  - rewrite IH. by destruct (assoc k o').
Qed.

Lemma elem_of_first_occurrences k keys :
  k ∈ first_occurrences keys <-> k ∈ keys.
Proof.
  induction keys as [| k' keys IH]; [done |]. simpl.
  rewrite !elem_of_cons, <- IH. split.
  - intros [-> | Hin]; [by left |]. right.
    by apply list_elem_of_In, filter_In in Hin as [Hin%list_elem_of_In _].
  - intros [-> | Hin]; [by left |].
    destruct (String.eqb_spec k k') as [-> | Hne]; [by left |]. right.
    apply list_elem_of_In, filter_In. split; [by apply list_elem_of_In |].
    apply negb_true_iff. by apply String.eqb_neq.
Qed.

Lemma elem_of_property_order k keys :
  k ∈ property_order keys <-> k ∈ keys.
Proof.
  unfold property_order. rewrite elem_of_app, list_elem_of_fmap. split.
  - intros [([n k'] & -> & Hin) | Hin].
    + rewrite merge_sort_Permutation in Hin. unfold indexed in Hin.
      apply list_elem_of_omap in Hin as (k'' & Hin & Hk).
      destruct (array_index k''); [| done]. simpl in Hk. by injection Hk as _ <-.
    + by apply list_elem_of_In, filter_In in Hin as [Hin%list_elem_of_In _].
  - intros Hin. destruct (array_index k) as [n |] eqn:Ek.
    + left. exists (n, k). split; [done |].
      rewrite merge_sort_Permutation. unfold indexed.
      apply list_elem_of_omap. exists k. split; [done |]. by rewrite Ek.
    + right. apply list_elem_of_In, filter_In. split; [by apply list_elem_of_In |].
      rewrite Ek. apply negb_true_iff, bool_decide_eq_false. by intros [? [=]].
Qed.

(** The own properties are listed under their keys in property order, and
    reading one of them finds the value last assigned. *)
Lemma own_properties_keys (o : list (string * jsval)) :
  map fst (own_properties o) = property_order (first_occurrences (map fst o)).
Proof.
  unfold own_properties.
  assert (Hsub : forall k, k ∈ property_order (first_occurrences (map fst o))
                           -> k ∈ map fst o).
  { intros k Hk. by apply elem_of_first_occurrences, elem_of_property_order. }
  induction (property_order (first_occurrences (map fst o))) as [| k keys IH]; [done |].
  cbn [omap list_omap]. destruct (assoc_present k o) as [v Hv]; [apply Hsub; by left |].
  rewrite Hv. cbn [fmap option_fmap option_map map fst]. f_equal.
  apply IH. intros k' Hk'. apply Hsub. by right.
Qed.

Lemma own_properties_assoc (o : list (string * jsval)) k :
  assoc k (own_properties o) = assoc k o.
Proof.
  unfold own_properties.
  assert (Hin : k ∈ map fst o -> k ∈ property_order (first_occurrences (map fst o))).
  { intros Hk. by apply elem_of_property_order, elem_of_first_occurrences. }
  assert (Hgen : forall keys,
    assoc k (omap (fun k' => (fun v => (k', v)) <$> assoc k' o) keys)
    = if decide (k ∈ keys) then assoc k o else None).
  { induction keys as [| k' keys IH].
    { rewrite decide_False; [done |]. apply not_elem_of_nil. }
    cbn [omap list_omap].
    destruct (assoc k' o) as [v' |] eqn:Ek'; cbn [fmap option_fmap option_map].
    - cbn [assoc]. rewrite IH. destruct (decide (k ∈ keys)) as [Hk | Hk].
      + rewrite decide_True by (by right).
        destruct (assoc k o) as [w |] eqn:Ek; [done |].
        destruct (String.eqb_spec k k') as [-> | _]; [congruence | done].
      + destruct (String.eqb_spec k k') as [-> | Hne].
        * by rewrite decide_True by (by left).
        * rewrite decide_False; [done |]. by intros [? | ?]%elem_of_cons.
    - rewrite IH. destruct (decide (k ∈ keys)) as [Hk | Hk].
      + by rewrite decide_True by (by right).
      + destruct (decide (k ∈ k' :: keys)) as [[-> | ?]%elem_of_cons | _]; done. }
  rewrite Hgen. destruct (decide _) as [_ | Hnot]; [done |].
  symmetry. apply assoc_absent. intros Hk. by apply Hnot, Hin.
Qed.

(** ** The upstream client *)

Section ServerFacts.

Variable GITHUB_OWNER : string.
Variable fetch : Log -> Call -> FetchResult.
Variable base64_decode : string -> string.
Variable base64_of_value : jsval -> JsError + string.
Variable base64_encode : string -> string.
Variable settle_order : list nat.

#[local] Arguments githubRequest : simpl never.
#[local] Arguments api_call : simpl never.
#[local] Arguments contents_url : simpl never.
#[local] Arguments repo_url : simpl never.

Lemma githubRequest_answers endpoint options log v :
  answers fetch log (api_call endpoint options) v ->
  githubRequest fetch endpoint options log
  = (log ++ [api_call endpoint options], inr v).
Proof.
  intros (r & Hf & Hok & Hj). unfold githubRequest. by rewrite Hf, Hok, Hj.
Qed.

Lemma githubRequest_rejects endpoint options log r :
  rejects fetch log (api_call endpoint options) r ->
  githubRequest fetch endpoint options log
  = (log ++ [api_call endpoint options], inl (github_error r)).
Proof.
  intros (Hf & Hok). unfold githubRequest. by rewrite Hf, Hok.
Qed.

(** Every [githubRequest] issues exactly one call, whatever comes back. *)
Lemma githubRequest_log endpoint options log :
  fst (githubRequest fetch endpoint options log) = log ++ [api_call endpoint options].
Proof.
  unfold githubRequest. destruct (fetch _ _) as [msg | r]; [done |].
  by destruct (response_ok r).
Qed.

Lemma githubRequest_split endpoint options log :
  githubRequest fetch endpoint options log
  = (log ++ [api_call endpoint options],
     snd (githubRequest fetch endpoint options log)).
Proof.
  rewrite <- githubRequest_log. by destruct (githubRequest _ _ _ _).
Qed.

Lemma settled_githubRequest endpoint options log :
  settled (githubRequest fetch endpoint options) log
  = (log ++ [api_call endpoint options],
     inr (snd (githubRequest fetch endpoint options log))).
Proof. unfold settled. by rewrite githubRequest_split. Qed.

Lemma lacks_rejected repo path log :
  lacks GITHUB_OWNER fetch repo path ->
  exists r,
    status r = 404
    /\ githubRequest fetch (contents_url GITHUB_OWNER repo path) no_options log
       = (log ++ [api_call (contents_url GITHUB_OWNER repo path) no_options],
          inl (github_error r)).
Proof.
  intros H. destruct (H log) as (r & Hf & Hs). exists r. split; [done |].
  apply githubRequest_rejects. split; [done |].
  unfold response_ok. rewrite Hs. reflexivity.
Qed.

(** *** [read_multiple_files] *)

(** Reading one path never throws: the [catch] turns every failure into
    the entry of that path. *)
Lemma read_one_total repo path log :
  exists entry,
    read_one GITHUB_OWNER fetch base64_decode base64_of_value repo path log
    = (log ++ [api_call (contents_url GITHUB_OWNER repo path) no_options], inr entry)
    /\ is_entry base64_decode entry.
Proof.
  unfold read_one, try_catch, bind. rewrite githubRequest_split.
  destruct (snd (githubRequest _ _ _ _)) as [e | file].
  { eexists. split; [done |]. right. by exists e. }
  rewrite (silent_prop file "content").
  destruct (eval (prop file "content")) as [e | content].
  { eexists. split; [done |]. right. by exists e. }
  rewrite (silent_Buffer_from_base64 base64_decode base64_of_value content).
  destruct (eval (Buffer_from_base64 _ _ content)) as [e | decoded] eqn:Hd.
  { eexists. split; [done |]. right. by exists e. }
  eexists. split; [done |]. left. by eapply Buffer_from_base64_decoded.
Qed.

(** What [read_one] records for a path whose read is refused, and for one
    whose read yields string content. *)
Lemma read_one_rejects repo path log r :
  rejects fetch log (api_call (contents_url GITHUB_OWNER repo path) no_options) r ->
  read_one GITHUB_OWNER fetch base64_decode base64_of_value repo path log
  = (log ++ [api_call (contents_url GITHUB_OWNER repo path) no_options],
     inr ("Error: GitHub API error: " +:+ pretty (status r) +:+ " - " +:+ text r)).
Proof.
  intros Hr. unfold read_one, try_catch.
  by erewrite bind_throw by exact (githubRequest_rejects _ _ _ _ Hr).
Qed.

Lemma read_one_answers repo path log fields content :
  answers fetch log (api_call (contents_url GITHUB_OWNER repo path) no_options)
    (JObj fields) ->
  assoc "content" fields = Some (JStr content) ->
  read_one GITHUB_OWNER fetch base64_decode base64_of_value repo path log
  = (log ++ [api_call (contents_url GITHUB_OWNER repo path) no_options],
     inr (base64_decode content)).
Proof.
  intros Hans Hcontent. unfold read_one, try_catch.
  erewrite bind_ret by exact (githubRequest_answers _ _ _ _ Hans).
  erewrite bind_ret by (cbn [prop ret]; by rewrite Hcontent).
  reflexivity.
Qed.

(** The loop never throws. It reads the paths in order, and what it adds
    to [results] is one assignment for each requested path other than
    [__proto__], in the order of the request: the one made for the last
    occurrence of a path is what [read_one] gave there. *)
Lemma read_files_loop_entries repo paths : forall (init : list (string * jsval)) log,
  exists assigned,
    read_files_loop GITHUB_OWNER fetch base64_decode base64_of_value repo paths init log
    = (log ++ map (fun p => api_call (contents_url GITHUB_OWNER repo p) no_options) paths,
       inr (init ++ assigned))
    /\ map fst assigned
       = List.filter (fun p => negb (String.eqb p "__proto__")) paths
    /\ (forall i p,
          paths !! i = Some p -> p <> "__proto__" -> p ∉ drop (S i) paths ->
          exists entry,
            snd (read_one GITHUB_OWNER fetch base64_decode base64_of_value repo p
                   (log ++ map (fun p => api_call (contents_url GITHUB_OWNER repo p)
                                           no_options) (take i paths))) = inr entry
            /\ assoc p assigned = Some (JStr entry)).
Proof.
  induction paths as [| path paths IH]; intros init log.
  - exists []. simpl. rewrite !app_nil_r. split; [done |]. split; [done |].
    intros i p Hp. by rewrite lookup_nil in Hp.
  - destruct (read_one_total repo path log) as (entry & Hone & _).
    cbn [read_files_loop]. erewrite bind_ret by exact Hone.
    destruct (IH (obj_set_string init path entry)
                 (log ++ [api_call (contents_url GITHUB_OWNER repo path) no_options]))
      as (assigned & Hloop & Hkeys & Hvalues).
    rewrite Hloop.
    assert (Hlater : forall p, p ∉ paths -> assoc p assigned = None).
    { intros p Hp. apply assoc_absent. rewrite Hkeys. intros Hin. apply Hp.
      by apply list_elem_of_In, filter_In in Hin as [Hin%list_elem_of_In _]. }
    destruct (String.eqb_spec path "__proto__") as [-> | Hne].
    + exists assigned. unfold obj_set_string. cbn [String.eqb Ascii.eqb Bool.eqb map].
      rewrite <- (assoc_L (++)). split; [done |].
      split; [by rewrite Hkeys |].
      intros [| i] p Hp Hproto Hlast; simpl in Hp.
      * by injection Hp as <-.
      * destruct (Hvalues i p Hp Hproto Hlast) as (e & He & Ha).
        rewrite <- (assoc_L (++)) in He. by exists e.
    + exists ((path, JStr entry) :: assigned). unfold obj_set_string.
      apply String.eqb_neq in Hne. rewrite Hne. cbn [map List.filter negb fst].
      rewrite <- !(assoc_L (++)). split; [done |].
      split; [by rewrite Hne, Hkeys |].
      intros [| i] p Hp Hproto Hlast; simpl in Hp.
      * injection Hp as <-. exists entry. cbn [take map]. rewrite app_nil_r.
        split; [by rewrite Hone |].
        cbn [assoc]. rewrite (Hlater path Hlast). by rewrite String.eqb_refl.
      * destruct (Hvalues i p Hp Hproto Hlast) as (e & He & Ha).
        rewrite <- (assoc_L (++)) in He. exists e. split; [done |].
        cbn [assoc]. by rewrite Ha.
Qed.

(** [read_multiple_files] never fails: each requested path other than
    [__proto__] has an entry in the Result, and no other key has one. *)
Lemma read_multiple_files_entries repo paths log :
  exists entries,
    read_multiple_files GITHUB_OWNER fetch base64_decode base64_of_value repo paths log
    = (log ++ map (fun p => api_call (contents_url GITHUB_OWNER repo p) no_options) paths,
       inr (Stringified (JObj entries)))
    /\ (forall p, p ∈ paths -> p <> "__proto__" -> is_Some (assoc p entries))
    /\ (forall p, p ∉ paths -> assoc p entries = None)
    /\ assoc "__proto__" entries = None.
Proof.
  destruct (read_files_loop_entries repo paths [] log) as (assigned & Hloop & Hkeys & _).
  exists (own_properties assigned). split; [| split; [| split]].
  - unfold read_multiple_files. by erewrite bind_ret by exact Hloop.
  - intros p Hp Hne. rewrite own_properties_assoc. apply assoc_present.
    rewrite Hkeys. apply list_elem_of_In, filter_In. split; [by apply list_elem_of_In |].
    apply negb_true_iff. by apply String.eqb_neq.
  - intros p Hp. rewrite own_properties_assoc. apply assoc_absent. rewrite Hkeys.
    intros Hin. apply Hp.
    by apply list_elem_of_In, filter_In in Hin as [Hin%list_elem_of_In _].
  - rewrite own_properties_assoc. apply assoc_absent. rewrite Hkeys.
    intros Hin. by apply list_elem_of_In, filter_In in Hin as [_ Hin].
Qed.

(** *** Conventional folders *)

(** [list_utils] falls back on [src/lib]: when [src/utils] is lacking and
    [src/lib] is listed, the Result is the listing of [src/lib]. *)
Lemma list_utils_falls_back_on_lib repo log items :
  let utils := api_call (contents_url GITHUB_OWNER repo "src/utils") no_options in
  let lib := api_call (contents_url GITHUB_OWNER repo "src/lib") no_options in
  lacks GITHUB_OWNER fetch repo "src/utils" ->
  answers fetch (log ++ [utils]) lib (JArr items) ->
  forall listed, eval (mapM ts_item items) = inr listed ->
  list_utils GITHUB_OWNER fetch repo log
  = (log ++ [utils; lib], inr (Stringified (JArr listed))).
Proof.
  intros utils lib Hlacks Hlib listed Hlisted.
  destruct (lacks_rejected _ _ log Hlacks) as (r & _ & Hr).
  apply githubRequest_answers in Hlib.
  unfold list_utils, try_catch, bind at 1. rewrite Hr. fold utils.
  unfold bind at 1. rewrite Hlib.
  unfold js_map, bind. simpl.
  assert (Hs : silent (mapM ts_item items)).
  { apply silent_mapM. intros item. unfold ts_item. silent. }
  rewrite (Hs _), Hlisted. by rewrite <- (assoc_L (++)).
Qed.

(** *** [rename_file] *)

Lemma rename_file_delete_rejected repo oldPath newPath message log
      fields content created r :
  let read := api_call (contents_url GITHUB_OWNER repo oldPath) no_options in
  let create := api_call (contents_url GITHUB_OWNER repo newPath)
                  (rename_create_options base64_encode message (base64_decode content)) in
  let delete := api_call (contents_url GITHUB_OWNER repo oldPath)
                  (rename_delete_options message (default JUndefined (assoc "sha" fields))) in
  answers fetch log read (JObj fields) ->
  assoc "content" fields = Some (JStr content) ->
  answers fetch (log ++ [read]) create created ->
  rejects fetch (log ++ [read; create]) delete r ->
  rename_file GITHUB_OWNER fetch base64_decode base64_of_value base64_encode
    repo oldPath newPath message log
  = (log ++ [read; create; delete], inl (github_error r)).
Proof.
  intros read create delete Hread Hcontent Hput Hdel.
  apply githubRequest_answers in Hread, Hput. apply githubRequest_rejects in Hdel.
  unfold rename_file, bind. rewrite Hread.
  simpl. rewrite Hcontent. simpl.
  fold read. rewrite Hput.
  rewrite <- (assoc_L (++) log [read] [_]). simpl.
  fold create. rewrite Hdel.
  by rewrite <- (assoc_L (++)).
Qed.

Lemma rename_file_read_rejected repo oldPath newPath message log r :
  let read := api_call (contents_url GITHUB_OWNER repo oldPath) no_options in
  rejects fetch log read r ->
  rename_file GITHUB_OWNER fetch base64_decode base64_of_value base64_encode
    repo oldPath newPath message log
  = (log ++ [read], inl (github_error r)).
Proof.
  intros read Hread. apply githubRequest_rejects in Hread.
  unfold rename_file, bind. by rewrite Hread.
Qed.

(** *** [update_file] and [delete_file] *)

(** The [try] block never throws and issues exactly the read. *)
Lemma update_file_sha_total repo path log :
  let read := api_call (contents_url GITHUB_OWNER repo path) no_options in
  exists sha, update_file_sha GITHUB_OWNER fetch repo path log = (log ++ [read], inr sha).
Proof.
  intros read. unfold update_file_sha, try_catch, bind.
  rewrite githubRequest_split. fold read.
  destruct (snd (githubRequest _ _ _ _)) as [e | existing]; [by eexists |].
  destruct existing; simpl; by eexists.
Qed.

Lemma update_file_sha_failed repo path log e :
  let read := api_call (contents_url GITHUB_OWNER repo path) no_options in
  snd (githubRequest fetch (contents_url GITHUB_OWNER repo path) no_options log) = inl e ->
  update_file_sha GITHUB_OWNER fetch repo path log = (log ++ [read], inr JUndefined).
Proof.
  intros read H. unfold update_file_sha, try_catch, bind.
  rewrite githubRequest_split. fold read. by rewrite H.
Qed.

Lemma update_file_sha_found repo path log fields :
  let read := api_call (contents_url GITHUB_OWNER repo path) no_options in
  answers fetch log read (JObj fields) ->
  update_file_sha GITHUB_OWNER fetch repo path log
  = (log ++ [read], inr (default JUndefined (assoc "sha" fields))).
Proof.
  intros read H. apply githubRequest_answers in H.
  unfold update_file_sha, try_catch, bind. by rewrite H.
Qed.

Lemma update_file_put_rejected repo path content message branch sha log r :
  let write := api_call (contents_url GITHUB_OWNER repo path)
                 (update_file_options base64_encode content message branch sha) in
  rejects fetch log write r ->
  update_file_put GITHUB_OWNER fetch base64_encode repo path content message branch sha log
  = (log ++ [write], inl (github_error r)).
Proof.
  intros write H. apply githubRequest_rejects in H.
  unfold update_file_put, bind. by rewrite H.
Qed.

Lemma update_file_put_answers repo path content message branch sha log result commit :
  let write := api_call (contents_url GITHUB_OWNER repo path)
                 (update_file_options base64_encode content message branch sha) in
  answers fetch log write (JObj result) ->
  assoc "commit" result = Some (JObj commit) ->
  update_file_put GITHUB_OWNER fetch base64_encode repo path content message branch sha log
  = (log ++ [write],
     inr (Stringified (JObj [("success", JBool true);
                             ("commit", default JUndefined (assoc "sha" commit))]))).
Proof.
  intros write Hans Hcommit. apply githubRequest_answers in Hans.
  unfold update_file_put. erewrite bind_ret by exact Hans.
  erewrite bind_ret by (cbn [prop ret]; by rewrite Hcommit).
  reflexivity.
Qed.

Lemma update_file_put_log repo path content message branch sha log :
  let write := api_call (contents_url GITHUB_OWNER repo path)
                 (update_file_options base64_encode content message branch sha) in
  fst (update_file_put GITHUB_OWNER fetch base64_encode repo path content message branch sha log)
  = log ++ [write].
Proof.
  intros write. unfold update_file_put, bind.
  rewrite githubRequest_split. fold write.
  destruct (snd (githubRequest _ _ _ _)) as [e | result]; [done |].
  destruct result as [| | | | | | fs]; simpl; try done.
  destruct (default JUndefined (assoc "commit" fs)); done.
Qed.

Lemma delete_file_rejected repo path message branch log fields r :
  let read := api_call (contents_url GITHUB_OWNER repo path) no_options in
  let delete := api_call (contents_url GITHUB_OWNER repo path)
                  (delete_file_options message branch (default JUndefined (assoc "sha" fields))) in
  answers fetch log read (JObj fields) ->
  rejects fetch (log ++ [read]) delete r ->
  delete_file GITHUB_OWNER fetch repo path message branch log
  = (log ++ [read; delete], inl (github_error r)).
Proof.
  intros read delete Hread Hdel.
  apply githubRequest_answers in Hread. apply githubRequest_rejects in Hdel.
  unfold delete_file, bind. rewrite Hread. simpl. fold read. rewrite Hdel.
  by rewrite <- (assoc_L (++)).
Qed.


End ServerFacts.

(** ** The claims about the capability handlers *)

Section Claims.

Variable GITHUB_OWNER : string.
Variable fetch : Log -> Call -> FetchResult.
Variable base64_decode : string -> string.
Variable base64_of_value : jsval -> JsError + string.
Variable base64_encode : string -> string.
Variable settle_order : list nat.

(** C3 (amended). When the read and the create succeed and the delete is
    refused with the response [r], [rename_file] has issued its three calls
    (so the new copy exists next to the original) and fails with the
    upstream error of the delete step, [GitHub API error: <status> - <body>].
    That is the failure a rename reports when its first read is refused with
    the same response and nothing was changed: no partial success is
    reported. *)
Theorem rename_file_partial_failure repo oldPath newPath message log
      fields content created r :
  let read := api_call (contents_url GITHUB_OWNER repo oldPath) no_options in
  let create := api_call (contents_url GITHUB_OWNER repo newPath)
                  (rename_create_options base64_encode message (base64_decode content)) in
  let delete := api_call (contents_url GITHUB_OWNER repo oldPath)
                  (rename_delete_options message (default JUndefined (assoc "sha" fields))) in
  answers fetch log read (JObj fields) ->
  assoc "content" fields = Some (JStr content) ->
  answers fetch (log ++ [read]) create created ->
  rejects fetch (log ++ [read; create]) delete r ->
  rename_file GITHUB_OWNER fetch base64_decode base64_of_value base64_encode
    repo oldPath newPath message log
  = (log ++ [read; create; delete], inl (github_error r))
  /\ forall fetch' log',
       rejects fetch' log' read r ->
       snd (rename_file GITHUB_OWNER fetch' base64_decode base64_of_value base64_encode
              repo oldPath newPath message log')
       = inl (github_error r).
Proof.
  intros read create delete Hread Hcontent Hput Hdel. split.
  - by eapply rename_file_delete_rejected.
  - intros fetch' log' Hrej.
    by erewrite rename_file_read_rejected.
Qed.

(** C4 (amended). For [update_file], [delete_file] and [rename_file]: when
    the upstream refuses the write that presents the version token, with
    whatever response (a stale token included), the handler fails with
    the plain [Error] whose message is
    [GitHub API error: <status> - <body>], which is what [githubRequest]
    raises for every non-success response; no handler classifies the
    refusal. *)
Theorem mutation_rejection_is_generic_failure repo path content message branch log r :
  let url := "https://api.github.com" +:+ contents_url GITHUB_OWNER repo path in
  let read := mkCall GET url JUndefined in
  let on_branch :=
    JStr (match branch with
          | Some b => if String.eqb b "" then "main" else b
          | None => "main"
          end) in
  let update sha :=
    mkCall PUT url
      (JObj [("message", JStr message); ("content", JStr (base64_encode content));
             ("branch", on_branch); ("sha", sha)]) in
  let failure :=
    mkError "Error"
      ("GitHub API error: " +:+ pretty (status r) +:+ " - " +:+ text r) in
  (forall fields,
      answers fetch log read (JObj fields) ->
      rejects fetch (log ++ [read])
        (update (default JUndefined (assoc "sha" fields))) r ->
      snd (update_file GITHUB_OWNER fetch base64_encode repo path content message branch log)
      = inl failure)
  /\ (forall e,
        snd (githubRequest fetch (contents_url GITHUB_OWNER repo path) no_options log)
        = inl e ->
        rejects fetch (log ++ [read]) (update JUndefined) r ->
        snd (update_file GITHUB_OWNER fetch base64_encode repo path content message
               branch log)
        = inl failure)
  /\ (forall fields,
        answers fetch log read (JObj fields) ->
        rejects fetch (log ++ [read])
          (mkCall DELETE url
             (JObj [("message", JStr message);
                    ("sha", default JUndefined (assoc "sha" fields));
                    ("branch", on_branch)])) r ->
        snd (delete_file GITHUB_OWNER fetch repo path message branch log)
        = inl failure)
  /\ (forall newPath fields old created,
        let create :=
          mkCall PUT ("https://api.github.com" +:+ contents_url GITHUB_OWNER repo newPath)
            (JObj [("message", JStr (message +:+ " (create)"));
                   ("content", JStr (base64_encode (base64_decode old)))]) in
        answers fetch log read (JObj fields) ->
        assoc "content" fields = Some (JStr old) ->
        answers fetch (log ++ [read]) create created ->
        rejects fetch (log ++ [read; create])
          (mkCall DELETE url
             (JObj [("message", JStr (message +:+ " (delete old)"));
                    ("sha", default JUndefined (assoc "sha" fields))])) r ->
        snd (rename_file GITHUB_OWNER fetch base64_decode base64_of_value base64_encode
               repo path newPath message log)
        = inl failure).
Proof.
  intros url read on_branch update failure. repeat split.
  - intros fields Hread Hrej. unfold update_file.
    erewrite bind_ret by exact (update_file_sha_found _ _ _ _ _ _ Hread).
    by erewrite update_file_put_rejected by exact Hrej.
  - intros e He Hrej. unfold update_file.
    erewrite bind_ret by exact (update_file_sha_failed _ _ _ _ _ _ He).
    by erewrite update_file_put_rejected by exact Hrej.
  - intros fields Hread Hdel.
    by erewrite delete_file_rejected by first [exact Hread | exact Hdel].
  - intros newPath fields old created create Hread Hc Hput Hdel.
    by erewrite rename_file_delete_rejected
      by first [exact Hread | exact Hc | exact Hput | exact Hdel].
Qed.

(** C5 (amended). [update_file] first reads the current version token of
    the target path, and that read is its first upstream call. When the
    read fails, with "not found" or with any other failure, the failure is
    swallowed and the handler goes on to write without a token: the [sha]
    of the PUT is [undefined], which [JSON.stringify] leaves out. When the
    read yields an object, the PUT presents that object's [sha]. In every
    case the PUT is the second and last call, and it alone decides the
    outcome: the upstream error when it is refused, success with the
    [sha] of the new commit when it is accepted. *)
Theorem update_file_read_then_write repo path content message branch log :
  let url := "https://api.github.com" +:+ contents_url GITHUB_OWNER repo path in
  let read := mkCall GET url JUndefined in
  let write sha :=
    mkCall PUT url
      (JObj [("message", JStr message); ("content", JStr (base64_encode content));
             ("branch", JStr (match branch with
                              | Some b => if String.eqb b "" then "main" else b
                              | None => "main"
                              end));
             ("sha", sha)]) in
  let out :=
    update_file GITHUB_OWNER fetch base64_encode repo path content message branch log in
  let written sha :=
    fst out = log ++ [read; write sha]
    /\ (forall r,
          rejects fetch (log ++ [read]) (write sha) r ->
          snd out = inl (mkError "Error"
                           ("GitHub API error: " +:+ pretty (status r) +:+ " - "
                            +:+ text r)))
    /\ (forall result commit,
          answers fetch (log ++ [read]) (write sha) (JObj result) ->
          assoc "commit" result = Some (JObj commit) ->
          snd out = inr (Stringified (JObj [
            ("success", JBool true);
            ("commit", default JUndefined (assoc "sha" commit))]))) in
  (exists sha, fst out = log ++ [read; write sha])
  /\ (forall e,
        snd (githubRequest fetch (contents_url GITHUB_OWNER repo path) no_options log)
        = inl e ->
        written JUndefined)
  /\ (forall fields,
        answers fetch log read (JObj fields) ->
        written (default JUndefined (assoc "sha" fields))).
Proof.
  intros url read write out written.
  assert (Hput : forall sha,
    update_file_sha GITHUB_OWNER fetch repo path log = (log ++ [read], inr sha) ->
    written sha).
  { intros sha Hsha. unfold written, out, update_file.
    erewrite bind_ret by exact Hsha. split; [| split].
    - rewrite update_file_put_log. by rewrite <- (assoc_L (++)).
    - intros r Hr. by erewrite update_file_put_rejected by exact Hr.
    - intros result commit Hans Hcommit.
      by erewrite update_file_put_answers by first [exact Hans | exact Hcommit]. }
  split; [| split].
  - destruct (update_file_sha_total GITHUB_OWNER fetch repo path log) as [sha Hsha].
    exists sha. by apply Hput.
  - intros e He. apply Hput. by eapply update_file_sha_failed.
  - intros fields Hread. apply Hput. by apply update_file_sha_found.
Qed.

(** C6 (amended). [get_project_stats] issues exactly four upstream calls,
    all of them before any outcome is looked at, so the four are issued
    whatever comes back, and waits for all four with [Promise.all]. Its
    Result is made of three of them: the fields of the repository, the
    languages and the number of contributors; the answer to the commits
    call is never read, so the Result is the same whatever that call
    returns. A failure of the contributors call is replaced by the empty
    list, so that the operation succeeds with a contributors count of 0
    when the other three succeed; a failure of the repository, languages
    or commits call makes the whole operation fail with the reason of one
    of those three. *)
Theorem get_project_stats_tolerates_contributors_only repo log :
  let url := repo_url GITHUB_OWNER repo in
  let c1 := api_call url no_options in
  let c2 := api_call (url +:+ "/languages") no_options in
  let c3 := api_call (url +:+ "/contributors") no_options in
  let c4 := api_call (url +:+ "/commits?per_page=1") no_options in
  let p1 := snd (githubRequest fetch url no_options log) in
  let p2 := snd (githubRequest fetch (url +:+ "/languages") no_options (log ++ [c1])) in
  let p3 := snd (githubRequest fetch (url +:+ "/contributors") no_options
                   (log ++ [c1; c2])) in
  let p4 := snd (githubRequest fetch (url +:+ "/commits?per_page=1") no_options
                   (log ++ [c1; c2; c3])) in
  let out := get_project_stats GITHUB_OWNER fetch settle_order repo log in
  let stats fields languages count :=
    let field k := default JUndefined (assoc k fields) in
    Stringified (JObj [
      ("size", field "size"); ("stars", field "stargazers_count");
      ("forks", field "forks_count"); ("openIssues", field "open_issues_count");
      ("languages", languages); ("contributorsCount", JNum count);
      ("defaultBranch", field "default_branch"); ("createdAt", field "created_at");
      ("lastPush", field "pushed_at")]) in
  fst out = log ++ [c1; c2; c3; c4]
  /\ (forall fields languages failure commits,
        p1 = inr (JObj fields) -> p2 = inr languages ->
        p3 = inl failure -> p4 = inr commits ->
        snd out = inr (stats fields languages 0))
  /\ (forall fields languages contributors commits,
        p1 = inr (JObj fields) -> p2 = inr languages ->
        p3 = inr (JArr contributors) -> p4 = inr commits ->
        snd out = inr (stats fields languages (Z.of_nat (length contributors))))
  /\ (forall e,
        p1 = inl e \/ p2 = inl e \/ p4 = inl e ->
        exists e', snd out = inl e' /\ (p1 = inl e' \/ p2 = inl e' \/ p4 = inl e')).
Proof.
  intros url c1 c2 c3 c4 p1 p2 p3 p4 out stats.
  assert (Hout : out =
    (let* all := Promise_all settle_order [p1; p2; catch_with (JArr []) p3; p4] in
     let repoData := nth 0 all JUndefined in
     let languages := nth 1 all JUndefined in
     let contributors := nth 2 all JUndefined in
     let* size := prop repoData "size" in
     let* stars := prop repoData "stargazers_count" in
     let* forks := prop repoData "forks_count" in
     let* openIssues := prop repoData "open_issues_count" in
     let* contributorsCount := prop contributors "length" in
     let* defaultBranch := prop repoData "default_branch" in
     let* createdAt := prop repoData "created_at" in
     let* lastPush := prop repoData "pushed_at" in
     ret (Stringified (JObj [
       ("size", size); ("stars", stars); ("forks", forks);
       ("openIssues", openIssues); ("languages", languages);
       ("contributorsCount", contributorsCount);
       ("defaultBranch", defaultBranch); ("createdAt", createdAt);
       ("lastPush", lastPush)]))) (log ++ [c1; c2; c3; c4])).
  { unfold out, get_project_stats. fold url.
    erewrite bind_ret by apply settled_githubRequest.
    erewrite bind_ret by apply settled_githubRequest.
    erewrite bind_ret by apply settled_githubRequest.
    erewrite bind_ret by apply settled_githubRequest.
    by rewrite <- !(assoc_L (++)). }
  rewrite Hout. clear Hout. repeat split.
  - apply silent_fst. silent.
  - intros fields languages failure commits -> -> -> ->.
    change [inr (JObj fields); inr languages; catch_with (JArr []) (inl failure); inr commits]
      with (map (inr (A := JsError)) [JObj fields; languages; JArr []; commits]).
    erewrite bind_ret by apply Promise_all_fulfilled. reflexivity.
  - intros fields languages contributors commits -> -> -> ->.
    change [inr (JObj fields); inr languages; catch_with (JArr []) (inr (JArr contributors));
            inr commits]
      with (map (inr (A := JsError)) [JObj fields; languages; JArr contributors; commits]).
    erewrite bind_ret by apply Promise_all_fulfilled. reflexivity.
  - intros e He.
    assert (exists i, [p1; p2; catch_with (JArr []) p3; p4] !! i = Some (inl e)) as [i Hi].
    { destruct He as [-> | [-> | ->]]; [by exists 0%nat | by exists 1%nat | by exists 3%nat]. }
    destruct (Promise_all_rejected settle_order _ i e (log ++ [c1; c2; c3; c4]) Hi)
      as (j & e' & Hj & Hall).
    exists e'. split; [by erewrite bind_throw |].
    destruct j as [| [| [| [| j]]]]; simpl in Hj; try done.
    + left. congruence.
    + right. left. congruence.
    + destruct p3; discriminate Hj.
    + right. right. congruence.
Qed.


(** C9. Whatever the upstream answers to a [list_issues] request, the
    items of the formatted Result are, in order, the reshaped items of the
    listing that carry no [pull_request] marker: every item that carries one
    is filtered out before reshaping. And the capability does return: when
    the listing is an array of issue-shaped items, the Result is that
    reshaped, filtered list. *)
Theorem list_issues_excludes_pull_requests repo state labels log :
  let true_issues issues :=
    List.filter (fun i => negb (carries_pull_request i)) issues in
  let reshaped i o :=
    carries_pull_request i = false /\ eval (format_issue i) = inr o in
  (forall out,
      snd (list_issues GITHUB_OWNER fetch repo state labels log) = inr out ->
      exists url issues formatted,
        eval (list_issues_url GITHUB_OWNER repo state labels) = inr url
        /\ snd (githubRequest fetch url no_options log) = inr (JArr issues)
        /\ out = Stringified (JArr formatted)
        /\ Forall2 reshaped (true_issues issues) formatted)
  /\ (forall url issues,
        eval (list_issues_url GITHUB_OWNER repo state labels) = inr url ->
        answers fetch log (api_call url no_options) (JArr issues) ->
        forallb issue_shaped issues = true ->
        exists formatted,
          list_issues GITHUB_OWNER fetch repo state labels log
          = (log ++ [api_call url no_options], inr (Stringified (JArr formatted)))
          /\ Forall2 reshaped (true_issues issues) formatted).
Proof.
  intros true_issues reshaped.
  assert (Hrun : forall url,
    eval (list_issues_url GITHUB_OWNER repo state labels) = inr url ->
    list_issues GITHUB_OWNER fetch repo state labels log
    = (log ++ [api_call url no_options],
       match snd (githubRequest fetch url no_options log) with
       | inl e => inl e
       | inr issues =>
           match eval (js_filter "issues" issues not_pull_request) with
           | inl e => inl e
           | inr kept =>
               match eval (js_map "issues.filter(...)" kept format_issue) with
               | inl e => inl e
               | inr formatted => inr (Stringified formatted)
               end
           end
       end)).
  { intros url Hurl. unfold list_issues.
    erewrite bind_ret; [| rewrite (silent_list_issues_url _ _ _ _ log); by rewrite Hurl].
    unfold bind at 1. rewrite githubRequest_split.
    destruct (snd (githubRequest _ _ _ _)) as [e | issues]; [done |].
    cbn [snd]. unfold bind at 1.
    rewrite (silent_js_filter _ issues _ silent_not_pull_request).
    destruct (eval (js_filter _ _ _)) as [e | kept]; [done |].
    unfold bind.
    rewrite (silent_js_map _ kept _ silent_format_issue).
    by destruct (eval (js_map _ _ _)). }
  split.
  - intros out Hout.
    destruct (eval (list_issues_url GITHUB_OWNER repo state labels)) as [e | url] eqn:Hurl.
    { unfold list_issues in Hout. erewrite bind_throw in Hout.
      - discriminate Hout.
      - rewrite (silent_list_issues_url _ _ _ _ log). by rewrite Hurl. }
    rewrite (Hrun url eq_refl) in Hout. cbn [snd] in Hout.
    destruct (snd (githubRequest _ _ _ _)) as [e | issues] eqn:Hreq; [done |].
    destruct (eval (js_filter _ _ _)) as [e | kept] eqn:Hkept; [done |].
    destruct (eval (js_map _ _ _)) as [e | formatted] eqn:Hfmt; [done |].
    injection Hout as <-.
    apply js_filter_not_pull_request in Hkept as (items & -> & ->).
    apply js_map_format_issue in Hfmt as (outs & -> & Hall).
    exists url, items, outs. repeat split; try done.
    by apply Forall2_filter_not_pull_request.
  - intros url issues Hurl Hans Hshape.
    rewrite (Hrun url Hurl).
    rewrite (githubRequest_answers _ _ _ _ _ Hans). cbn [snd].
    assert (Hshaped : Forall (fun i => issue_shaped i = true) issues).
    { apply Forall_forall. intros i Hi%list_elem_of_In.
      rewrite forallb_forall in Hshape. by apply Hshape. }
    destruct (filterM_total not_pull_request issues silent_not_pull_request) as [kept Hkept].
    { eapply Forall_impl; [exact Hshaped |]. apply not_pull_request_total. }
    pose proof (filterM_not_pull_request _ _ Hkept) as ->.
    destruct (mapM_total format_issue (true_issues issues) silent_format_issue)
      as [outs Houts].
    { apply Forall_forall. intros i Hi%list_elem_of_In%filter_In.
      apply format_issue_total. destruct Hi as [Hi _].
      rewrite Forall_forall in Hshaped. by apply Hshaped, list_elem_of_In. }
    exists outs. split.
    + unfold js_filter. rewrite eval_bind by silent. cbn [eval as_array ret snd].
      rewrite eval_bind by (apply silent_filterM, silent_not_pull_request).
      rewrite Hkept. cbn [eval ret snd].
      unfold js_map. rewrite eval_bind by silent. cbn [eval as_array ret snd].
      rewrite eval_bind by (apply silent_mapM, silent_format_issue).
      fold (true_issues issues). by rewrite Houts.
    + apply Forall2_filter_not_pull_request.
      apply mapM_Forall2; [apply silent_format_issue | done].
Qed.

(** C7 (amended). [generate_build_url] issues no upstream call, for every
    prompt and every list of images. For every prompt that is well-formed
    UTF-16 (no unpaired surrogate), and with no images supplied, the Result
    carries the URL made of the fixed prefix
    [https://lovable.dev/?autosubmit=true#prompt=] followed by the
    percent-encoded prompt, and nothing after it. A prompt with an unpaired
    surrogate has no percent-encoding: [encodeURIComponent] raises
    [URI malformed] and the capability fails. *)
Theorem generate_build_url_well_formed (prompt : utf16) (images : option (list utf16))
    (log : Log) :
  fst (generate_build_url prompt images log) = log
  /\ (well_formed prompt = true ->
      images = None \/ images = Some [] ->
      exists encoded,
        encodeURIComponent prompt = inr encoded
        /\ snd (generate_build_url prompt images log)
           = inr (Stringified (JObj [
               ("url", JStr (build_prefix +:+ encoded));
               ("promptLength", JNum (Z.of_nat (length prompt)))])))
  /\ (well_formed prompt = false ->
      snd (generate_build_url prompt images log) = inl uri_malformed).
Proof.
  split; [apply silent_fst, silent_generate_build_url |]. split.
  - intros Hwf Himg.
    destruct (encodeURIComponent_well_formed prompt Hwf) as [encoded Henc].
    exists encoded. split; [done |].
    unfold generate_build_url, bind, lift. rewrite Henc.
    by destruct Himg as [-> | ->].
  - intros Hbad. unfold generate_build_url, bind, lift.
    by rewrite (encodeURIComponent_ill_formed prompt Hbad).
Qed.

(** C10 at the path [__proto__]. [results] is a plain object, so
    [results["__proto__"] = "..."] reaches the inherited setter, which
    ignores a string: whatever the upstream answers, the Result has no entry
    for the requested path. *)
Theorem read_multiple_files_drops_proto repo log :
  read_multiple_files GITHUB_OWNER fetch base64_decode base64_of_value repo ["__proto__"] log
  = (log ++ [api_call (contents_url GITHUB_OWNER repo "__proto__") no_options],
     inr (Stringified (JObj []))).
Proof.
  unfold read_multiple_files. simpl.
  destruct (read_one_total GITHUB_OWNER fetch base64_decode base64_of_value repo "__proto__" log)
    as (entry & Hone & _).
  unfold bind. by rewrite Hone.
Qed.
End Claims.

(** ** Concrete runs *)

Import Scenarios.

(** C3 (as stated) fails. With the read and the create accepted and the
    delete refused, [rename_file] has issued all three calls and throws
    [GitHub API error: 409 - conflict]; a rename in which every call is
    refused, so that nothing was changed, issues one call and throws the
    very same error. The partial outcome is reported as a clean failure. *)
Lemma rename_file_partial_reported_as_failure :
  let partial :=
    rename_file "me" delete_refused codec no_buffer codec "demo" "a.txt" "b.txt" "mv" [] in
  let nothing :=
    rename_file "me" all_refused codec no_buffer codec "demo" "a.txt" "b.txt" "mv" [] in
  map call_method (fst partial) = [GET; PUT; DELETE]
  /\ map call_method (fst nothing) = [GET]
  /\ snd partial = inl (Error "GitHub API error: 409 - conflict")
  /\ snd partial = snd nothing.
Proof. vm_compute. repeat split. Qed.

Lemma rename_file_partial_failure_witness :
  rename_file "me" delete_refused codec no_buffer codec "demo" "a.txt" "b.txt" "mv" []
  = ([api_call (contents_url "me" "demo" "a.txt") no_options;
      api_call (contents_url "me" "demo" "b.txt") (rename_create_options codec "mv" "aGk=");
      api_call (contents_url "me" "demo" "a.txt") (rename_delete_options "mv" (JStr "abc"))],
     inl (github_error (refusal 409 "conflict")))
  /\ snd (rename_file "me" all_refused codec no_buffer codec "demo" "a.txt" "b.txt" "mv" [])
     = inl (github_error (refusal 409 "conflict")).
Proof.
  destruct (rename_file_partial_failure "me" delete_refused codec no_buffer codec
              "demo" "a.txt" "b.txt" "mv" []
              [("content", JStr "aGk="); ("sha", JStr "abc")] "aGk="
              (JObj [("content", JObj [("sha", JStr "def")])])
              (refusal 409 "conflict")) as [Hrun Hsame].
  - eexists. repeat split.
  - reflexivity.
  - eexists. repeat split.
  - split; reflexivity.
  - split; [exact Hrun |]. apply Hsame. split; reflexivity.
Defined.

(** C4 (as stated) fails. The read serves the token [v1], the file has
    moved to [v2], and the upstream refuses the write that presents [v1]
    with status 409. What [update_file] surfaces is the plain [Error] that
    [githubRequest] builds for any non-success response, not a condition of
    its own. *)
Lemma update_file_stale_token_is_generic_error :
  let out :=
    update_file "me" stale_token codec "demo" "src/App.tsx" "new" "edit" None [] in
  let url := "https://api.github.com/repos/me/demo/contents/src/App.tsx" in
  let stale := refusal 409 "src/App.tsx does not match v2" in
  fst out
  = [mkCall GET url JUndefined;
     mkCall PUT url
       (JObj [("message", JStr "edit"); ("content", JStr "new");
              ("branch", JStr "main"); ("sha", JStr "v1")])]
  /\ rejects stale_token [mkCall GET url JUndefined]
       (mkCall PUT url
          (JObj [("message", JStr "edit"); ("content", JStr "new");
                 ("branch", JStr "main"); ("sha", JStr "v1")]))
       stale
  /\ snd out
     = inl (mkError "Error" "GitHub API error: 409 - src/App.tsx does not match v2").
Proof. split; [reflexivity |]. split; [split; reflexivity | reflexivity]. Qed.

Lemma mutation_rejection_is_generic_failure_witness :
  snd (update_file "me" stale_token codec "demo" "src/App.tsx" "new" "edit" None [])
  = inl (mkError "Error" "GitHub API error: 409 - src/App.tsx does not match v2")
  /\ snd (update_file "me" all_refused codec "demo" "src/App.tsx" "new" "edit" None [])
     = inl (mkError "Error" "GitHub API error: 409 - conflict")
  /\ snd (delete_file "me" delete_refused "demo" "a.txt" "rm" None [])
     = inl (mkError "Error" "GitHub API error: 409 - conflict")
  /\ snd (rename_file "me" delete_refused codec no_buffer codec "demo" "a.txt" "b.txt" "mv" [])
     = inl (mkError "Error" "GitHub API error: 409 - conflict").
Proof.
  split; [| split; [| split]].
  - refine (proj1 (mutation_rejection_is_generic_failure "me" stale_token codec no_buffer codec
                     "demo" "src/App.tsx" "new" "edit" None []
                     (refusal 409 "src/App.tsx does not match v2"))
              [("sha", JStr "v1")] _ _).
    + eexists. repeat split.
    + split; reflexivity.
  - refine (proj1 (proj2 (mutation_rejection_is_generic_failure "me" all_refused
                            codec no_buffer codec "demo" "src/App.tsx" "new" "edit" None []
                            (refusal 409 "conflict")))
              (github_error (refusal 409 "conflict")) _ _).
    + reflexivity.
    + split; reflexivity.
  - refine (proj1 (proj2 (proj2 (mutation_rejection_is_generic_failure "me"
                                   delete_refused codec no_buffer codec "demo" "a.txt" "" "rm"
                                   None [] (refusal 409 "conflict"))))
              [("content", JStr "aGk="); ("sha", JStr "abc")] _ _).
    + eexists. repeat split.
    + split; reflexivity.
  - refine (proj2 (proj2 (proj2 (mutation_rejection_is_generic_failure "me"
                                   delete_refused codec no_buffer codec "demo" "a.txt" "" "mv"
                                   None [] (refusal 409 "conflict"))))
              "b.txt" [("content", JStr "aGk="); ("sha", JStr "abc")] "aGk="
              (JObj [("content", JObj [("sha", JStr "def")])]) _ _ _ _).
    + eexists. repeat split.
    + reflexivity.
    + eexists. repeat split.
    + split; reflexivity.
Defined.

(** C5 (as stated) fails. The read is refused with status 500, which is
    not "not found"; [update_file] swallows the failure, writes without a
    token and reports success. *)
Lemma update_file_swallows_server_error :
  let url := "https://api.github.com/repos/me/demo/contents/a.txt" in
  let read := mkCall GET url JUndefined in
  let write :=
    mkCall PUT url
      (JObj [("message", JStr "msg"); ("content", JStr "hi");
             ("branch", JStr "main"); ("sha", JUndefined)]) in
  rejects read_unavailable [] read (refusal 500 "Internal Server Error")
  /\ update_file "me" read_unavailable codec "demo" "a.txt" "hi" "msg" None []
     = ([read; write],
        inr (Stringified (JObj [("success", JBool true); ("commit", JStr "c1")]))).
Proof. split; [split |]; reflexivity. Qed.

Lemma update_file_read_then_write_witness :
  let url := "https://api.github.com/repos/me/demo/contents/a.txt" in
  let write sha :=
    mkCall PUT url
      (JObj [("message", JStr "msg"); ("content", JStr "hi");
             ("branch", JStr "main"); ("sha", sha)]) in
  update_file "me" read_unavailable codec "demo" "a.txt" "hi" "msg" None []
  = ([mkCall GET url JUndefined; write JUndefined],
     inr (Stringified (JObj [("success", JBool true); ("commit", JStr "c1")])))
  /\ update_file "me" stale_token codec "demo" "a.txt" "hi" "msg" None []
     = ([mkCall GET url JUndefined; write (JStr "v1")],
        inl (mkError "Error" "GitHub API error: 409 - src/App.tsx does not match v2")).
Proof.
  intros url write. split.
  - destruct (proj1 (proj2 (update_file_read_then_write "me" read_unavailable codec
                              "demo" "a.txt" "hi" "msg" None []))
                (github_error (refusal 500 "Internal Server Error")) eq_refl)
      as (Hlog & _ & Hok).
    apply injective_projections; [exact Hlog |].
    refine (Hok [("commit", JObj [("sha", JStr "c1")])] [("sha", JStr "c1")] _ eq_refl).
    eexists. repeat split.
  - destruct (proj2 (proj2 (update_file_read_then_write "me" stale_token codec
                              "demo" "a.txt" "hi" "msg" None []))
                [("sha", JStr "v1")]) as (Hlog & Hrefused & _).
    { eexists. repeat split. }
    apply injective_projections; [exact Hlog |].
    refine (Hrefused (refusal 409 "src/App.tsx does not match v2") _).
    split; reflexivity.
Defined.

Lemma session_added_once_and_gone_after_close_witness :
  let sid := sessionId a_session in
  let before := [SseOpen another_session true; PostMessage None] in
  let during := [PostMessage (Some sid); StreamClose another_session] in
  let later := [PostMessage (Some sid); StreamClose a_session;
                SseOpen another_session false] in
  let opened := sse_get a_session true (run before initial) in
  let closed := onclose a_session (run during opened) in
  lookup opened sid = Own a_session
  /\ times_added sid opened = 1%nat
  /\ times_added sid (run later closed) = 1%nat
  /\ lookup (run later closed) sid = NotFound
  /\ post_messages (fun _ => Completed) (run later closed) (Some sid)
     = mkOutcome None (Some (mkReply 404 "Session not found"))
  /\ lookup (run later (sse_get a_session false (run before initial))) sid = NotFound.
Proof.
  exact (session_added_once_and_gone_after_close (fun _ => Completed) a_session
           [SseOpen another_session true; PostMessage None]
           [PostMessage (Some (sessionId a_session)); StreamClose another_session]
           [PostMessage (Some (sessionId a_session)); StreamClose a_session;
            SseOpen another_session false]
           eq_refl eq_refl eq_refl eq_refl).
Defined.

(** C6 (as stated) fails. The answer to the commits call is awaited but
    never read: the Result has no part that comes from it, and it is the
    same for a repository with a commit and for one whose commit listing is
    empty. *)
Lemma get_project_stats_ignores_commits :
  let with_commit :=
    get_project_stats "me" (commits_answered (JArr [JObj [("sha", JStr "abc")]])) []
      "demo" [] in
  let without :=
    get_project_stats "me" (commits_answered (JArr [])) [] "demo" [] in
  fst with_commit
  = [api_call "/repos/me/demo" no_options;
     api_call "/repos/me/demo/languages" no_options;
     api_call "/repos/me/demo/contributors" no_options;
     api_call "/repos/me/demo/commits?per_page=1" no_options]
  /\ snd with_commit
     = inr (Stringified (JObj [
         ("size", JNum 3); ("stars", JNum 5); ("forks", JUndefined);
         ("openIssues", JUndefined);
         ("languages", JObj [("TypeScript", JNum 1000)]);
         ("contributorsCount", JNum 1); ("defaultBranch", JUndefined);
         ("createdAt", JUndefined); ("lastPush", JUndefined)]))
  /\ snd without = snd with_commit.
Proof. repeat split. Qed.

Lemma get_project_stats_tolerates_contributors_only_witness :
  fst (get_project_stats "me" contributors_forbidden [] "demo" [])
  = [api_call "/repos/me/demo" no_options;
     api_call "/repos/me/demo/languages" no_options;
     api_call "/repos/me/demo/contributors" no_options;
     api_call "/repos/me/demo/commits?per_page=1" no_options]
  /\ snd (get_project_stats "me" contributors_forbidden [] "demo" [])
     = inr (Stringified (JObj [
         ("size", JNum 3); ("stars", JNum 5); ("forks", JUndefined);
         ("openIssues", JUndefined);
         ("languages", JObj [("size", JNum 3); ("stargazers_count", JNum 5)]);
         ("contributorsCount", JNum 0); ("defaultBranch", JUndefined);
         ("createdAt", JUndefined); ("lastPush", JUndefined)]))
  /\ exists e, snd (get_project_stats "me" all_refused [2; 0; 1; 3]%nat "demo" []) = inl e.
Proof.
  pose proof (get_project_stats_tolerates_contributors_only
                "me" contributors_forbidden [] "demo" []) as (Hlog & Hok & _).
  split; [exact Hlog | split].
  - exact (Hok [("size", JNum 3); ("stargazers_count", JNum 5)]
               (JObj [("size", JNum 3); ("stargazers_count", JNum 5)])
               (github_error (refusal 403 "Forbidden"))
               (JObj [("size", JNum 3); ("stargazers_count", JNum 5)])
               eq_refl eq_refl eq_refl eq_refl).
  - pose proof (get_project_stats_tolerates_contributors_only
                  "me" all_refused [2; 0; 1; 3]%nat "demo" []) as (_ & _ & _ & Hfail).
    destruct (Hfail (github_error (refusal 409 "conflict")) (or_introl eq_refl))
      as (e & He & _).
    by exists e.
Defined.

(** C7 (as stated) fails: for the prompt made of the single code unit
    [0xD83D], the first half of an emoji, [encodeURIComponent] raises
    [URI malformed] and the handler returns no Result. *)
Lemma generate_build_url_lone_surrogate :
  generate_build_url [0xD83D] None [] = ([], inl (URIError "URI malformed")).
Proof. reflexivity. Qed.

Lemma generate_build_url_well_formed_witness :
  fst (generate_build_url (utf16_of "todo app") None []) = []
  /\ snd (generate_build_url (utf16_of "todo app") None [])
     = inr (Stringified (JObj [
         ("url", JStr "https://lovable.dev/?autosubmit=true#prompt=todo%20app");
         ("promptLength", JNum 8)])).
Proof.
  pose proof (generate_build_url_well_formed (utf16_of "todo app") None [])
    as (Hlog & Hok & _).
  destruct (Hok eq_refl (or_introl eq_refl)) as (encoded & Henc & Hout).
  injection Henc as <-.
  split; [exact Hlog | exact Hout].
Defined.



Lemma list_issues_excludes_pull_requests_witness :
  list_issues "me" issue_listing "demo" None None []
  = ([api_call "/repos/me/demo/issues?state=open" no_options],
     inr (Stringified (JArr [the_issue_formatted])))
  /\ exists url issues formatted,
       eval (list_issues_url "me" "demo" None None) = inr url
       /\ snd (githubRequest issue_listing url no_options []) = inr (JArr issues)
       /\ Stringified (JArr [the_issue_formatted]) = Stringified (JArr formatted)
       /\ Forall2 (fun i o => carries_pull_request i = false
                              /\ eval (format_issue i) = inr o)
            (List.filter (fun i => negb (carries_pull_request i)) issues) formatted.
Proof.
  pose proof (list_issues_excludes_pull_requests "me" issue_listing "demo" None None [])
    as (Hsound & Htotal).
  split.
  - assert (Hans : answers issue_listing []
                       (api_call "/repos/me/demo/issues?state=open" no_options)
                       (JArr [an_issue; a_pull_request])).
    { eexists. repeat split. }
    destruct (Htotal "/repos/me/demo/issues?state=open" [an_issue; a_pull_request]
                eq_refl Hans eq_refl) as (formatted & Hrun & Hall).
    rewrite Hrun. do 3 f_equal.
    inversion Hall as [| i o l l' [_ Ho] Hrest]; subst.
    inversion Hrest; subst. injection Ho as <-. reflexivity.
  - exact (Hsound (Stringified (JArr [the_issue_formatted])) eq_refl).
Defined.

(** ** More concrete runs *)

(** Of two requested paths, only the one that is not [__proto__] gets an
    entry. *)
Example read_multiple_files_two_paths :
  snd (read_multiple_files "me" empty_repo codec no_buffer "demo" ["__proto__"; "README.md"] [])
  = inr (Stringified (JObj [
      ("README.md", JStr "Error: GitHub API error: 404 - Not Found")])).
Proof. reflexivity. Qed.

(** A session identifier that is known is dispatched to its transport. *)
Example post_messages_known_session :
  post_messages (fun _ => Completed) (sse_get a_session true initial)
    (Some (sessionId a_session))
  = mkOutcome (Some a_session) None.
Proof. reflexivity. Qed.

Example post_messages_unknown_session :
  post_messages (fun _ => Completed) (sse_get a_session true initial)
    (Some "unknown-id")
  = mkOutcome None (Some (mkReply 404 "Session not found")).
Proof. reflexivity. Qed.

Example hook_name : remove_first ".tsx" (remove_first ".ts" "useAuth.ts") = "useAuth".
Proof. reflexivity. Qed.

(** ** [encodeURIComponent] on examples *)

Example encode_todo_app :
  encodeURIComponent (utf16_of "todo app") = inr "todo%20app".
Proof. reflexivity. Qed.

Example encode_e_acute : encodeURIComponent [0xE9] = inr "%C3%A9".
Proof. reflexivity. Qed.

Example encode_euro : encodeURIComponent [0x20AC] = inr "%E2%82%AC".
Proof. reflexivity. Qed.

Example encode_emoji : encodeURIComponent [0xD83D; 0xDE00] = inr "%F0%9F%98%80".
Proof. reflexivity. Qed.

Example encode_lone_surrogate : encodeURIComponent [0xD83D] = inl uri_malformed.
Proof. reflexivity. Qed.


(** * Further properties *)

(** ** The session table and its endpoints *)

Import Health.

#[local] Set Warnings "-clear-no-such-hyp".

Lemma step_untouched k e s :
  touches k e = false -> transports (step s e) !! k = transports s !! k.
Proof.
  destruct e as [t c | t | q]; simpl; intros H; [| | done].
  - apply String.eqb_neq in H. unfold sse_get. destruct c; simpl.
    + by rewrite lookup_insert_ne.
    + rewrite lookup_delete_ne by done. by rewrite lookup_insert_ne.
  - apply String.eqb_neq in H. unfold onclose, remove. simpl.
    by rewrite lookup_delete_ne.
Qed.

(** X1. Whatever streams are opened and closed under other identifiers,
    and whatever is posted, the entry of an identifier in the session table
    stays what it was: a session that is open stays open and keeps its
    transport, and the message endpoint answers a POST for it exactly as it
    did before. *)
Theorem other_streams_leave_a_session_alone
    (handlePostMessage : SSEServerTransport -> PostEffect)
    (k : string) (events : list Event) (s : Server) :
  undisturbed k events = true ->
  transports (run events s) !! k = transports s !! k
  /\ lookup (run events s) k = lookup s k
  /\ post_messages handlePostMessage (run events s) (Some k)
     = post_messages handlePostMessage s (Some k).
Proof.
  intros H.
  assert (Hsame : transports (run events s) !! k = transports s !! k).
  { revert s. induction events as [| e events IH]; intros s; [done |].
    simpl in H. apply andb_true_iff in H as [He H]. apply negb_true_iff in He.
    unfold run in *. simpl. rewrite (IH H). by apply step_untouched. }
  split; [done |].
  assert (Hlookup : lookup (run events s) k = lookup s k).
  { unfold lookup. by rewrite Hsame. }
  split; [done |]. unfold post_messages. by rewrite Hlookup.
Qed.

Lemma other_streams_leave_a_session_alone_witness :
  lookup (run [SseOpen another_session true; PostMessage None;
               StreamClose another_session]
              (sse_get a_session true initial))
         (sessionId a_session)
  = Own a_session.
Proof.
  pose proof (other_streams_leave_a_session_alone (fun _ => Completed)
                (sessionId a_session)
                [SseOpen another_session true; PostMessage None;
                 StreamClose another_session]
                (sse_get a_session true initial) eq_refl) as (_ & H & _).
  rewrite H. reflexivity.
Defined.

Lemma dom_open_all ts : forall s,
  dom (transports (run (open_all ts) s))
  = dom (transports s) ∪ list_to_set (map sessionId ts).
Proof.
  induction ts as [| t ts IH]; intros s; simpl.
  - set_solver.
  - unfold run in *. simpl. rewrite IH. unfold sse_get, assign. simpl.
    rewrite dom_insert_L. set_solver.
Qed.

Lemma dom_close_all ts : forall s,
  dom (transports (run (close_all ts) s))
  = dom (transports s) ∖ list_to_set (map sessionId ts).
Proof.
  induction ts as [| t ts IH]; intros s; simpl.
  - set_solver.
  - unfold run in *. simpl. rewrite IH. unfold onclose, remove. simpl.
    rewrite dom_delete_L. set_solver.
Qed.

(** X2. The reply of the health endpoint counts the open sessions: after
    any number of streams with pairwise distinct identifiers have been
    opened on a fresh server its [sessions] is that number, and after all
    of them have closed, in whatever order, it is 0; the other fields are
    fixed, [owner] apart. *)
Theorem health_counts_open_sessions (owner : string)
    (ts closing : list SSEServerTransport) :
  let reply (n : Z) :=
    JObj [("status", JStr "ok"); ("sessions", JNum n); ("version", JStr "2.0.0");
          ("owner", JStr owner); ("toolCount", JNum 50)] in
  NoDup (map sessionId ts) ->
  closing ≡ₚ ts ->
  health owner (run (open_all ts) initial) = reply (Z.of_nat (length ts))
  /\ health owner (run (open_all ts ++ close_all closing) initial) = reply 0.
Proof.
  intros reply Hnodup Hperm. unfold health, reply, sessions. split.
  - do 4 f_equal.
    rewrite <- size_dom, dom_open_all. simpl.
    rewrite dom_empty_L, (left_id_L ∅ (∪)).
    rewrite size_list_to_set by done. by rewrite length_map.
  - do 4 f_equal.
    assert (size (transports (run (open_all ts ++ close_all closing) initial)) = 0%nat)
      as ->; [| done].
    unfold run. rewrite foldl_app. fold (run (open_all ts) initial).
    fold (run (close_all closing) (run (open_all ts) initial)).
    rewrite <- size_dom, dom_close_all, dom_open_all. simpl.
    rewrite dom_empty_L, (left_id_L ∅ (∪)).
    assert (list_to_set (map sessionId ts) ∖ list_to_set (map sessionId closing)
            = (∅ : gset string)) as ->.
    { apply set_eq. intros k. rewrite elem_of_difference, !elem_of_list_to_set.
      rewrite (fmap_Permutation sessionId _ _ Hperm). set_solver. }
    apply size_empty.
Qed.

Lemma health_counts_open_sessions_witness :
  health "me" (run (open_all [a_session; another_session]) initial)
  = JObj [("status", JStr "ok"); ("sessions", JNum 2); ("version", JStr "2.0.0");
          ("owner", JStr "me"); ("toolCount", JNum 50)]
  /\ health "me" (run (open_all [a_session; another_session]
                       ++ close_all [another_session; a_session]) initial)
     = JObj [("status", JStr "ok"); ("sessions", JNum 0); ("version", JStr "2.0.0");
             ("owner", JStr "me"); ("toolCount", JNum 50)].
Proof.
  apply (health_counts_open_sessions "me" [a_session; another_session]
           [another_session; a_session]).
  - apply NoDup_cons. split; [| apply NoDup_singleton].
    intros H. apply list_elem_of_singleton in H. discriminate H.
  - apply Permutation_swap.
Defined.

(** X3. The message endpoint hands a POST only to the transport that the
    session table stores under the identifier of the request, which is then
    present and not empty; and when it hands the POST to no transport it
    writes the reply itself. *)
Theorem post_messages_dispatches_to_owner
    (handlePostMessage : SSEServerTransport -> PostEffect)
    (s : Server) (query : option string) :
  (forall t,
      dispatched (post_messages handlePostMessage s query) = Some t ->
      exists k, query = Some k /\ k <> "" /\ transports s !! k = Some t)
  /\ (dispatched (post_messages handlePostMessage s query) = None ->
      exists code msg,
        reply (post_messages handlePostMessage s query) = Some (mkReply code msg)
        /\ (code = 400 \/ code = 404 \/ code = 500)).
Proof.
  unfold post_messages, lookup. destruct query as [k |].
  - destruct (String.eqb k "") eqn:Ek.
    + split; [done |]. intros _. exists 400, "Missing sessionId". auto.
    + apply String.eqb_neq in Ek.
      destruct (transports s !! k) as [t' |] eqn:Ht.
      * split.
        -- intros t Ht'. exists k. repeat split; [done |].
           destruct (handlePostMessage t') as [| []]; simpl in Ht'; congruence.
        -- destruct (handlePostMessage t') as [| []]; done.
      * destruct (Object_prototype_has k); (split; [done |]); intros _.
        -- exists 500, "Internal server error". auto.
        -- exists 404, "Session not found". auto.
  - split; [done |]. intros _. exists 400, "Missing sessionId". auto.
Qed.

Lemma post_messages_dispatches_to_owner_witness :
  exists k,
    Some (sessionId a_session) = Some k /\ k <> ""
    /\ transports (sse_get a_session true initial) !! k = Some a_session.
Proof.
  exact (proj1 (post_messages_dispatches_to_owner (fun _ => Completed)
                  (sse_get a_session true initial) (Some (sessionId a_session)))
               a_session eq_refl).
Defined.

(** ** More computations that issue no upstream call *)

Lemma silent_str_substring receiver v n : silent (str_substring receiver v n).
Proof. by destruct v. Qed.

Lemma silent_js_slice receiver v n : silent (js_slice receiver v n).
Proof. by destruct v. Qed.

Lemma silent_optional_prop v k : silent (optional_prop v k).
Proof. by destruct v. Qed.

Lemma silent_iterate what v : silent (iterate what v).
Proof. by destruct v. Qed.

#[export] Hint Resolve silent_str_substring silent_js_slice silent_optional_prop
  silent_iterate : silent.

Lemma optional_prop_total v k : exists w, eval (optional_prop v k) = inr w.
Proof. destruct v; by eexists. Qed.

Lemma truthy_or_object v : truthy (or_value v (JObj [])) = true.
Proof. unfold or_value. by destruct (truthy v) eqn:E. Qed.

(** A computation followed by silent steps calls what the computation
    calls. *)
Lemma fst_bind_silent {A B} (m : M A) (k : A -> M B) log :
  (forall a, silent (k a)) -> fst (bind m k log) = fst (m log).
Proof.
  intros Hk. unfold bind. destruct (m log) as [log' [e | a]]; [done |].
  by rewrite silent_fst.
Qed.

(** ** Project detection *)

Lemma prop_field v k : nullish v = false -> k <> "length" -> eval (prop v k) = inr (field v k).
Proof.
  intros Hv Hk. apply String.eqb_neq in Hk.
  destruct v; try done; unfold eval; simpl; by rewrite Hk.
Qed.

Lemma prop_object fields k log :
  prop (JObj fields) k log = (log, inr (field (JObj fields) k)).
Proof. done. Qed.

Lemma mapM_names items :
  forallb (fun f => negb (nullish f)) items = true ->
  eval (mapM (fun f => prop f "name") items)
  = inr (map (fun f => field f "name") items).
Proof.
  induction items as [| f items IH]; [done |]. simpl.
  intros [Hf Hrest]%andb_true_iff. apply negb_true_iff in Hf.
  rewrite eval_bind by apply silent_prop. rewrite (prop_field f "name" Hf) by done.
  rewrite eval_bind by (apply silent_mapM; intros; apply silent_prop).
  by rewrite (IH Hrest).
Qed.

Lemma includes_name_has_file items name :
  includes_name (map (fun f => field f "name") items) name = has_file items name.
Proof.
  unfold includes_name, has_file. induction items as [| f items IH]; [done |].
  simpl. by rewrite IH.
Qed.

(** ** [list_projects] *)

Lemma skipped_object includePrivate fields log :
  skipped includePrivate (JObj fields) log
  = (log, inr (if includePrivate then false
               else truthy (field (JObj fields) "private"))).
Proof. by destruct includePrivate. Qed.

Lemma project_summary_object fields log :
  project_summary (JObj fields) log = (log, inr (summary_of (JObj fields))).
Proof. done. Qed.

(** ** [get_project] *)

Lemma substring_length n s : (String.length (String.substring 0 n s) <= n)%nat.
Proof.
  revert s. induction n as [| n IH]; intros [| c s]; simpl; try lia.
  specialize (IH s). lia.
Qed.

Lemma short_commit_shaped c :
  commit_shaped c = true -> eval (short_commit c) = inr (short_of c).
Proof.
  unfold commit_shaped. intros [[[Hc Hsha]%andb_true_iff Hcommit]%andb_true_iff Hauthor]%andb_true_iff.
  destruct c as [| | | | | | fields]; try done.
  unfold short_of. simpl in *.
  destruct (default JUndefined (assoc "sha" fields)) as [| | | | s | |] eqn:Es; try done.
  destruct (default JUndefined (assoc "commit" fields)) as [| | | | | | cf] eqn:Ec; try done.
  simpl in Hauthor.
  destruct (default JUndefined (assoc "author" cf)) as [| | | | | | af] eqn:Ea; try done.
  unfold short_commit, eval, bind. simpl. rewrite Es, Ec. simpl. rewrite Ea. reflexivity.
Qed.

Lemma mapM_short_commit commits :
  forallb commit_shaped commits = true ->
  eval (mapM short_commit commits) = inr (map short_of commits).
Proof.
  assert (Hs : forall c, silent (short_commit c)).
  { intros c. unfold short_commit. silent. }
  induction commits as [| c commits IH]; [done |]. simpl.
  intros [Hc Hrest]%andb_true_iff.
  rewrite eval_bind by done. rewrite (short_commit_shaped c Hc).
  rewrite eval_bind by by apply silent_mapM. by rewrite (IH Hrest).
Qed.

(** ** Commits *)

Lemma substring_prefix n s : String.prefix (String.substring 0 n s) s = true.
Proof.
  revert s. induction n as [| n IH]; intros [| c s]; simpl; try done.
  rewrite IH. by destruct (ascii_dec c c).
Qed.

Lemma commit_row_shaped c :
  commit_shaped c = true ->
  exists row full,
    eval (commit_row c) = inr row
    /\ field c "sha" = JStr full
    /\ field row "fullSha" = JStr full
    /\ field row "sha" = JStr (String.substring 0 7 full).
Proof.
  unfold commit_shaped.
  intros [[[Hc Hsha]%andb_true_iff Hcommit]%andb_true_iff Hauthor]%andb_true_iff.
  destruct c as [| | | | | | fields]; try done. simpl in *.
  destruct (default JUndefined (assoc "sha" fields)) as [| | | | s | |] eqn:Es; try done.
  destruct (default JUndefined (assoc "commit" fields)) as [| | | | | | cf] eqn:Ec; try done.
  simpl in Hauthor.
  destruct (default JUndefined (assoc "author" cf)) as [| | | | | | af] eqn:Ea; try done.
  eexists. exists s. split; [| split; [done |]].
  - unfold commit_row, eval, bind. simpl. rewrite Es, Ec. simpl. rewrite Ea. reflexivity.
  - by split.
Qed.

(** ** Strings and their encoding *)

Lemma append_cons ch (a b : string) : String ch a +:+ b = String ch (a +:+ b).
Proof. reflexivity. Qed.

Lemma append_assoc_string (a b c : string) : (a +:+ b) +:+ c = a +:+ b +:+ c.
Proof. induction a as [| ch a IH]; [done |]. by rewrite !append_cons, IH. Qed.

Lemma append_length (a b : string) :
  String.length (a +:+ b) = (String.length a + String.length b)%nat.
Proof.
  induction a as [| ch a IH]; [done |]. rewrite append_cons. simpl. by rewrite IH.
Qed.

Lemma utf16_of_append (a b : string) : utf16_of (a +:+ b) = utf16_of a ++ utf16_of b.
Proof.
  induction a as [| ch a IH]; [done |]. rewrite append_cons. simpl. by rewrite IH.
Qed.

(** Encoding goes through concatenation when both parts have an
    encoding. *)
Lemma encodeURIComponent_app_upto (n : nat) : forall (a b : utf16) ea eb,
  (length a <= n)%nat ->
  encodeURIComponent a = inr ea -> encodeURIComponent b = inr eb ->
  encodeURIComponent (a ++ b) = inr (ea +:+ eb).
Proof.
  induction n as [| n IH]; intros [| c rest] b ea eb Hlen Ha Hb;
    simpl in Hlen; try lia.
  - by injection Ha as <-.
  - by injection Ha as <-.
  - simpl in Ha |- *. destruct (unescaped c).
    + destruct (encodeURIComponent rest) as [| r] eqn:Hr; [done |].
      injection Ha as <-. by rewrite (IH rest b r eb ltac:(lia) Hr Hb).
    + destruct (is_trail c); [done |]. destruct (is_lead c).
      * destruct rest as [| d rest']; [done |]. simpl.
        destruct (is_trail d); [| done].
        destruct (encodeURIComponent rest') as [| r] eqn:Hr; [done |].
        injection Ha as <-.
        rewrite (IH rest' b r eb ltac:(simpl in Hlen; lia) Hr Hb).
        by rewrite append_assoc_string.
      * destruct (encodeURIComponent rest) as [| r] eqn:Hr; [done |].
        injection Ha as <-. rewrite (IH rest b r eb ltac:(lia) Hr Hb).
        by rewrite append_assoc_string.
Qed.

Lemma encodeURIComponent_app (a b : utf16) ea eb :
  encodeURIComponent a = inr ea -> encodeURIComponent b = inr eb ->
  encodeURIComponent (a ++ b) = inr (ea +:+ eb).
Proof. by apply (encodeURIComponent_app_upto (length a)). Qed.

(** A string of unreserved characters is its own encoding. *)
Lemma encodeURIComponent_unreserved (s : string) :
  forallb unescaped (utf16_of s) = true ->
  encodeURIComponent (utf16_of s) = inr s.
Proof.
  induction s as [| ch s IH]; [done |]. simpl. intros [Hc Hs]%andb_true_iff.
  rewrite Hc, (IH Hs). unfold char_of. by rewrite N2Z.id, Ascii.ascii_N_embedding.
Qed.

Lemma search_issue_item_shaped item :
  is_object item && is_object (field item "user") = true ->
  exists row,
    eval (search_issue_item item) = inr row
    /\ field row "type" = JStr (if truthy (field item "pull_request") then "pr" else "issue")
    /\ field row "number" = field item "number".
Proof.
  intros [Hi Hu]%andb_true_iff.
  destruct item as [| | | | | | fields]; try done. simpl in Hu.
  destruct (default JUndefined (assoc "user" fields)) as [| | | | | | user] eqn:Eu; try done.
  eexists. split; [unfold eval, search_issue_item, bind; simpl; by rewrite Eu |].
  split; [| done]. simpl.
  by destruct (truthy (default JUndefined (assoc "pull_request" fields))).
Qed.

(** ** Build URL *)

Lemma append_empty (a : string) : a +:+ "" = a.
Proof. induction a as [| ch a IH]; [done |]. by rewrite append_cons, IH. Qed.

Lemma image_params_total images :
  Forall (fun img => well_formed img = true) images ->
  exists encoded,
    Forall2 (fun img enc => encodeURIComponent img = inr enc) images encoded
    /\ eval (mapM image_param images) = inr (map (fun enc => "images=" +:+ enc) encoded).
Proof.
  assert (Hs : forall img, silent (image_param img)).
  { intros img. unfold image_param. silent. }
  induction 1 as [| img images Himg _ (encoded & Hall & Hrun)]; [by exists [] |].
  destruct (encodeURIComponent_well_formed img Himg) as [enc Henc].
  exists (enc :: encoded). split; [by constructor |].
  simpl. rewrite eval_bind by done.
  assert (eval (image_param img) = inr ("images=" +:+ enc)) as ->.
  { unfold eval, image_param, bind, lift. by rewrite Henc. }
  rewrite eval_bind by by apply silent_mapM. by rewrite Hrun.
Qed.

Lemma join_image_params enc encoded :
  "&" +:+ join "&" (map (fun e => "images=" +:+ e) (enc :: encoded))
  = foldr (fun e rest => "&images=" +:+ e +:+ rest) "" (enc :: encoded).
Proof.
  revert enc. induction encoded as [| enc' encoded IH]; intros enc.
  - simpl. by rewrite append_empty.
  - change (join "&" (map (fun e => "images=" +:+ e) (enc :: enc' :: encoded)))
      with (("images=" +:+ enc) +:+ "&"
            +:+ join "&" (map (fun e => "images=" +:+ e) (enc' :: encoded))).
    rewrite IH. cbn [foldr]. by rewrite append_assoc_string.
Qed.

(** X20. [generate_build_url] looks at the first ten images only: when the
    prompt and these are well formed, it returns the build prefix, the
    encoded prompt and one [&images=] parameter for each of them, in
    order, holding its encoding. What images follow the tenth, ill-formed
    ones included, changes nothing. *)
Theorem generate_build_url_uses_first_ten_images prompt images log :
  well_formed prompt = true ->
  Forall (fun img => well_formed img = true) (take 10 images) ->
  exists encodedPrompt encoded,
    encodeURIComponent prompt = inr encodedPrompt
    /\ Forall2 (fun img enc => encodeURIComponent img = inr enc) (take 10 images) encoded
    /\ generate_build_url prompt (Some images) log
       = (log, inr (Stringified (JObj [
            ("url", JStr (build_prefix +:+ encodedPrompt
                          +:+ foldr (fun enc rest => "&images=" +:+ enc +:+ rest) ""
                                encoded));
            ("promptLength", JNum (Z.of_nat (length prompt)))]))).
Proof.
  intros Hprompt Himages.
  destruct (encodeURIComponent_well_formed prompt Hprompt) as [encodedPrompt Henc].
  destruct (image_params_total _ Himages) as (encoded & Hall & Hrun).
  exists encodedPrompt, encoded. split; [done |]. split; [done |].
  rewrite (silent_generate_build_url prompt (Some images) log). f_equal.
  unfold generate_build_url. rewrite eval_bind by silent.
  unfold eval at 1, lift. cbn [snd]. rewrite Henc.
  destruct images as [| img more].
  - apply Forall2_nil_inv_l in Hall as ->. cbn [foldr].
    by rewrite append_empty.
  - rewrite eval_bind
      by (apply silent_bind; [apply silent_mapM; intros; unfold image_param; silent
                             | intros; silent]).
    rewrite eval_bind by (apply silent_mapM; intros; unfold image_param; silent).
    rewrite Hrun.
    destruct encoded as [| enc encoded]; [by apply Forall2_nil_inv_r in Hall |].
    unfold eval, ret. cbn [snd].
    by rewrite append_assoc_string, join_image_params.
Qed.

(** What an encoding is made of: [%] and unreserved characters. *)
Lemma hex_digit_unreserved d :
  0 <= d < 16 -> unescaped (Z.of_N (Ascii.N_of_ascii (hex_digit d))) = true.
Proof.
  intros Hd.
  assert (d ∈ [0; 1; 2; 3; 4; 5; 6; 7; 8; 9; 10; 11; 12; 13; 14; 15]) as Hin.
  { assert (exists n : nat, d = Z.of_nat n /\ (n < 16)%nat) as (n & -> & Hn).
    { exists (Z.to_nat d). lia. }
    do 16 (destruct n as [| n]; [set_solver |]). lia. }
  repeat (apply elem_of_cons in Hin as [-> | Hin]; [by vm_compute |]).
  by apply elem_of_nil in Hin.
Qed.

Lemma percent_chars o :
  0 <= o < 256 ->
  Forall (fun ch => ch = "%"%char \/ unescaped (Z.of_N (Ascii.N_of_ascii ch)) = true)
    (String.list_ascii_of_string (percent o)).
Proof.
  intros Ho. unfold percent. simpl.
  apply Forall_cons. split; [by left |].
  apply Forall_cons. split.
  { right. apply hex_digit_unreserved.
    split; [apply Z.div_pos; lia | apply Z.div_lt_upper_bound; lia]. }
  apply Forall_cons. split; [| constructor].
  right. apply hex_digit_unreserved. apply Z.mod_pos_bound. lia.
Qed.

Lemma utf8_octets_range cp :
  0 <= cp < 0x110000 -> Forall (fun o => 0 <= o < 256) (utf8_octets cp).
Proof.
  intros Hcp. unfold utf8_octets.
  repeat case_match; repeat constructor; try lia;
    try (pose proof (Z.mod_pos_bound cp 64 ltac:(lia)); lia);
    try (pose proof (Z.mod_pos_bound (cp / 64) 64 ltac:(lia)); lia);
    try (pose proof (Z.mod_pos_bound (cp / 4096) 64 ltac:(lia)); lia);
    try (assert (0 <= cp / 64 < 32)
           by (split; [apply Z.div_pos | apply Z.div_lt_upper_bound]; lia); lia);
    try (assert (0 <= cp / 4096 < 16)
           by (split; [apply Z.div_pos | apply Z.div_lt_upper_bound]; lia); lia);
    try (assert (0 <= cp / 262144 < 8)
           by (split; [apply Z.div_pos | apply Z.div_lt_upper_bound]; lia); lia).
Qed.

Lemma list_ascii_of_append (a b : string) :
  String.list_ascii_of_string (a +:+ b)
  = String.list_ascii_of_string a ++ String.list_ascii_of_string b.
Proof.
  induction a as [| ch a IH]; [done |]. rewrite append_cons. simpl. by rewrite IH.
Qed.

Lemma escape_chars cp :
  0 <= cp < 0x110000 ->
  Forall (fun ch => ch = "%"%char \/ unescaped (Z.of_N (Ascii.N_of_ascii ch)) = true)
    (String.list_ascii_of_string (escape cp))
  /\ String.length (escape cp) = (3 * length (utf8_octets cp))%nat.
Proof.
  intros Hcp. unfold escape.
  pose proof (utf8_octets_range cp Hcp) as Hrange.
  induction Hrange as [| o octets Ho _ [IHc IHl]]; [by split |].
  cbn [foldr]. split.
  - rewrite list_ascii_of_append. apply Forall_app. split; [by apply percent_chars | done].
  - rewrite append_length, IHl. simpl. lia.
Qed.

Lemma utf8_octets_length cp :
  (1 <= length (utf8_octets cp) <= 4)%nat
  /\ (cp < 0x10000 -> (length (utf8_octets cp) <= 3)%nat).
Proof. unfold utf8_octets. repeat case_match; simpl; lia. Qed.

Lemma surrogate_pair_range lead trail :
  is_lead lead = true -> is_trail trail = true ->
  0x10000 <= surrogate_pair lead trail < 0x110000.
Proof. unfold is_lead, is_trail, surrogate_pair. lia. Qed.

Lemma encodeURIComponent_chars_upto (n : nat) : forall (s : utf16) enc,
  (length s <= n)%nat ->
  Forall (fun c => 0 <= c < 65536) s ->
  encodeURIComponent s = inr enc ->
  Forall (fun ch => ch = "%"%char \/ unescaped (Z.of_N (Ascii.N_of_ascii ch)) = true)
    (String.list_ascii_of_string enc)
  /\ (length s <= String.length enc <= 9 * length s)%nat.
Proof.
  induction n as [| n IH]; intros [| c rest] enc Hlen Hrange Henc;
    simpl in Hlen; try lia.
  - injection Henc as <-. split; [constructor | simpl; lia].
  - injection Henc as <-. split; [constructor | simpl; lia].
  - apply Forall_cons in Hrange as [Hc Hrest]. simpl in Henc.
    destruct (unescaped c) eqn:Hu.
    + destruct (encodeURIComponent rest) as [| r] eqn:Hr; [done |].
      injection Henc as <-.
      destruct (IH rest r ltac:(lia) Hrest Hr) as [IHc IHl]. split.
      * simpl. constructor; [| done]. right. unfold char_of.
        assert (c < 128) as Hascii.
        { pose proof Hu as Hu'. unfold unescaped in Hu'.
          repeat (apply orb_true_iff in Hu' as [Hu' | Hu']); try lia.
          apply bool_decide_eq_true in Hu'. unfold uri_mark in Hu'.
          repeat (apply elem_of_cons in Hu' as [-> | Hu']; [lia |]).
          by apply elem_of_nil in Hu'. }
        rewrite Ascii.N_ascii_embedding by lia. by rewrite Z2N.id by lia.
      * simpl. lia.
    + destruct (is_trail c) eqn:Ht; [done |]. destruct (is_lead c) eqn:Hl.
      * destruct rest as [| d rest']; [done |].
        destruct (is_trail d) eqn:Hd; [| done].
        destruct (encodeURIComponent rest') as [| r] eqn:Hr; [done |].
        injection Henc as <-. apply Forall_cons in Hrest as [_ Hrest].
        destruct (IH rest' r ltac:(simpl in Hlen; lia) Hrest Hr) as [IHc IHl].
        pose proof (surrogate_pair_range c d Hl Hd) as Hpair.
        destruct (escape_chars (surrogate_pair c d) ltac:(lia)) as [Hec Hel].
        pose proof (utf8_octets_length (surrogate_pair c d)) as [Hol _].
        split.
        -- rewrite list_ascii_of_append. by apply Forall_app.
        -- rewrite append_length, Hel. simpl. lia.
      * destruct (encodeURIComponent rest) as [| r] eqn:Hr; [done |].
        injection Henc as <-.
        destruct (IH rest r ltac:(lia) Hrest Hr) as [IHc IHl].
        destruct (escape_chars c ltac:(lia)) as [Hec Hel].
        pose proof (utf8_octets_length c) as [Hol Hbmp]. specialize (Hbmp ltac:(lia)).
        split.
        -- rewrite list_ascii_of_append. by apply Forall_app.
        -- rewrite append_length, Hel. simpl. lia.
Qed.

(** X21. The prompt cannot reach outside its place in the URL that
    [generate_build_url] builds: for a well-formed prompt of UTF-16 code
    units, what follows the build prefix consists of [%] and unreserved
    characters only (no [&], [#], [=] or space), and it has at least as
    many characters as the prompt has code units, the reported
    [promptLength], and at most nine times as many. *)
Theorem generate_build_url_confines_the_prompt prompt log :
  Forall (fun c => 0 <= c < 65536) prompt ->
  well_formed prompt = true ->
  exists encoded,
    generate_build_url prompt None log
    = (log, inr (Stringified (JObj [
         ("url", JStr (build_prefix +:+ encoded));
         ("promptLength", JNum (Z.of_nat (length prompt)))])))
    /\ Forall (fun ch => ch = "%"%char \/ unescaped (Z.of_N (Ascii.N_of_ascii ch)) = true)
         (String.list_ascii_of_string encoded)
    /\ (length prompt <= String.length encoded <= 9 * length prompt)%nat.
Proof.
  intros Hrange Hwf.
  destruct (encodeURIComponent_well_formed prompt Hwf) as [encoded Henc].
  exists encoded. split.
  - unfold generate_build_url, bind, lift. by rewrite Henc.
  - by apply (encodeURIComponent_chars_upto (length prompt)).
Qed.

(** ** Folder listings *)

Lemma prefix_other_head a p c s :
  a <> c -> String.prefix (String a p) (String c s) = false.
Proof. intros Hne. simpl. by destruct (ascii_dec a c). Qed.

Lemma remove_first_cons pat c s :
  remove_first pat (String c s)
  = if String.prefix pat (String c s)
    then String.substring (String.length pat) (String.length (String c s)) (String c s)
    else String c (remove_first pat s).
Proof. reflexivity. Qed.

(** Removing a pattern that starts with a dot skips a dotless prefix. *)
Lemma remove_first_dotless p base tail :
  dotless base = true ->
  remove_first (String "." p) (base +:+ tail)
  = base +:+ remove_first (String "." p) tail.
Proof.
  unfold dotless. induction base as [| c base IH]; [done |].
  intros Hall. cbn [String.list_ascii_of_string forallb] in Hall.
  apply andb_true_iff in Hall as [Hc Hbase]. rewrite !append_cons.
  rewrite remove_first_cons, prefix_other_head, (IH Hbase); [done |].
  intros <-. by vm_compute in Hc.
Qed.

Lemma listing_rows (f : jsval -> M jsval) (R : jsval -> jsval -> Prop) items :
  (forall item, silent (f item)) ->
  Forall (fun item => exists row, eval (f item) = inr row /\ R item row) items ->
  exists rows,
    (forall receiver log, js_map receiver (JArr items) f log = (log, inr (JArr rows)))
    /\ Forall2 R items rows.
Proof.
  intros Hs Hall.
  assert (exists rows, eval (mapM f items) = inr rows /\ Forall2 R items rows)
    as (rows & Hrows & HR).
  { induction Hall as [| item items (row & Hrow & HR) _ (rows & Hrows & IH)].
    - by exists [].
    - exists (row :: rows). split; [| by constructor].
      simpl. rewrite eval_bind by done. rewrite Hrow.
      rewrite eval_bind by by apply silent_mapM. by rewrite Hrows. }
  exists rows. split; [| done].
  intros receiver log. unfold js_map. erewrite bind_ret by reflexivity.
  erewrite bind_ret by (rewrite (silent_mapM _ _ Hs); by rewrite Hrows).
  reflexivity.
Qed.

Lemma ts_item_named item :
  is_object item && is_string (field item "name") = true ->
  exists row,
    eval (ts_item item) = inr row
    /\ field row "path" = field item "path"
    /\ forall base, dotless base = true ->
         (field item "name" = JStr (base +:+ ".ts") -> field row "name" = JStr base)
         /\ (field item "name" = JStr (base +:+ ".tsx")
             -> field row "name" = JStr (base +:+ "x")).
Proof.
  intros [Hi Hn]%andb_true_iff.
  destruct item as [| | | | | | fields]; try done. simpl in Hn |- *.
  destruct (default JUndefined (assoc "name" fields)) as [| | | | name | |] eqn:En; try done.
  eexists. split; [unfold eval, ts_item, bind; simpl; by rewrite En |].
  split; [done |]. intros base Hbase. simpl. split; intros [= ->].
  - rewrite (remove_first_dotless _ base ".ts" Hbase).
    change (remove_first ".ts" ".ts") with "". rewrite append_empty.
    rewrite <- (append_empty base) at 1.
    rewrite (remove_first_dotless _ base "" Hbase). by rewrite append_empty.
  - rewrite (remove_first_dotless _ base ".tsx" Hbase).
    change (remove_first ".ts" ".tsx") with "x".
    by rewrite (remove_first_dotless _ base "x" Hbase).
Qed.

Lemma filterM_pure {A} (f : A -> M bool) (g : A -> bool) (l : list A) :
  (forall x, silent (f x)) ->
  Forall (fun x => eval (f x) = inr (g x)) l ->
  eval (filterM f l) = inr (List.filter g l).
Proof.
  intros Hs. induction 1 as [| x l Hx _ IH]; [done |].
  simpl. rewrite eval_bind by done. rewrite Hx.
  rewrite eval_bind by by apply silent_filterM. rewrite IH.
  by destruct (g x).
Qed.

(** ** Dependency analysis *)

Lemma prefix_append p q s :
  String.prefix (p +:+ q) s = true -> String.prefix p s = true.
Proof.
  revert s. induction p as [| a p IH]; intros s; [by destruct s |].
  rewrite append_cons. destruct s as [| c s]; [done |]. simpl.
  destruct (ascii_dec a c); [apply IH | done].
Qed.

Lemma str_includes_append p q s :
  str_includes (p +:+ q) s = true -> str_includes p s = true.
Proof.
  induction s as [| c s IH].
  - change (str_includes (p +:+ q) "") with (String.prefix (p +:+ q) "" || false).
    change (str_includes p "") with (String.prefix p "" || false).
    rewrite !orb_false_r. apply prefix_append.
  - change (str_includes (p +:+ q) (String c s))
      with (String.prefix (p +:+ q) (String c s) || str_includes (p +:+ q) s).
    change (str_includes p (String c s))
      with (String.prefix p (String c s) || str_includes p s).
    intros [H | H]%orb_true_iff; apply orb_true_iff.
    + left. by apply (prefix_append p q).
    + right. by apply IH.
Qed.

(** The categories a dependency can fall into: a name that includes
    [react-router] includes [react], which comes first. *)
Lemma first_match_categories dep :
  first_match dep categoryMap
  ∈ [Some "UI Framework"; Some "Styling"; Some "Data Fetching";
     Some "Backend/Database"; Some "Forms"; Some "Build Tools"; None].
Proof.
  unfold categoryMap. cbn [first_match].
  destruct (str_includes "react" dep) eqn:Hreact; [set_solver |].
  destruct (str_includes "react-dom" dep); [set_solver |].
  destruct (str_includes "@radix-ui" dep); [set_solver |].
  destruct (str_includes "lucide-react" dep); [set_solver |].
  destruct (str_includes "tailwindcss" dep); [set_solver |].
  destruct (str_includes "tailwind" dep); [set_solver |].
  destruct (str_includes "class-variance-authority" dep); [set_solver |].
  destruct (str_includes "clsx" dep); [set_solver |].
  destruct (str_includes "@tanstack/react-query" dep); [set_solver |].
  destruct (str_includes "axios" dep); [set_solver |].
  destruct (str_includes "@supabase" dep); [set_solver |].
  destruct (str_includes "supabase" dep); [set_solver |].
  destruct (str_includes "react-hook-form" dep); [set_solver |].
  destruct (str_includes "zod" dep); [set_solver |].
  destruct (str_includes "react-router" dep) eqn:Hrouter.
  { apply (str_includes_append "react" "-router") in Hrouter. congruence. }
  destruct (str_includes "vite" dep); [set_solver |].
  destruct (str_includes "typescript" dep); set_solver.
Qed.

Lemma push_to_keeps category dep k categories :
  k <> category ->
  Forall (fun entry => fst entry = k -> snd entry = []) categories ->
  Forall (fun entry => fst entry = k -> snd entry = []) (push_to category dep categories).
Proof.
  intros Hk. unfold push_to. induction 1 as [| [k' deps] categories He _ IH]; [constructor |].
  simpl. constructor; [| done].
  destruct (String.eqb_spec k' category) as [-> | _]; simpl in *; [done | done].
Qed.

Lemma categorize_keeps k deps :
  Some k ∉ [Some "UI Framework"; Some "Styling"; Some "Data Fetching";
            Some "Backend/Database"; Some "Forms"; Some "Build Tools"; Some "Other"] ->
  Forall (fun entry => fst entry = k -> snd entry = [])
    (foldl categorize categories_init deps).
Proof.
  intros Hk.
  assert (Hinit : Forall (fun entry : string * list string => fst entry = k -> snd entry = [])
                    categories_init) by (repeat constructor).
  revert Hinit. generalize categories_init.
  induction deps as [| dep deps IH]; intros categories Hc; [done |].
  simpl. apply IH. unfold categorize.
  pose proof (first_match_categories dep) as Hin.
  destruct (first_match dep categoryMap) as [category |].
  - apply push_to_keeps; [| done]. intros ->. set_solver.
  - apply push_to_keeps; [| done]. intros ->. set_solver.
Qed.

Lemma remove_empty_drops k categories :
  Forall (fun entry => fst entry = k -> snd entry = []) categories ->
  field (categories_value (remove_empty categories)) k = JUndefined.
Proof.
  intros Hall. unfold categories_value, field. rewrite assoc_absent; [done |].
  rewrite map_map. unfold remove_empty.
  induction Hall as [| [k' deps] categories He _ IH]; [set_solver |].
  simpl. destruct deps as [| dep deps]; simpl; [done |].
  apply not_elem_of_cons. split; [| done]. intros ->. by specialize (He eq_refl).
Qed.

Lemma push_to_absent category dep categories :
  category ∉ map fst categories -> push_to category dep categories = categories.
Proof.
  unfold push_to. induction categories as [| [k deps] categories IH]; [done |].
  simpl. intros Hk. rewrite IH by set_solver.
  destruct (String.eqb_spec k category) as [-> | _]; [set_solver | done].
Qed.

Lemma push_to_keys category dep categories :
  map fst (push_to category dep categories) = map fst categories.
Proof.
  unfold push_to. induction categories as [| [k deps] categories IH]; [done |].
  simpl. rewrite IH. by destruct (String.eqb k category).
Qed.

Lemma push_to_listed category dep categories :
  NoDup (map fst categories) ->
  category ∈ map fst categories ->
  concat (map snd (push_to category dep categories))
  ≡ₚ dep :: concat (map snd categories).
Proof.
  induction categories as [| [k deps] categories IH]; [set_solver |].
  simpl. intros [Hk Hnodup]%NoDup_cons Hin.
  destruct (String.eqb_spec k category) as [-> | Hne].
  - fold (push_to category dep categories). rewrite push_to_absent by done.
    simpl. rewrite <- (assoc_L (++)). simpl.
    by rewrite <- Permutation_middle.
  - fold (push_to category dep categories). simpl.
    rewrite IH by set_solver. by rewrite Permutation_middle.
Qed.

Lemma push_to_sorted (P : string -> string -> Prop) category dep categories :
  P category dep ->
  Forall (fun entry => Forall (P (fst entry)) (snd entry)) categories ->
  Forall (fun entry => Forall (P (fst entry)) (snd entry))
    (push_to category dep categories).
Proof.
  intros HP. unfold push_to.
  induction 1 as [| [k deps] categories He _ IH]; [constructor |].
  simpl. constructor; [| done].
  destruct (String.eqb_spec k category) as [-> | _]; simpl in *; [| done].
  apply Forall_app. split; [done | by constructor].
Qed.

(** What the loop of [analyze_dependencies] builds: every dependency is
    filed once, under the category of the first pattern it includes or
    under [Other]. *)
Lemma categorize_files_each_once deps :
  let categories := foldl categorize categories_init deps in
  concat (map snd categories) ≡ₚ deps
  /\ Forall (fun entry =>
               Forall (fun dep => default "Other" (first_match dep categoryMap) = fst entry)
                 (snd entry)) categories.
Proof.
  assert (Hgen : forall categories,
    map fst categories = map fst categories_init ->
    Forall (fun entry =>
              Forall (fun dep => default "Other" (first_match dep categoryMap) = fst entry)
                (snd entry)) categories ->
    concat (map snd (foldl categorize categories deps))
    ≡ₚ concat (map snd categories) ++ deps
    /\ Forall (fun entry =>
                 Forall (fun dep => default "Other" (first_match dep categoryMap) = fst entry)
                   (snd entry)) (foldl categorize categories deps)).
  { induction deps as [| dep deps IH]; intros categories Hkeys Hsorted.
    - simpl. by rewrite app_nil_r.
    - simpl.
      assert (Hcat : categorize categories dep
                     = push_to (default "Other" (first_match dep categoryMap)) dep categories).
      { unfold categorize. by destruct (first_match dep categoryMap). }
      assert (Hin : default "Other" (first_match dep categoryMap) ∈ map fst categories).
      { rewrite Hkeys. pose proof (first_match_categories dep) as Hm.
        destruct (first_match dep categoryMap) as [category |]; simpl.
        - repeat (apply elem_of_cons in Hm as [[= ->] | Hm]; [set_solver |]).
          apply elem_of_cons in Hm as [[=] | Hm]. by apply elem_of_nil in Hm.
        - set_solver. }
      destruct (IH (categorize categories dep)) as [Hperm Hall].
      + rewrite Hcat. by rewrite push_to_keys.
      + rewrite Hcat.
        by apply (push_to_sorted
                    (fun k d => default "Other" (first_match d categoryMap) = k)).
      + split; [| done]. rewrite Hperm, Hcat.
        rewrite push_to_listed; [| rewrite Hkeys; compute_done | done].
        rewrite <- app_comm_cons. by rewrite Permutation_middle. }
  intros categories. destruct (Hgen categories_init eq_refl) as [Hperm Hall].
  { repeat constructor. }
  subst categories. split; [| done]. by rewrite Hperm.
Qed.

Lemma remove_empty_listed categories :
  concat (map snd (remove_empty categories)) = concat (map snd categories).
Proof.
  unfold remove_empty. induction categories as [| [k deps] categories IH]; [done |].
  simpl. destruct deps as [| dep deps]; simpl; by rewrite IH.
Qed.

Lemma remove_empty_nonempty categories :
  Forall (fun entry => snd entry <> []) (remove_empty categories).
Proof.
  unfold remove_empty. induction categories as [| [k deps] categories IH]; [constructor |].
  simpl. destruct deps as [| dep deps]; simpl; [done | by constructor].
Qed.

(** ** The upstream helper *)

Section MoreFacts.

Variable GITHUB_OWNER : string.
Variable fetch : Log -> Call -> FetchResult.
Variable base64_decode : string -> string.
Variable base64_of_value : jsval -> JsError + string.
Variable base64_encode : string -> string.
Variable JSON_parse : string -> JsError + jsval.
Variable Number_toString : Z -> string.

#[local] Set Default Proof Using "Type".

#[local] Arguments githubRequest : simpl never.
#[local] Arguments api_call : simpl never.
#[local] Arguments contents_url : simpl never.
#[local] Arguments repo_url : simpl never.

(** X4. [githubRequest] issues exactly one call, whatever comes back. It
    returns a value exactly when the upstream answers that call with a
    status from 200 to 299 and a body that parses, and the value is the
    parsed body; a response with any other status makes it throw an [Error]
    whose message carries that status and the text of the body. *)
Theorem githubRequest_returns_exactly_on_success endpoint options log :
  let call := api_call endpoint options in
  let out := githubRequest fetch endpoint options log in
  fst out = log ++ [call]
  /\ (forall v, snd out = inr v <-> answers fetch log call v)
  /\ (forall r,
        rejects fetch log call r ->
        snd out = inl (Error ("GitHub API error: " +:+ pretty (status r) +:+ " - "
                              +:+ text r))).
Proof.
  intros call out. split; [apply githubRequest_log |]. split.
  - intros v. split.
    + unfold out, githubRequest. fold call.
      destruct (fetch log call) as [e | r] eqn:Hf; [done |].
      destruct (response_ok r) eqn:Hok; [| done].
      simpl. intros Hj. by exists r.
    + intros H. unfold out. by rewrite (githubRequest_answers _ _ _ _ _ H).
  - intros r H. unfold out. by rewrite (githubRequest_rejects _ _ _ _ _ H).
Qed.

Lemma isLovableProject_total owner repo log :
  exists b,
    isLovableProject fetch Number_toString owner repo log
    = (log ++ probe_calls Number_toString owner repo, inr b).
Proof.
  unfold isLovableProject, probe_calls, try_catch, bind, lift.
  destruct (to_string Number_toString repo) as [e | name].
  { exists false. by rewrite app_nil_r. }
  rewrite githubRequest_split.
  destruct (snd (githubRequest _ _ _ _)) as [e | contents]; [by exists false |].
  rewrite (silent_as_array "contents" "map" contents).
  destruct (eval (as_array "contents" "map" contents)) as [e | items]; [by exists false |].
  rewrite (silent_mapM (fun f => prop f "name") items (fun f => silent_prop f "name")).
  destruct (eval (mapM _ items)) as [e | files]; [by exists false |].
  by eexists.
Qed.

(** X5. [isLovableProject] never throws and probes the repository with at
    most one call. When the listing of the repository root arrives as an
    array of entries, the answer is [true] exactly when the listing names
    all three marker files, in whatever order and among whatever else; when
    the listing cannot be had, the answer is [false]. *)
Theorem isLovableProject_detects_markers owner repo log :
  (exists b,
      isLovableProject fetch Number_toString owner repo log
      = (log ++ probe_calls Number_toString owner repo, inr b))
  /\ (forall name items,
        to_string Number_toString repo = inr name ->
        answers fetch log
          (api_call ("/repos/" +:+ owner +:+ "/" +:+ name +:+ "/contents") no_options)
          (JArr items) ->
        forallb (fun f => negb (nullish f)) items = true ->
        snd (isLovableProject fetch Number_toString owner repo log)
        = inr (forallb (has_file items) marker_files))
  /\ (forall name e,
        to_string Number_toString repo = inr name ->
        snd (githubRequest fetch ("/repos/" +:+ owner +:+ "/" +:+ name +:+ "/contents")
               no_options log) = inl e ->
        snd (isLovableProject fetch Number_toString owner repo log) = inr false).
Proof.
  split; [apply isLovableProject_total |]. split.
  - intros name items Hname Hans Hitems.
    apply githubRequest_answers in Hans.
    unfold isLovableProject, try_catch, bind, lift. rewrite Hname, Hans.
    cbn [as_array ret].
    rewrite (silent_mapM (fun f => prop f "name") items (fun f => silent_prop f "name")).
    rewrite (mapM_names items Hitems). cbn [snd].
    rewrite !includes_name_has_file. simpl. by rewrite andb_true_r, andb_assoc.
  - intros name e Hname He.
    unfold isLovableProject, try_catch, bind, lift. rewrite Hname.
    rewrite githubRequest_split. by rewrite He.
Qed.

Lemma list_projects_loop_run includePrivate repos : forall acc log,
  forallb is_object repos = true ->
  exists listed,
    list_projects_loop GITHUB_OWNER fetch Number_toString includePrivate repos acc log
    = (log ++ flat_map (fun repo => probe_calls Number_toString GITHUB_OWNER
                                      (field repo "name"))
                (probed includePrivate repos),
       inr (acc ++ listed))
    /\ sublist listed (map summary_of (probed includePrivate repos)).
Proof.
  induction repos as [| repo repos IH]; intros acc log Hobj.
  - exists []. split; [| destruct includePrivate; simpl; constructor].
    destruct includePrivate; simpl; by rewrite !app_nil_r.
  - simpl in Hobj. apply andb_true_iff in Hobj as [Hrepo Hobj].
    destruct repo as [| | | | | | fields]; try done.
    cbn [list_projects_loop]. unfold bind at 1. rewrite skipped_object.
    destruct includePrivate.
    + unfold bind at 1. rewrite prop_object.
      destruct (isLovableProject_total GITHUB_OWNER (field (JObj fields) "name") log)
        as [lovable Hprobe].
      unfold bind at 1. rewrite Hprobe.
      destruct lovable.
      * unfold bind at 1. rewrite project_summary_object.
        destruct (IH (acc ++ [summary_of (JObj fields)])
                     (log ++ probe_calls Number_toString GITHUB_OWNER
                               (field (JObj fields) "name")) Hobj)
          as (listed & Hrun & Hsub).
        exists (summary_of (JObj fields) :: listed). split.
        -- rewrite Hrun. cbn [probed flat_map].
           by rewrite <- !(assoc_L (++)).
        -- cbn [probed map]. by apply sublist_skip.
      * destruct (IH acc (log ++ probe_calls Number_toString GITHUB_OWNER
                                   (field (JObj fields) "name")) Hobj)
          as (listed & Hrun & Hsub).
        exists listed. split.
        -- rewrite Hrun. cbn [probed flat_map]. by rewrite <- !(assoc_L (++)).
        -- cbn [probed map]. by apply sublist_cons.
    + cbn [probed List.filter].
      destruct (truthy (field (JObj fields) "private")) eqn:Hprivate; cbn [negb].
      * apply (IH acc log Hobj).
      * unfold bind at 1. rewrite prop_object.
        destruct (isLovableProject_total GITHUB_OWNER (field (JObj fields) "name") log)
          as [lovable Hprobe].
        unfold bind at 1. rewrite Hprobe.
        destruct lovable.
        -- unfold bind at 1. rewrite project_summary_object.
           destruct (IH (acc ++ [summary_of (JObj fields)])
                        (log ++ probe_calls Number_toString GITHUB_OWNER
                                  (field (JObj fields) "name")) Hobj)
             as (listed & Hrun & Hsub).
           exists (summary_of (JObj fields) :: listed). split.
           ++ rewrite Hrun. cbn [flat_map]. by rewrite <- !(assoc_L (++)).
           ++ cbn [map]. by apply sublist_skip.
        -- destruct (IH acc (log ++ probe_calls Number_toString GITHUB_OWNER
                                      (field (JObj fields) "name")) Hobj)
             as (listed & Hrun & Hsub).
           exists listed. split.
           ++ rewrite Hrun. cbn [flat_map]. by rewrite <- !(assoc_L (++)).
           ++ cbn [map]. by apply sublist_cons.
Qed.

(** X6. When the account's repositories arrive as an array of objects,
    [list_projects] does not fail, whatever the probes come back with: it
    issues the listing call and then one probe for each repository it does
    not skip, in the order of the listing, and the projects it lists are
    summaries of probed repositories, in that same order. *)
Theorem list_projects_lists_probed_repositories includePrivate log repos :
  let listing :=
    api_call ("/users/" +:+ GITHUB_OWNER +:+ "/repos?per_page=100&sort=updated")
      no_options in
  let candidates := probed (default true includePrivate) repos in
  answers fetch log listing (JArr repos) ->
  forallb is_object repos = true ->
  exists listed,
    list_projects GITHUB_OWNER fetch Number_toString includePrivate log
    = (log ++ listing
           :: flat_map (fun repo => probe_calls Number_toString GITHUB_OWNER
                                      (field repo "name")) candidates,
       inr (Stringified (JArr listed)))
    /\ sublist listed (map summary_of candidates).
Proof.
  intros listing candidates Hans Hobj. apply githubRequest_answers in Hans.
  destruct (list_projects_loop_run (default true includePrivate) repos []
              (log ++ [listing]) Hobj) as (listed & Hrun & Hsub).
  exists listed. split; [| done].
  unfold list_projects.
  erewrite bind_ret by exact Hans.
  erewrite bind_ret by reflexivity.
  erewrite bind_ret by exact Hrun.
  unfold ret. by rewrite <- (assoc_L (++)).
Qed.

(** X7. With [includePrivate] set to [false], a private repository is
    neither probed nor listed: every probe concerns a repository whose
    [private] flag is falsy, and so does every project of the Result. *)
Theorem list_projects_skips_private log repos :
  let listing :=
    api_call ("/users/" +:+ GITHUB_OWNER +:+ "/repos?per_page=100&sort=updated")
      no_options in
  let public := List.filter (fun repo => negb (truthy (field repo "private"))) repos in
  answers fetch log listing (JArr repos) ->
  forallb is_object repos = true ->
  exists listed,
    snd (list_projects GITHUB_OWNER fetch Number_toString (Some false) log)
    = inr (Stringified (JArr listed))
    /\ Forall (fun project => truthy (field project "private") = false) listed
    /\ fst (list_projects GITHUB_OWNER fetch Number_toString (Some false) log)
       = log ++ listing
             :: flat_map (fun repo => probe_calls Number_toString GITHUB_OWNER
                                        (field repo "name")) public.
Proof.
  intros listing public Hans Hobj. apply githubRequest_answers in Hans.
  destruct (list_projects_loop_run false repos [] (log ++ [listing]) Hobj)
    as (listed & Hrun & Hsub).
  assert (Hlist : list_projects GITHUB_OWNER fetch Number_toString (Some false) log
                  = (log ++ listing
                         :: flat_map (fun repo => probe_calls Number_toString GITHUB_OWNER
                                                    (field repo "name")) public,
                     inr (Stringified (JArr listed)))).
  { unfold list_projects.
    erewrite bind_ret by exact Hans.
    erewrite bind_ret by reflexivity.
    erewrite bind_ret by exact Hrun.
    unfold ret. by rewrite <- (assoc_L (++)). }
  exists listed. rewrite Hlist. split; [done |]. split; [| done].
  apply Forall_forall. intros project Hin.
  apply (sublist_subseteq _ _ Hsub) in Hin.
  apply list_elem_of_fmap in Hin as (repo & -> & Hrepo).
  apply list_elem_of_In, filter_In in Hrepo as [_ Hpublic].
  by apply negb_true_iff in Hpublic.
Qed.

Lemma read_package_json_total owner repo log :
  let read := api_call ("/repos/" +:+ owner +:+ "/" +:+ repo +:+ "/contents/package.json")
                no_options in
  exists packageJson,
    read_package_json fetch base64_decode base64_of_value JSON_parse owner repo log
    = (log ++ [read], inr packageJson)
    /\ (forall e,
          snd (githubRequest fetch
                 ("/repos/" +:+ owner +:+ "/" +:+ repo +:+ "/contents/package.json")
                 no_options log) = inl e ->
          packageJson = JNull).
Proof.
  intros read. unfold read_package_json, try_catch, bind.
  rewrite githubRequest_split. fold read.
  destruct (snd (githubRequest _ _ _ _)) as [e | pkgContent].
  { exists JNull. by split. }
  rewrite (silent_prop pkgContent "content").
  destruct (eval (prop pkgContent "content")) as [e | content].
  { exists JNull. by split. }
  assert (Hb : silent (Buffer_from_base64 base64_decode base64_of_value content))
    by apply silent_Buffer_from_base64.
  rewrite (Hb _).
  destruct (eval (Buffer_from_base64 base64_decode base64_of_value content))
    as [e | decoded].
  { exists JNull. by split. }
  unfold lift. destruct (JSON_parse decoded) as [e | parsed].
  - exists JNull. by split.
  - exists parsed. by split.
Qed.

(** X8. When the repository metadata arrives as an object and the commit
    listing as an array of commits, [get_project] returns after exactly
    three calls, whatever happens to the read of [package.json]: the Result
    shows at most five recent commits, the first ones of the listing, each
    with a [sha] cut to at most seven characters; its [dependencies] and
    [devDependencies] are never missing, and they are empty objects when
    [package.json] cannot be read. *)
Theorem get_project_tolerates_missing_manifest repo log rfields commits :
  let manifest :=
    "/repos/" +:+ GITHUB_OWNER +:+ "/" +:+ repo +:+ "/contents/package.json" in
  let c1 := api_call ("/repos/" +:+ GITHUB_OWNER +:+ "/" +:+ repo) no_options in
  let c2 := api_call ("/repos/" +:+ GITHUB_OWNER +:+ "/" +:+ repo
                      +:+ "/commits?per_page=5") no_options in
  let c3 := api_call manifest no_options in
  answers fetch log c1 (JObj rfields) ->
  answers fetch (log ++ [c1]) c2 (JArr commits) ->
  forallb commit_shaped commits = true ->
  exists info recent,
    get_project GITHUB_OWNER fetch base64_decode base64_of_value JSON_parse repo log
    = (log ++ [c1; c2; c3], inr (Stringified info))
    /\ field info "recentCommits" = JArr recent
    /\ recent = map short_of (take 5 commits)
    /\ (length recent <= 5)%nat
    /\ Forall (fun c => exists s, field c "sha" = JStr s /\ (String.length s <= 7)%nat)
         recent
    /\ truthy (field info "dependencies") = true
    /\ truthy (field info "devDependencies") = true
    /\ (forall e,
          snd (githubRequest fetch manifest no_options (log ++ [c1; c2])) = inl e ->
          field info "dependencies" = JObj []
          /\ field info "devDependencies" = JObj []).
Proof.
  intros manifest c1 c2 c3 H1 H2 Hshape.
  apply githubRequest_answers in H1, H2.
  destruct (read_package_json_total GITHUB_OWNER repo (log ++ [c1; c2]))
    as (packageJson & Hpkg & Hnull).
  destruct (optional_prop_total packageJson "dependencies") as [deps Hdeps].
  destruct (optional_prop_total packageJson "devDependencies") as [dev Hdev].
  assert (Htake : forallb commit_shaped (take 5 commits) = true).
  { rewrite forallb_forall in Hshape. apply forallb_forall. intros c Hc.
    apply Hshape. apply list_elem_of_In. apply list_elem_of_In in Hc.
    by eapply (sublist_subseteq _ _ (sublist_take commits 5)). }
  eexists. exists (map short_of (take 5 commits)). split.
  - unfold get_project, getLovableProjectInfo.
    rewrite <- !(assoc_L (++) log) in *.
    erewrite bind_ret; [| erewrite bind_ret by exact H1;
                          erewrite bind_ret by exact H2;
                          erewrite bind_ret by exact Hpkg;
                          do 10 (erewrite bind_ret by reflexivity);
                          erewrite bind_ret
                            by (rewrite (silent_optional_prop packageJson "dependencies");
                                by rewrite Hdeps);
                          erewrite bind_ret
                            by (rewrite (silent_optional_prop packageJson "devDependencies");
                                by rewrite Hdev);
                          erewrite bind_ret by reflexivity;
                          unfold js_map;
                          erewrite bind_ret;
                            [| erewrite bind_ret by reflexivity;
                               erewrite bind_ret
                                 by (rewrite (silent_mapM short_commit);
                                     [by rewrite (mapM_short_commit _ Htake)
                                     | intros c; unfold short_commit; silent]);
                               reflexivity];
                          reflexivity].
    reflexivity.
  - split; [reflexivity |]. split; [reflexivity |].
    split; [rewrite length_map, length_take; lia |].
    split.
    { apply Forall_forall. intros c Hc.
      apply list_elem_of_fmap in Hc as (c0 & -> & Hc0).
      rewrite forallb_forall in Htake.
      specialize (Htake c0 (proj1 (list_elem_of_In _ _) Hc0)).
      unfold commit_shaped in Htake.
      apply andb_true_iff in Htake as [[[_ Hs]%andb_true_iff _]%andb_true_iff _].
      destruct (field c0 "sha") as [| | | | s | |] eqn:Es; try done.
      exists (String.substring 0 7 s). split.
      - unfold short_of, field. simpl. unfold field in Es. by rewrite Es.
      - apply substring_length. }
    split; [apply truthy_or_object |]. split; [apply truthy_or_object |].
    intros e He. pose proof (Hnull e He) as ->.
    simpl in Hdeps, Hdev. injection Hdeps as <-. injection Hdev as <-. by split.
Qed.

(** ** File operations *)

Lemma copy_file_put_log repo destPath message content log :
  fst (copy_file_put GITHUB_OWNER fetch base64_encode repo destPath message content log)
  = log ++ [api_call (contents_url GITHUB_OWNER repo destPath)
              (copy_file_options base64_encode message content)].
Proof.
  unfold copy_file_put, bind at 1. rewrite githubRequest_split.
  destruct (snd (githubRequest _ _ _ _)) as [e | result]; [done |].
  apply silent_fst. silent.
Qed.

(** X9. [copy_file] reads the source and then writes the destination, and
    does nothing else: when the read fails in any way, the failure is the
    outcome and nothing is written; otherwise the only other call is one
    PUT at the destination path, which carries the re-encoded content of
    the source and no version token. No call deletes anything. *)
Theorem copy_file_reads_then_writes repo sourcePath destPath message log :
  let read := api_call (contents_url GITHUB_OWNER repo sourcePath) no_options in
  let write content :=
    api_call (contents_url GITHUB_OWNER repo destPath)
      (mkInit PUT (JObj [("message", JStr message);
                         ("content", JStr (base64_encode (base64_decode content)))])) in
  let out := copy_file GITHUB_OWNER fetch base64_decode base64_of_value base64_encode
               repo sourcePath destPath message log in
  (fst out = log ++ [read] \/ exists content, fst out = log ++ [read; write content])
  /\ (forall e,
        snd (githubRequest fetch (contents_url GITHUB_OWNER repo sourcePath)
               no_options log) = inl e ->
        out = (log ++ [read], inl e))
  /\ (forall fields content,
        answers fetch log read (JObj fields) ->
        assoc "content" fields = Some (JStr content) ->
        fst out = log ++ [read; write content]).
Proof.
  intros read write out.
  pose proof (githubRequest_split fetch (contents_url GITHUB_OWNER repo sourcePath)
                no_options log) as Hreq. fold read in Hreq.
  split; [| split].
  - unfold out, copy_file.
    destruct (snd (githubRequest _ _ _ _)) as [e | file].
    { left. by erewrite bind_throw by exact Hreq. }
    erewrite bind_ret by exact Hreq.
    pose proof (silent_prop file "content" (log ++ [read])) as Hprop.
    destruct (eval (prop file "content")) as [e | file_content].
    { left. by erewrite bind_throw by exact Hprop. }
    erewrite bind_ret by exact Hprop.
    pose proof (silent_Buffer_from_base64 base64_decode base64_of_value file_content
                  (log ++ [read])) as Hbuf.
    destruct (eval (Buffer_from_base64 _ _ file_content)) as [e | decoded] eqn:Hd.
    { left. by erewrite bind_throw by exact Hbuf. }
    erewrite bind_ret by exact Hbuf.
    destruct (Buffer_from_base64_decoded _ _ _ _ Hd) as [content ->].
    right. exists content.
    rewrite copy_file_put_log. by rewrite <- (assoc_L (++)).
  - intros e He. unfold out, copy_file. rewrite He in Hreq.
    by erewrite bind_throw by exact Hreq.
  - intros fields content Hans Hcontent. apply githubRequest_answers in Hans.
    unfold out, copy_file. erewrite bind_ret by exact Hans.
    erewrite bind_ret by (cbn [prop ret]; by rewrite Hcontent).
    erewrite bind_ret by reflexivity.
    rewrite copy_file_put_log. by rewrite <- (assoc_L (++)).
Qed.

Lemma githubRequest_returned endpoint options log v :
  snd (githubRequest fetch endpoint options log) = inr v ->
  answers fetch log (api_call endpoint options) v.
Proof.
  unfold githubRequest.
  destruct (fetch log (api_call endpoint options)) as [e | r] eqn:Hf; [done |].
  destruct (response_ok r) eqn:Hok; [| done].
  simpl. intros Hj. by exists r.
Qed.

(** X10. [rename_file] never deletes the original unless the copy was
    created: when the read fails nothing else is called; when the create
    fails the failure is the outcome and no DELETE is issued; and whenever
    a DELETE is among the calls of a run, the upstream had answered the
    create of that run with success. *)
Theorem rename_file_deletes_only_after_create repo oldPath newPath message log :
  let read := api_call (contents_url GITHUB_OWNER repo oldPath) no_options in
  let create content :=
    api_call (contents_url GITHUB_OWNER repo newPath)
      (rename_create_options base64_encode message (base64_decode content)) in
  let out := rename_file GITHUB_OWNER fetch base64_decode base64_of_value base64_encode
               repo oldPath newPath message log in
  (forall e,
      snd (githubRequest fetch (contents_url GITHUB_OWNER repo oldPath) no_options log)
      = inl e ->
      out = (log ++ [read], inl e))
  /\ (forall fields content e,
        answers fetch log read (JObj fields) ->
        assoc "content" fields = Some (JStr content) ->
        snd (githubRequest fetch (contents_url GITHUB_OWNER repo newPath)
               (rename_create_options base64_encode message (base64_decode content))
               (log ++ [read])) = inl e ->
        out = (log ++ [read; create content], inl e))
  /\ (forall c,
        c ∈ drop (length log) (fst out) ->
        call_method c = DELETE ->
        exists content created,
          answers fetch (log ++ [read]) (create content) created).
Proof.
  intros read create out.
  pose proof (githubRequest_split fetch (contents_url GITHUB_OWNER repo oldPath)
                no_options log) as Hreq. fold read in Hreq.
  split; [| split].
  - intros e He. unfold out, rename_file. rewrite He in Hreq.
    by erewrite bind_throw by exact Hreq.
  - intros fields content e Hans Hcontent He. apply githubRequest_answers in Hans.
    unfold out, rename_file. erewrite bind_ret by exact Hans.
    erewrite bind_ret by (cbn [prop ret]; by rewrite Hcontent).
    erewrite bind_ret by reflexivity.
    pose proof (githubRequest_split fetch (contents_url GITHUB_OWNER repo newPath)
                  (rename_create_options base64_encode message (base64_decode content))
                  (log ++ [read])) as Hput.
    rewrite He in Hput. erewrite bind_throw by exact Hput.
    by rewrite <- (assoc_L (++)).
  - intros c. unfold out, rename_file.
    destruct (snd (githubRequest _ _ _ _)) as [e | file].
    { erewrite bind_throw by exact Hreq. cbn [fst]. rewrite drop_app_length.
      intros ->%list_elem_of_singleton. discriminate. }
    erewrite bind_ret by exact Hreq.
    pose proof (silent_prop file "content" (log ++ [read])) as Hprop.
    destruct (eval (prop file "content")) as [e | file_content].
    { erewrite bind_throw by exact Hprop. cbn [fst]. rewrite drop_app_length.
      intros ->%list_elem_of_singleton. discriminate. }
    erewrite bind_ret by exact Hprop.
    pose proof (silent_Buffer_from_base64 base64_decode base64_of_value file_content
                  (log ++ [read])) as Hbuf.
    destruct (eval (Buffer_from_base64 _ _ file_content)) as [e | decoded] eqn:Hd.
    { erewrite bind_throw by exact Hbuf. cbn [fst]. rewrite drop_app_length.
      intros ->%list_elem_of_singleton. discriminate. }
    erewrite bind_ret by exact Hbuf.
    destruct (Buffer_from_base64_decoded _ _ _ _ Hd) as [content ->].
    pose proof (githubRequest_split fetch (contents_url GITHUB_OWNER repo newPath)
                  (rename_create_options base64_encode message (base64_decode content))
                  (log ++ [read])) as Hput.
    destruct (snd (githubRequest fetch (contents_url GITHUB_OWNER repo newPath) _ _))
      as [e | created] eqn:Hcreated.
    { erewrite bind_throw by exact Hput. cbn [fst].
      rewrite <- (assoc_L (++)), drop_app_length.
      intros [-> | ->%list_elem_of_singleton]%elem_of_cons; discriminate. }
    intros _ _. exists content, created. by apply githubRequest_returned.
Qed.

(** X11. [delete_file] deletes only what it has just read: when the read
    fails, the failure is the outcome and no DELETE is issued; when the read
    yields an object, the DELETE goes to the same path and presents that
    object's [sha], on the given branch or on [main] when none (or an empty
    one) is given. *)
Theorem delete_file_presents_the_sha_it_read repo path message branch log :
  let read := api_call (contents_url GITHUB_OWNER repo path) no_options in
  let out := delete_file GITHUB_OWNER fetch repo path message branch log in
  (forall e,
      snd (githubRequest fetch (contents_url GITHUB_OWNER repo path) no_options log)
      = inl e ->
      out = (log ++ [read], inl e))
  /\ (forall fields,
        answers fetch log read (JObj fields) ->
        fst out
        = log ++ [read;
                  mkCall DELETE
                    ("https://api.github.com" +:+ contents_url GITHUB_OWNER repo path)
                    (JObj [("message", JStr message);
                           ("sha", default JUndefined (assoc "sha" fields));
                           ("branch", JStr (match branch with
                                            | Some b => if String.eqb b "" then "main" else b
                                            | None => "main"
                                            end))])]).
Proof.
  intros read out. split.
  - intros e He. unfold out, delete_file.
    erewrite bind_throw; [done |]. rewrite githubRequest_split. by rewrite He.
  - intros fields Hans. apply githubRequest_answers in Hans.
    unfold out, delete_file. erewrite bind_ret by exact Hans.
    erewrite bind_ret by reflexivity.
    unfold bind. rewrite githubRequest_split.
    destruct (snd (githubRequest _ _ _ _)); by rewrite <- (assoc_L (++)).
Qed.

(** X12. [read_multiple_files] never fails and issues exactly one read
    for each requested path, in the order of the request, repeated paths
    included. The Result is an object with one entry for each distinct
    requested path other than [__proto__], and no other; the entries come
    in the order in which JavaScript lists own keys: array indices first,
    ascending, then the other paths in the order in which they were first
    requested. The entry of a path is what its last read gave: the decoded
    content when that read yields a string [content], and
    [Error: GitHub API error: <status> - <body>] when it is refused. *)
Theorem read_multiple_files_reads_each_path repo paths log :
  exists entries,
    read_multiple_files GITHUB_OWNER fetch base64_decode base64_of_value repo paths log
    = (log ++ map (fun p => api_call (contents_url GITHUB_OWNER repo p) no_options) paths,
       inr (Stringified (JObj entries)))
    /\ map fst entries
       = property_order
           (first_occurrences
              (List.filter (fun p => negb (String.eqb p "__proto__")) paths))
    /\ (forall i p,
          paths !! i = Some p -> p <> "__proto__" -> p ∉ drop (S i) paths ->
          let before :=
            log ++ map (fun p => api_call (contents_url GITHUB_OWNER repo p) no_options)
                     (take i paths) in
          let read := api_call (contents_url GITHUB_OWNER repo p) no_options in
          (forall r,
              rejects fetch before read r ->
              assoc p entries
              = Some (JStr ("Error: GitHub API error: " +:+ pretty (status r)
                            +:+ " - " +:+ text r)))
          /\ (forall fields content,
                answers fetch before read (JObj fields) ->
                assoc "content" fields = Some (JStr content) ->
                assoc p entries = Some (JStr (base64_decode content)))).
Proof.
  destruct (read_files_loop_entries GITHUB_OWNER fetch base64_decode base64_of_value repo paths [] log)
    as (assigned & Hloop & Hkeys & Hvalues).
  exists (own_properties assigned). split; [| split].
  - unfold read_multiple_files. by erewrite bind_ret by exact Hloop.
  - by rewrite own_properties_keys, Hkeys.
  - intros i p Hp Hproto Hlast before read.
    destruct (Hvalues i p Hp Hproto Hlast) as (entry & Hentry & Hassoc).
    fold before in Hentry. rewrite own_properties_assoc, Hassoc. split.
    + intros r Hr. rewrite (read_one_rejects _ _ _ _ _ _ _ _ Hr) in Hentry.
      by injection Hentry as <-.
    + intros fields content Hans Hcontent.
      rewrite (read_one_answers _ _ _ _ _ _ _ _ _ Hans Hcontent) in Hentry.
      by injection Hentry as <-.
Qed.

(** ** Version control *)

(** X13. When the commit listing arrives as an array of commits,
    [get_commits] returns one row for each commit of the listing, in order;
    the [sha] of a row is the beginning of its [fullSha], at most seven
    characters of it. *)
Theorem get_commits_abbreviates_sha repo branch limit log commits :
  let call := api_call (get_commits_url GITHUB_OWNER repo branch limit) no_options in
  answers fetch log call (JArr commits) ->
  forallb commit_shaped commits = true ->
  exists rows,
    get_commits GITHUB_OWNER fetch repo branch limit log
    = (log ++ [call], inr (Stringified (JArr rows)))
    /\ length rows = length commits
    /\ Forall (fun row =>
                 exists short full,
                   field row "sha" = JStr short /\ field row "fullSha" = JStr full
                   /\ String.prefix short full = true
                   /\ String.length short = min 7 (String.length full))
         rows.
Proof.
  intros call Hans Hshape. apply githubRequest_answers in Hans.
  assert (Hs : forall c, silent (commit_row c)).
  { intros c. unfold commit_row. silent. }
  assert (Hrows : exists rows,
    eval (mapM commit_row commits) = inr rows
    /\ Forall2 (fun c row => eval (commit_row c) = inr row) commits rows).
  { destruct (mapM_total commit_row commits Hs) as [rows Hrows].
    - apply Forall_forall. intros c Hc%list_elem_of_In.
      rewrite forallb_forall in Hshape.
      destruct (commit_row_shaped c (Hshape c Hc)) as (row & _ & Hrow & _). by exists row.
    - exists rows. split; [done |]. by apply mapM_Forall2. }
  destruct Hrows as (rows & Hrows & Hall).
  exists rows. split; [| split].
  - unfold get_commits. erewrite bind_ret by exact Hans.
    unfold js_map. erewrite bind_ret;
      [| erewrite bind_ret by reflexivity;
         erewrite bind_ret by (rewrite (silent_mapM commit_row commits Hs); by rewrite Hrows);
         reflexivity].
    reflexivity.
  - symmetry. by eapply Forall2_length.
  - apply Forall_forall. intros row Hrow.
    apply list_elem_of_lookup in Hrow as [i Hi].
    destruct (Forall2_lookup_r _ _ _ _ _ Hall Hi) as (c & Hc & Hrun).
    rewrite forallb_forall in Hshape.
    destruct (commit_row_shaped c (Hshape c (proj1 (list_elem_of_In _ _)
                                               (list_elem_of_lookup_2 _ _ _ Hc))))
      as (row' & full & Hrow' & _ & Hfull & Hshort).
    rewrite Hrun in Hrow'. injection Hrow' as <-.
    exists (String.substring 0 7 full), full.
    split; [done |]. split; [done |]. split; [apply substring_prefix |].
    clear. revert full. generalize 7%nat as n.
    induction n as [| n IH]; intros [| c s]; simpl; try done. by rewrite IH.
Qed.

(** X14. [create_tag] makes the tag object first and the reference
    second. When the first call fails nothing else is called. When it
    yields an object, the reference is created under [refs/tags/] for that
    object's [sha]; if that second call is then refused, the handler fails
    with the upstream error although the tag object exists; if it is
    accepted, the Result names the tag and the same [sha]. The message of
    the tag object is the tag name when no message, or an empty one, is
    given. *)
Theorem create_tag_object_then_reference repo tag sha message log :
  let objects := repo_url GITHUB_OWNER repo +:+ "/git/tags" in
  let refs := repo_url GITHUB_OWNER repo +:+ "/git/refs" in
  let c1 :=
    mkCall POST ("https://api.github.com" +:+ objects)
      (JObj [("tag", JStr tag);
             ("message", JStr (match message with
                               | Some m => if String.eqb m "" then tag else m
                               | None => tag
                               end));
             ("object", JStr sha); ("type", JStr "commit")]) in
  let c2 object_sha :=
    mkCall POST ("https://api.github.com" +:+ refs)
      (JObj [("ref", JStr ("refs/tags/" +:+ tag)); ("sha", object_sha)]) in
  let out := create_tag GITHUB_OWNER fetch repo tag sha message log in
  (forall e,
      snd (githubRequest fetch objects (tag_object_options tag sha message) log) = inl e ->
      out = (log ++ [c1], inl e))
  /\ (forall fields,
        answers fetch log c1 (JObj fields) ->
        let object_sha := default JUndefined (assoc "sha" fields) in
        fst out = log ++ [c1; c2 object_sha]
        /\ (forall r,
              rejects fetch (log ++ [c1]) (c2 object_sha) r ->
              snd out = inl (github_error r))
        /\ (forall created,
              answers fetch (log ++ [c1]) (c2 object_sha) created ->
              snd out = inr (Stringified (JObj [
                ("success", JBool true); ("tag", JStr tag); ("sha", object_sha)])))).
Proof.
  intros objects refs c1 c2 out. split.
  - intros e He. unfold out, create_tag.
    pose proof (githubRequest_split fetch objects (tag_object_options tag sha message) log)
      as Hreq.
    rewrite He in Hreq. by erewrite bind_throw by exact Hreq.
  - intros fields Hans object_sha.
    pose proof (githubRequest_answers _ _ _ _ _ Hans : githubRequest fetch objects
                  (tag_object_options tag sha message) log = _) as Hreq.
    pose proof (githubRequest_split fetch refs (tag_ref_options tag object_sha)
                  (log ++ [c1])) as Href.
    assert (Hout : out =
      (log ++ [c1; c2 object_sha],
       match snd (githubRequest fetch refs (tag_ref_options tag object_sha) (log ++ [c1])) with
       | inl e => inl e
       | inr _ => inr (Stringified (JObj [
                    ("success", JBool true); ("tag", JStr tag); ("sha", object_sha)]))
       end)).
    { unfold out, create_tag. erewrite bind_ret by exact Hreq.
      erewrite bind_ret by reflexivity.
      destruct (snd (githubRequest fetch refs _ _)) as [e | created].
      - erewrite bind_throw by exact Href. by rewrite <- (assoc_L (++)).
      - erewrite bind_ret by exact Href. erewrite bind_ret by reflexivity.
        unfold ret. by rewrite <- (assoc_L (++)). }
    rewrite Hout. split; [done |]. split.
    + intros r Hr.
      pose proof (githubRequest_rejects _ _ _ _ _ Hr : githubRequest fetch refs
                    (tag_ref_options tag object_sha) (log ++ [c1]) = _) as H.
      cbn [snd]. by rewrite H.
    + intros created Hc.
      pose proof (githubRequest_answers _ _ _ _ _ Hc : githubRequest fetch refs
                    (tag_ref_options tag object_sha) (log ++ [c1]) = _) as H.
      cbn [snd]. by rewrite H.
Qed.

(** X15. [create_branch] creates the branch where the source branch
    stands: it reads the reference of the source ([main] when none, or an
    empty one, is given) and, when that yields an object with an [object],
    posts [refs/heads/] and the new name with that object's [sha]. When the
    read fails, or yields an object without an [object], the handler fails
    and nothing is created. *)
Theorem create_branch_from_source_head repo branch fromBranch log :
  let source :=
    api_call (repo_url GITHUB_OWNER repo +:+ "/git/ref/heads/"
              +:+ match fromBranch with
                  | Some b => if String.eqb b "" then "main" else b
                  | None => "main"
                  end) no_options in
  let create head :=
    mkCall POST ("https://api.github.com" +:+ repo_url GITHUB_OWNER repo +:+ "/git/refs")
      (JObj [("ref", JStr ("refs/heads/" +:+ branch)); ("sha", head)]) in
  let out := create_branch GITHUB_OWNER fetch repo branch fromBranch log in
  (forall e,
      snd (githubRequest fetch
             (repo_url GITHUB_OWNER repo +:+ "/git/ref/heads/" +:+ or_default fromBranch "main")
             no_options log) = inl e ->
      out = (log ++ [source], inl e))
  /\ (forall fields,
        answers fetch log source (JObj fields) ->
        assoc "object" fields = None ->
        fst out = log ++ [source] /\ exists e, snd out = inl e)
  /\ (forall fields target,
        answers fetch log source (JObj fields) ->
        assoc "object" fields = Some (JObj target) ->
        fst out = log ++ [source; create (default JUndefined (assoc "sha" target))]).
Proof.
  intros source create out. split; [| split].
  - intros e He. unfold out, create_branch.
    pose proof (githubRequest_split fetch
                  (repo_url GITHUB_OWNER repo +:+ "/git/ref/heads/"
                   +:+ or_default fromBranch "main") no_options log) as Hreq.
    rewrite He in Hreq. by erewrite bind_throw by exact Hreq.
  - intros fields Hans Hnone. apply githubRequest_answers in Hans.
    unfold out, create_branch. erewrite bind_ret by exact Hans.
    erewrite bind_ret by (cbn [prop ret]; by rewrite Hnone).
    erewrite bind_throw by reflexivity. split; [done | by eexists].
  - intros fields target Hans Hobject. apply githubRequest_answers in Hans.
    unfold out, create_branch. erewrite bind_ret by exact Hans.
    erewrite bind_ret by (cbn [prop ret]; by rewrite Hobject).
    erewrite bind_ret by reflexivity.
    unfold bind at 1. rewrite githubRequest_split.
    destruct (snd (githubRequest _ _ _ _)) as [e | result].
    + by rewrite <- (assoc_L (++)).
    + rewrite silent_fst by silent. by rewrite <- (assoc_L (++)).
Qed.

(** X16. [delete_branch] reports success only when the upstream answers
    the DELETE with a success status and a body that parses as JSON: a
    success response without such a body makes the handler fail with the
    error of the parser, although the upstream accepted the deletion. *)
Theorem delete_branch_needs_a_json_body repo branch log r :
  let call :=
    mkCall DELETE
      ("https://api.github.com" +:+ repo_url GITHUB_OWNER repo +:+ "/git/refs/heads/"
       +:+ branch) JUndefined in
  fetch log call = Responded r ->
  response_ok r = true ->
  delete_branch GITHUB_OWNER fetch repo branch log
  = (log ++ [call],
     match json r with
     | inl e => inl e
     | inr _ => inr (Stringified (JObj [("success", JBool true);
                                        ("deleted", JStr branch)]))
     end).
Proof.
  intros call Hf Hok. unfold delete_branch, bind, githubRequest.
  change (api_call _ (mkInit DELETE JUndefined)) with call.
  rewrite Hf, Hok. by destruct (json r).
Qed.

(** ** Issues and search *)

(** X17. [update_issue] issues one PATCH, whatever comes back, and its
    body holds a field exactly for each argument that is truthy: a title,
    body or state that is missing or empty is not sent, a list of labels
    is sent even when it is empty, and no other field is ever sent. *)
Theorem update_issue_sends_truthy_fields repo number title body state labels log :
  exists data,
    fst (update_issue GITHUB_OWNER fetch repo number title body state labels log)
    = log ++ [mkCall PATCH
                ("https://api.github.com" +:+ repo_url GITHUB_OWNER repo +:+ "/issues/"
                 +:+ number_text number)
                (JObj data)]
    /\ NoDup (map fst data)
    /\ (forall v, assoc "title" data = Some v
                  <-> exists t, title = Some t /\ t <> "" /\ v = JStr t)
    /\ (forall v, assoc "body" data = Some v
                  <-> exists b, body = Some b /\ b <> "" /\ v = JStr b)
    /\ (forall v, assoc "state" data = Some v
                  <-> exists s, state = Some s /\ s <> "" /\ v = JStr s)
    /\ (forall v, assoc "labels" data = Some v
                  <-> exists l, labels = Some l /\ v = JArr (map JStr l))
    /\ (forall k, k ∈ map fst data -> k ∈ ["title"; "body"; "state"; "labels"]).
Proof.
  clear base64_decode base64_encode JSON_parse Number_toString.
  exists (updateData title body state labels). split.
  { unfold update_issue. rewrite fst_bind_silent by (intros; silent).
    by rewrite githubRequest_split. }
  unfold updateData.
  destruct title as [t |]; [destruct (String.eqb_spec t "") as [-> | Ht] |];
    (destruct body as [b |]; [destruct (String.eqb_spec b "") as [-> | Hb] |]);
    (destruct state as [s |]; [destruct (String.eqb_spec s "") as [-> | Hs] |]);
    destruct labels as [l |]; cbn [app map fst assoc];
    (split; [repeat constructor; set_solver |]);
    repeat split; try (intros [= <-]); try (intros (? & [= <-] & ? & ->));
    try (intros (? & [= <-] & ->)); try (intros (? & [=] & _));
    try (intros (? & [= <-] & ? & _)); try done; eauto; try set_solver.
Qed.

(** The query of [search_issues] and its encoding, for repository
    coordinates made of unreserved characters. *)
Lemma search_issues_query_encoded repo query type encoded :
  forallb unescaped (utf16_of GITHUB_OWNER) = true ->
  forallb unescaped (utf16_of repo) = true ->
  encodeURIComponent query = inr encoded ->
  encodeURIComponent (search_issues_query GITHUB_OWNER repo query type)
  = inr (encoded +:+ "%2Brepo%3A" +:+ GITHUB_OWNER +:+ "%2F" +:+ repo
         +:+ match type with
             | Some TypeIssue => "%2Bis%3Aissue"
             | Some TypePr => "%2Bis%3Apr"
             | None => ""
             end).
Proof.
  intros Ho Hr Hq. unfold search_issues_query.
  rewrite !utf16_of_append.
  apply encodeURIComponent_app; [done |].
  rewrite <- !(assoc_L (++)).
  apply (encodeURIComponent_app (utf16_of "+repo:")); [done |].
  apply encodeURIComponent_app; [by apply encodeURIComponent_unreserved |].
  apply (encodeURIComponent_app (utf16_of "/")); [done |].
  apply encodeURIComponent_app; [by apply encodeURIComponent_unreserved |].
  by destruct type as [[|] |].
Qed.

(** X18. [search_issues] percent-encodes its whole query, qualifiers
    included: for a well-formed search text, and repository coordinates
    made of unreserved characters, the one request it issues carries the
    separators of [+repo:owner/repo] and of [+is:issue] or [+is:pr] as
    [%2B], [%3A] and [%2F], behind the encoded search text. *)
Theorem search_issues_encodes_its_qualifiers repo query type log :
  forallb unescaped (utf16_of GITHUB_OWNER) = true ->
  forallb unescaped (utf16_of repo) = true ->
  well_formed query = true ->
  exists encoded,
    encodeURIComponent query = inr encoded
    /\ fst (search_issues GITHUB_OWNER fetch repo query type log)
       = log ++ [mkCall GET
                   ("https://api.github.com/search/issues?q=" +:+ encoded
                    +:+ "%2Brepo%3A" +:+ GITHUB_OWNER +:+ "%2F" +:+ repo
                    +:+ match type with
                        | Some TypeIssue => "%2Bis%3Aissue"
                        | Some TypePr => "%2Bis%3Apr"
                        | None => ""
                        end)
                   JUndefined].
Proof.
  intros Ho Hr Hwf.
  destruct (encodeURIComponent_well_formed query Hwf) as [encoded Hq].
  exists encoded. split; [done |]. unfold search_issues.
  erewrite bind_ret
    by (unfold lift; by rewrite (search_issues_query_encoded repo query type encoded)).
  rewrite fst_bind_silent by (intros; silent).
  by rewrite githubRequest_split.
Qed.

(** X19. [search_issues] filters nothing itself: when the search yields
    items that are objects with a [user] object, the Result has one row
    per item, in order, each with the [number] of its item and with [type]
    [pr] when the item carries a truthy [pull_request] and [issue]
    otherwise, whichever [type] was asked for. *)
Theorem search_issues_types_every_item repo query type log encoded fields items :
  let call := api_call ("/search/issues?q=" +:+ encoded) no_options in
  encodeURIComponent (search_issues_query GITHUB_OWNER repo query type) = inr encoded ->
  answers fetch log call (JObj fields) ->
  assoc "items" fields = Some (JArr items) ->
  forallb (fun item => is_object item && is_object (field item "user")) items = true ->
  exists rows,
    search_issues GITHUB_OWNER fetch repo query type log
    = (log ++ [call], inr (Stringified (JArr rows)))
    /\ Forall2 (fun item row =>
                  field row "type"
                  = JStr (if truthy (field item "pull_request") then "pr" else "issue")
                  /\ field row "number" = field item "number") items rows.
Proof.
  intros call Henc Hans Hitems Hshaped.
  assert (Hs : forall item, silent (search_issue_item item)).
  { intros item. unfold search_issue_item. silent. }
  destruct (mapM_total search_issue_item items Hs) as [rows Hrows].
  { apply Forall_forall. intros item Hin. rewrite forallb_forall in Hshaped.
    destruct (search_issue_item_shaped item) as (row & Hrow & _); [| by eexists].
    apply Hshaped. by apply list_elem_of_In. }
  exists rows. split.
  - unfold search_issues.
    erewrite bind_ret by (unfold lift; by rewrite Henc).
    erewrite bind_ret by exact (githubRequest_answers _ _ _ _ _ Hans).
    erewrite bind_ret by (cbn [prop ret]; by rewrite Hitems).
    assert (Hmap : forall log', js_map "results.items" (JArr items) search_issue_item log'
                                = (log', inr (JArr rows))).
    { intros log'. unfold js_map. erewrite bind_ret by reflexivity.
      erewrite bind_ret by (rewrite (silent_mapM _ _ Hs); by rewrite Hrows).
      reflexivity. }
    by erewrite bind_ret by apply Hmap.
  - apply mapM_Forall2 in Hrows; [| done].
    clear Hitems Hans. revert Hshaped.
    induction Hrows as [| item row items rows Hrow _ IH]; [constructor |].
    simpl. intros [Hi Hrest]%andb_true_iff. constructor; [| by apply IH].
    destruct (search_issue_item_shaped item Hi) as (row' & Hrow' & Htype & Hnumber).
    rewrite Hrow in Hrow'. by injection Hrow' as <-.
Qed.

(** ** Folder listings *)

(** X22. [list_hooks] strips [.ts] before [.tsx]: for a listing of objects
    with string names it returns one row per item, in order, with the
    [path] of the item; an item named [base.ts], [base] without a dot, is
    listed as [base], but one named [base.tsx] is listed as [basex], the
    first replacement having left the [x] behind. *)
Theorem list_hooks_leaves_x_of_tsx repo log items :
  let call := api_call (contents_url GITHUB_OWNER repo "src/hooks") no_options in
  answers fetch log call (JArr items) ->
  forallb (fun item => is_object item && is_string (field item "name")) items = true ->
  exists rows,
    list_hooks GITHUB_OWNER fetch repo log = (log ++ [call], inr (Stringified (JArr rows)))
    /\ Forall2 (fun item row =>
                  field row "path" = field item "path"
                  /\ forall base, dotless base = true ->
                       (field item "name" = JStr (base +:+ ".ts")
                        -> field row "name" = JStr base)
                       /\ (field item "name" = JStr (base +:+ ".tsx")
                           -> field row "name" = JStr (base +:+ "x"))) items rows.
Proof.
  intros call Hans Hnamed.
  assert (Hs : forall item, silent (ts_item item)).
  { intros item. unfold ts_item. silent. }
  rewrite forallb_forall in Hnamed.
  destruct (listing_rows ts_item
              (fun item row =>
                 field row "path" = field item "path"
                 /\ forall base, dotless base = true ->
                      (field item "name" = JStr (base +:+ ".ts")
                       -> field row "name" = JStr base)
                      /\ (field item "name" = JStr (base +:+ ".tsx")
                          -> field row "name" = JStr (base +:+ "x")))
              items Hs) as (rows & Hmap & Hrows).
  { apply Forall_forall. intros item Hin. apply ts_item_named.
    apply Hnamed. by apply list_elem_of_In. }
  exists rows. split; [| done].
  unfold list_hooks, try_catch.
  erewrite bind_ret by exact (githubRequest_answers _ _ _ _ _ Hans).
  by erewrite bind_ret by apply Hmap.
Qed.

(** X23. [list_types] strips [.ts] before [.d.ts]: for a listing of
    objects with string names it returns one row per item, in order, with
    the [path] of the item; an item named [base.ts], [base] without a dot,
    is listed as [base], but a declaration file [base.d.ts] is listed as
    [base.d], the second replacement finding nothing left to remove. *)
Theorem list_types_keeps_d_of_declarations repo log items :
  let call := api_call (contents_url GITHUB_OWNER repo "src/types") no_options in
  answers fetch log call (JArr items) ->
  forallb (fun item => is_object item && is_string (field item "name")) items = true ->
  exists rows,
    list_types GITHUB_OWNER fetch repo log = (log ++ [call], inr (Stringified (JArr rows)))
    /\ Forall2 (fun item row =>
                  field row "path" = field item "path"
                  /\ forall base, dotless base = true ->
                       (field item "name" = JStr (base +:+ ".ts")
                        -> field row "name" = JStr base)
                       /\ (field item "name" = JStr (base +:+ ".d.ts")
                           -> field row "name" = JStr (base +:+ ".d"))) items rows.
Proof.
  intros call Hans Hnamed. rewrite forallb_forall in Hnamed.
  destruct (listing_rows
              (fun item =>
                 let* name := prop item "name" in
                 let* name := str_replace "item.name" name ".ts" in
                 let* name := str_replace "item.name.replace(...)" name ".d.ts" in
                 let* path := prop item "path" in
                 ret (JObj [("name", name); ("path", path)]))
              (fun item row =>
                 field row "path" = field item "path"
                 /\ forall base, dotless base = true ->
                      (field item "name" = JStr (base +:+ ".ts")
                       -> field row "name" = JStr base)
                      /\ (field item "name" = JStr (base +:+ ".d.ts")
                          -> field row "name" = JStr (base +:+ ".d")))
              items) as (rows & Hmap & Hrows).
  { intros item. silent. }
  { apply Forall_forall. intros item Hin.
    specialize (Hnamed item (proj1 (list_elem_of_In _ _) Hin)).
    apply andb_true_iff in Hnamed as [Hi Hn].
    destruct item as [| | | | | | fields]; try done. simpl in Hn |- *.
    destruct (default JUndefined (assoc "name" fields)) as [| | | | name | |] eqn:En;
      try done.
    eexists. split; [unfold eval, bind; simpl; first [by rewrite En | done] |].
    split; [done |]. intros base Hbase. simpl. split; intros [= ->].
    - rewrite (remove_first_dotless _ base ".ts" Hbase).
      change (remove_first ".ts" ".ts") with "". rewrite append_empty.
      rewrite <- (append_empty base) at 1.
      rewrite (remove_first_dotless _ base "" Hbase). by rewrite append_empty.
    - rewrite (remove_first_dotless _ base ".d.ts" Hbase).
      change (remove_first ".ts" ".d.ts") with ".d".
      by rewrite (remove_first_dotless _ base ".d" Hbase). }
  exists rows. split; [| done].
  unfold list_types, try_catch.
  erewrite bind_ret by exact (githubRequest_answers _ _ _ _ _ Hans).
  by erewrite bind_ret by apply Hmap.
Qed.

(** X24. [list_utils] never fails and issues one or two calls: when the
    listing of [src/utils] comes back and its items can be listed, that
    listing is the Result and [src/lib] is not consulted; when the read of
    [src/utils] is refused, whatever the status, [src/lib] is read next. *)
Theorem list_utils_prefers_utils repo log :
  let utils := api_call (contents_url GITHUB_OWNER repo "src/utils") no_options in
  let lib := api_call (contents_url GITHUB_OWNER repo "src/lib") no_options in
  let out := list_utils GITHUB_OWNER fetch repo log in
  (exists result, snd out = inr result)
  /\ (fst out = log ++ [utils] \/ fst out = log ++ [utils; lib])
  /\ (forall items rows,
        answers fetch log utils (JArr items) ->
        eval (mapM ts_item items) = inr rows ->
        out = (log ++ [utils], inr (Stringified (JArr rows))))
  /\ (forall r, rejects fetch log utils r -> fst out = log ++ [utils; lib]).
Proof.
  intros utils lib out.
  assert (Hs : forall receiver v,
             silent (let* listed := js_map receiver v ts_item in
                     ret (Stringified listed))).
  { intros receiver v. apply silent_bind; [| intros; silent].
    apply silent_js_map. intros item. unfold ts_item. silent. }
  assert (Hlib : forall log', exists result,
             try_catch
               (let* libContents :=
                  githubRequest fetch (contents_url GITHUB_OWNER repo "src/lib") no_options in
                let* listed := js_map "libContents" libContents ts_item in
                ret (Stringified listed))
               (fun _ => ret (absent "No utils/lib found")) log'
             = (log' ++ [lib], inr result)).
  { intros log'. unfold try_catch, bind at 1. rewrite githubRequest_split.
    destruct (snd (githubRequest _ _ _ _)) as [e | contents]; [by eexists |].
    rewrite (Hs _ contents _). destruct (eval _) as [e | result]; by eexists. }
  assert (Hout : out
    = match snd (githubRequest fetch (contents_url GITHUB_OWNER repo "src/utils")
                   no_options log) with
      | inl e =>
          try_catch
            (let* libContents :=
               githubRequest fetch (contents_url GITHUB_OWNER repo "src/lib") no_options in
             let* listed := js_map "libContents" libContents ts_item in
             ret (Stringified listed))
            (fun _ => ret (absent "No utils/lib found")) (log ++ [utils])
      | inr contents =>
          match eval (let* listed := js_map "contents" contents ts_item in
                      ret (Stringified listed)) with
          | inl e =>
              try_catch
                (let* libContents :=
                   githubRequest fetch (contents_url GITHUB_OWNER repo "src/lib")
                     no_options in
                 let* listed := js_map "libContents" libContents ts_item in
                 ret (Stringified listed))
                (fun _ => ret (absent "No utils/lib found")) (log ++ [utils])
          | inr result => (log ++ [utils], inr result)
          end
      end).
  { unfold out, list_utils. unfold try_catch at 1. unfold bind at 1.
    rewrite githubRequest_split.
    destruct (snd (githubRequest _ _ _ _)) as [e | contents]; [done |].
    rewrite (Hs _ contents _). cbn [snd]. by destruct (eval _). }
  split; [| split; [| split]].
  - rewrite Hout. destruct (Hlib (log ++ [utils])) as [fallback ->].
    destruct (snd (githubRequest _ _ _ _)) as [e | contents]; [by eexists |].
    destruct (eval _) as [e | result]; by eexists.
  - rewrite Hout. destruct (Hlib (log ++ [utils])) as [fallback ->].
    rewrite <- (assoc_L (++)).
    destruct (snd (githubRequest _ _ _ _)) as [e | contents]; [by right |].
    destruct (eval _) as [e | result]; [by right | by left].
  - intros items rows Hans Hrows. rewrite Hout.
    rewrite (githubRequest_answers _ _ _ _ _ Hans). cbn [snd].
    assert (eval (let* listed := js_map "contents" (JArr items) ts_item in
                  ret (Stringified listed))
            = inr (Stringified (JArr rows))) as ->; [| done].
    rewrite eval_bind by (apply silent_js_map; intros; unfold ts_item; silent).
    unfold js_map. rewrite eval_bind by silent.
    change (eval (as_array "contents" "map" (JArr items)))
      with (inr (B := list jsval) (A := JsError) items).
    cbv beta iota.
    rewrite eval_bind by (apply silent_mapM; intros; unfold ts_item; silent).
    by rewrite Hrows.
  - intros r Hr. rewrite Hout. rewrite (githubRequest_rejects _ _ _ _ _ Hr). cbn [snd].
    destruct (Hlib (log ++ [utils])) as [fallback ->].
    by rewrite <- (assoc_L (++)).
Qed.

(** X25. [list_custom_components] lists the [.tsx] files and nothing
    else: for a listing of objects with string names, its rows are, in
    order, those of the items whose [type] is [file] and whose name ends in
    [.tsx]; each row has the [path] of its item, and the name [base] for an
    item named [base.tsx], [base] without a dot. *)
Theorem list_custom_components_keeps_tsx_files repo log items :
  let call := api_call (contents_url GITHUB_OWNER repo "src/components") no_options in
  let kept item :=
    strict_eq_str (field item "type") "file"
    && match field item "name" with
       | JStr name => ends_with ".tsx" name
       | _ => false
       end in
  answers fetch log call (JArr items) ->
  forallb (fun item => is_object item && is_string (field item "name")) items = true ->
  exists rows,
    list_custom_components GITHUB_OWNER fetch repo log
    = (log ++ [call], inr (Stringified (JArr rows)))
    /\ Forall2 (fun item row =>
                  field row "path" = field item "path"
                  /\ forall base, dotless base = true ->
                       field item "name" = JStr (base +:+ ".tsx") ->
                       field row "name" = JStr base)
         (List.filter kept items) rows.
Proof.
  intros call kept Hans Hnamed. rewrite forallb_forall in Hnamed.
  set (keep := fun item : jsval =>
         let* type := prop item "type" in
         if strict_eq_str type "file" then
           let* name := prop item "name" in
           str_endsWith "item.name" name ".tsx"
         else ret false).
  set (row_of := fun item : jsval =>
         let* name := prop item "name" in
         let* name := str_replace "item.name" name ".tsx" in
         let* path := prop item "path" in
         ret (JObj [("name", name); ("path", path)])).
  assert (Hkeep : forall item, silent (keep item)).
  { intros item. unfold keep. apply silent_bind; [silent |].
    intros type. destruct (strict_eq_str type "file"); silent. }
  assert (Hfilter : forall log', js_filter "contents" (JArr items) keep log'
                                 = (log', inr (JArr (List.filter kept items)))).
  { intros log'. unfold js_filter. erewrite bind_ret by reflexivity.
    erewrite bind_ret; [reflexivity |].
    rewrite (silent_filterM _ _ Hkeep). f_equal. apply filterM_pure; [done |].
    apply Forall_forall. intros item Hin.
    specialize (Hnamed item (proj1 (list_elem_of_In _ _) Hin)).
    apply andb_true_iff in Hnamed as [Hi Hn].
    destruct item as [| | | | | | fields]; try done.
    unfold kept, keep, eval, bind. simpl in Hn |- *.
    destruct (strict_eq_str _ "file"); [| done].
    by destruct (default JUndefined (assoc "name" fields)). }
  destruct (listing_rows row_of
              (fun item row =>
                 field row "path" = field item "path"
                 /\ forall base, dotless base = true ->
                      field item "name" = JStr (base +:+ ".tsx") ->
                      field row "name" = JStr base)
              (List.filter kept items)) as (rows & Hmap & Hrows).
  { intros item. unfold row_of. silent. }
  { apply Forall_forall. intros item [Hin _]%list_elem_of_In%filter_In.
    specialize (Hnamed item Hin). apply andb_true_iff in Hnamed as [Hi Hn].
    destruct item as [| | | | | | fields]; try done. simpl in Hn |- *.
    destruct (default JUndefined (assoc "name" fields)) as [| | | | name | |] eqn:En;
      try done.
    eexists. split; [unfold eval, row_of, bind; simpl; first [by rewrite En | done] |].
    split; [done |]. intros base Hbase [= ->]. simpl.
    rewrite (remove_first_dotless _ base ".tsx" Hbase).
    change (remove_first ".tsx" ".tsx") with "". by rewrite append_empty. }
  exists rows. split; [| done].
  unfold list_custom_components, try_catch. fold keep row_of.
  erewrite bind_ret by exact (githubRequest_answers _ _ _ _ _ Hans).
  erewrite bind_ret by apply Hfilter.
  by erewrite bind_ret by apply Hmap.
Qed.

(** ** Dependency analysis *)

(** X26. [analyze_dependencies] never reports the categories [Routing]
    and [State Management]: no pattern leads to the second, and the only
    pattern that leads to the first, [react-router], is never reached,
    since a name that includes it includes [react], which is tried first
    and files the dependency under [UI Framework]. *)
Theorem analyze_dependencies_never_reports_routing repo log result :
  snd (analyze_dependencies GITHUB_OWNER fetch base64_decode base64_of_value JSON_parse repo log)
  = inr result ->
  exists report,
    result = Stringified report
    /\ field (field report "categories") "Routing" = JUndefined
    /\ field (field report "categories") "State Management" = JUndefined
    /\ forall dep, str_includes "react-router" dep = true ->
                   first_match dep categoryMap = Some "UI Framework".
Proof.
  clear base64_encode.
  unfold analyze_dependencies, bind.
  destruct (read_decoded _ _ _ _) as [log1 [e | decoded]]; [done |].
  unfold lift. destruct (JSON_parse decoded) as [e | packageJson]; [done |].
  destruct (prop packageJson "dependencies" log1) as [log2 [e | dependencies]]; [done |].
  destruct (prop packageJson "devDependencies" log2) as [log3 [e | devDependencies]];
    [done |].
  cbn [snd ret]. intros [= <-]. eexists. split; [done |].
  cbn [field assoc String.eqb Ascii.eqb Bool.eqb default].
  split; [| split].
  - apply remove_empty_drops, categorize_keeps. set_solver.
  - apply remove_empty_drops, categorize_keeps. set_solver.
  - intros dep Hdep. apply (str_includes_append "react" "-router") in Hdep.
    unfold categoryMap. cbn [first_match]. by rewrite Hdep.
Qed.

(** X27. [analyze_dependencies] files every dependency once: when
    [package.json] is read and parses to a value that is not [null], the
    reported categories hold, between them, exactly the keys of
    [{ ...deps, ...devDeps }], each one once; no reported category is
    empty; and a key is listed under the category of the first pattern of
    [categoryMap] that it includes, or under [Other] when it includes
    none. *)
Theorem analyze_dependencies_files_each_key_once repo log fields content packageJson :
  let call := api_call (contents_url GITHUB_OWNER repo "package.json") no_options in
  let deps := or_value (field packageJson "dependencies") (JObj []) in
  let devDeps := or_value (field packageJson "devDependencies") (JObj []) in
  let production := Z.of_nat (length (Object_keys deps)) in
  let development := Z.of_nat (length (Object_keys devDeps)) in
  answers fetch log call (JObj fields) ->
  assoc "content" fields = Some (JStr content) ->
  JSON_parse (base64_decode content) = inr packageJson ->
  nullish packageJson = false ->
  exists categories,
    analyze_dependencies GITHUB_OWNER fetch base64_decode base64_of_value JSON_parse repo log
    = (log ++ [call],
       inr (Stringified (JObj [
         ("total", JNum (production + development));
         ("production", JNum production);
         ("development", JNum development);
         ("categories", categories_value categories)])))
    /\ concat (map snd categories) ≡ₚ spread_keys deps devDeps
    /\ Forall (fun entry =>
                 snd entry <> []
                 /\ Forall (fun dep =>
                              default "Other" (first_match dep categoryMap) = fst entry)
                      (snd entry)) categories.
Proof.
  intros call deps devDeps production development Hans Hcontent Hparse Hvalue.
  exists (remove_empty (foldl categorize categories_init (spread_keys deps devDeps))).
  destruct (categorize_files_each_once (spread_keys deps devDeps)) as [Hperm Hall].
  split; [| split].
  - unfold analyze_dependencies, read_decoded.
    assert (Hread : forall log',
      prop packageJson "dependencies" log' = (log', inr (field packageJson "dependencies"))
      /\ prop packageJson "devDependencies" log'
         = (log', inr (field packageJson "devDependencies"))).
    { intros log'. split.
      - rewrite (silent_prop packageJson "dependencies" log').
        by rewrite (prop_field packageJson "dependencies" Hvalue).
      - rewrite (silent_prop packageJson "devDependencies" log').
        by rewrite (prop_field packageJson "devDependencies" Hvalue). }
    erewrite bind_ret.
    2: { erewrite bind_ret by exact (githubRequest_answers _ _ _ _ _ Hans).
         erewrite bind_ret by (cbn [prop ret]; by rewrite Hcontent).
         reflexivity. }
    erewrite bind_ret by (unfold lift; by rewrite Hparse).
    erewrite bind_ret by apply Hread.
    erewrite bind_ret by apply Hread.
    reflexivity.
  - by rewrite remove_empty_listed.
  - pose proof (remove_empty_nonempty
                  (foldl categorize categories_init (spread_keys deps devDeps))) as Hne.
    apply Forall_forall. intros entry Hin. split.
    + by apply (proj1 (Forall_forall _ _) Hne).
    + apply (proj1 (Forall_forall _ _) Hall).
      unfold remove_empty in Hin. apply list_elem_of_In, filter_In in Hin as [Hin _].
      by apply list_elem_of_In.
Qed.

(** ** Configuration files *)

Lemma read_decoded_log endpoint log :
  read_decoded fetch base64_decode base64_of_value endpoint log
  = (log ++ [api_call endpoint no_options],
     snd (read_decoded fetch base64_decode base64_of_value endpoint log)).
Proof.
  unfold read_decoded, bind. rewrite githubRequest_split.
  destruct (snd (githubRequest _ _ _ _)) as [e | file]; [done |].
  rewrite (silent_prop file "content" _).
  destruct (eval (prop file "content")) as [e | content]; [done |].
  by rewrite (silent_Buffer_from_base64 base64_decode base64_of_value content _).
Qed.

Lemma read_decoded_rejects endpoint log r :
  rejects fetch log (api_call endpoint no_options) r ->
  read_decoded fetch base64_decode base64_of_value endpoint log
  = (log ++ [api_call endpoint no_options], inl (github_error r)).
Proof.
  intros Hr. unfold read_decoded.
  by erewrite bind_throw by exact (githubRequest_rejects _ _ _ _ _ Hr).
Qed.

Lemma read_decoded_answers endpoint log fields content :
  answers fetch log (api_call endpoint no_options) (JObj fields) ->
  assoc "content" fields = Some (JStr content) ->
  read_decoded fetch base64_decode base64_of_value endpoint log
  = (log ++ [api_call endpoint no_options], inr (base64_decode content)).
Proof.
  intros Hans Hcontent. unfold read_decoded.
  erewrite bind_ret by exact (githubRequest_answers _ _ _ _ _ Hans).
  erewrite bind_ret by (cbn [prop ret]; by rewrite Hcontent).
  reflexivity.
Qed.

(** X28. [get_supabase_config] never fails. When the read of [client.ts]
    is refused it reports [hasSupabase: false] after that one call. When
    [client.ts] is read, [types.ts] is read next and [hasSupabase: true] is
    reported with the decoded client, whatever becomes of the second read:
    [types] is [Not found] when it is refused, and also when the file is
    there and decodes to the empty string. *)
Theorem get_supabase_config_tolerates_missing_types repo log :
  let client :=
    api_call (contents_url GITHUB_OWNER repo "src/integrations/supabase/client.ts")
      no_options in
  let types :=
    api_call (contents_url GITHUB_OWNER repo "src/integrations/supabase/types.ts")
      no_options in
  let report (content : string) (found : bool) :=
    Stringified (JObj [
      ("hasSupabase", JBool true);
      ("client", JStr (base64_decode content));
      ("types", JStr (if found then "Found (use read_file to view)" else "Not found"))]) in
  let out := get_supabase_config GITHUB_OWNER fetch base64_decode base64_of_value repo log in
  (exists result, snd out = inr result)
  /\ (forall r,
        rejects fetch log client r ->
        out = (log ++ [client], inr (Stringified (JObj [("hasSupabase", JBool false)]))))
  /\ (forall fields content,
        answers fetch log client (JObj fields) ->
        assoc "content" fields = Some (JStr content) ->
        fst out = log ++ [client; types]
        /\ (forall r,
              rejects fetch (log ++ [client]) types r ->
              snd out = inr (report content false))
        /\ (forall fields' content',
              answers fetch (log ++ [client]) types (JObj fields') ->
              assoc "content" fields' = Some (JStr content') ->
              snd out
              = inr (report content (negb (String.eqb (base64_decode content') ""))))).
Proof.
  intros client types report out. split; [| split].
  - unfold out, get_supabase_config, try_catch at 1, bind at 1.
    rewrite read_decoded_log.
    destruct (snd (read_decoded _ _ _ _ _)) as [e | clientContent]; [by eexists |].
    unfold bind at 1, try_catch, bind at 1. rewrite read_decoded_log.
    destruct (snd (read_decoded _ _ _ _ _)) as [e | decoded]; by eexists.
  - intros r Hr. unfold out, get_supabase_config, try_catch at 1.
    by erewrite bind_throw by exact (read_decoded_rejects _ _ _ Hr).
  - intros fields content Hans Hcontent.
    assert (Hout : out =
      (log ++ [client; types],
       inr (report content
              match snd (read_decoded fetch base64_decode base64_of_value
                           (contents_url GITHUB_OWNER repo "src/integrations/supabase/types.ts")
                           (log ++ [client])) with
              | inl _ => false
              | inr decoded => negb (String.eqb decoded "")
              end))).
    { unfold out, get_supabase_config, try_catch at 1.
      erewrite bind_ret by exact (read_decoded_answers _ _ _ _ Hans Hcontent).
      unfold bind at 1, try_catch, bind at 1. rewrite read_decoded_log.
      rewrite <- (assoc_L (++)).
      destruct (snd (read_decoded _ _ _ _ _)) as [e | decoded]; [done |].
      unfold ret, report. cbn [truthy]. by destruct (String.eqb decoded ""). }
    rewrite Hout. split; [done |]. split.
    + intros r Hr. by rewrite (read_decoded_rejects _ _ _ Hr).
    + intros fields' content' Hans' Hcontent'.
      by rewrite (read_decoded_answers _ _ _ _ Hans' Hcontent').
Qed.

(** X29. The handlers that fetch one configuration file differ in what
    they do with a refusal: [get_tailwind_config], [get_vite_config],
    [get_env_example] and [get_readme] answer with a fixed text and never
    fail, while [get_package_json] fails with the upstream error. All five
    issue exactly one call. *)
Theorem configuration_getters_on_refusal repo log :
  let read (path : string) := api_call (contents_url GITHUB_OWNER repo path) no_options in
  let readme := api_call (repo_url GITHUB_OWNER repo +:+ "/readme") no_options in
  let getters :=
    [(get_tailwind_config GITHUB_OWNER fetch base64_decode base64_of_value repo,
      read "tailwind.config.ts", "No tailwind.config.ts found");
     (get_vite_config GITHUB_OWNER fetch base64_decode base64_of_value repo,
      read "vite.config.ts", "No vite.config.ts found");
     (get_env_example GITHUB_OWNER fetch base64_decode base64_of_value repo,
      read ".env.example", "No .env.example found");
     (get_readme GITHUB_OWNER fetch base64_decode base64_of_value repo, readme, "No README found")] in
  Forall (fun '(handler, call, text) =>
            fst (handler log) = log ++ [call]
            /\ (exists result, snd (handler log) = inr result)
            /\ forall r, rejects fetch log call r -> snd (handler log) = inr (Raw text))
    getters
  /\ fst (get_package_json GITHUB_OWNER fetch base64_decode base64_of_value repo log)
     = log ++ [read "package.json"]
  /\ forall r,
       rejects fetch log (read "package.json") r ->
       snd (get_package_json GITHUB_OWNER fetch base64_decode base64_of_value repo log)
       = inl (github_error r).
Proof.
  intros read readme getters.
  assert (Hget : forall endpoint text,
    let handler :=
      try_catch
        (let* content := read_decoded fetch base64_decode base64_of_value endpoint in ret (Raw content))
        (fun _ => ret (Raw text)) in
    fst (handler log) = log ++ [api_call endpoint no_options]
    /\ (exists result, snd (handler log) = inr result)
    /\ forall r, rejects fetch log (api_call endpoint no_options) r ->
                 snd (handler log) = inr (Raw text)).
  { intros endpoint text handler. unfold handler, try_catch, bind.
    split; [| split].
    - rewrite read_decoded_log. by destruct (snd (read_decoded _ _ _ _ _)).
    - rewrite read_decoded_log. destruct (snd (read_decoded _ _ _ _ _)); by eexists.
    - intros r Hr. by rewrite (read_decoded_rejects _ _ _ Hr). }
  split; [| split].
  - unfold getters. repeat (apply Forall_cons; split; [apply Hget |]). constructor.
  - unfold get_package_json, bind. rewrite read_decoded_log.
    by destruct (snd (read_decoded _ _ _ _ _)).
  - intros r Hr. unfold get_package_json.
    by erewrite bind_throw by exact (read_decoded_rejects _ _ _ Hr).
Qed.

End MoreFacts.

(** ** More concrete runs *)

Import MoreScenarios.

Lemma githubRequest_returns_exactly_on_success_witness :
  snd (githubRequest delete_refused "/repos/me/demo/contents/a.txt" no_options [])
  = inr (JObj [("content", JStr "aGk="); ("sha", JStr "abc")])
  /\ snd (githubRequest all_refused "/repos/me/demo/contents/a.txt" no_options [])
     = inl (Error ("GitHub API error: " +:+ pretty (status (refusal 409 "conflict"))
                   +:+ " - " +:+ text (refusal 409 "conflict"))).
Proof.
  split.
  - apply (proj1 (proj2 (githubRequest_returns_exactly_on_success delete_refused
                           "/repos/me/demo/contents/a.txt" no_options []))).
    eexists. repeat split.
  - apply (proj2 (proj2 (githubRequest_returns_exactly_on_success all_refused
                           "/repos/me/demo/contents/a.txt" no_options []))).
    split; reflexivity.
Defined.

Lemma isLovableProject_detects_markers_witness :
  snd (isLovableProject lovable_repo decimal "me" (JStr "demo") []) = inr true
  /\ snd (isLovableProject empty_repo decimal "me" (JStr "demo") []) = inr false.
Proof.
  split.
  - refine (proj1 (proj2 (isLovableProject_detects_markers lovable_repo decimal
                            "me" (JStr "demo") [])) "demo" lovable_root _ _ _).
    + reflexivity.
    + eexists. repeat split.
    + reflexivity.
  - refine (proj2 (proj2 (isLovableProject_detects_markers empty_repo decimal
                            "me" (JStr "demo") [])) "demo"
              (github_error (refusal 404 "Not Found")) _ _).
    + reflexivity.
    + reflexivity.
Defined.

Lemma list_projects_lists_probed_repositories_witness :
  exists listed,
    list_projects "me" account decimal None []
    = ([api_call "/users/me/repos?per_page=100&sort=updated" no_options;
        api_call "/repos/me/demo/contents" no_options;
        api_call "/repos/me/secret/contents" no_options],
       inr (Stringified (JArr listed)))
    /\ sublist listed [summary_of public_repo; summary_of private_repo].
Proof.
  apply (list_projects_lists_probed_repositories "me" account decimal None []
           [public_repo; private_repo]).
  - eexists. repeat split.
  - reflexivity.
Defined.

Lemma list_projects_skips_private_witness :
  exists listed,
    snd (list_projects "me" account decimal (Some false) [])
    = inr (Stringified (JArr listed))
    /\ Forall (fun project => truthy (field project "private") = false) listed
    /\ fst (list_projects "me" account decimal (Some false) [])
       = [api_call "/users/me/repos?per_page=100&sort=updated" no_options;
          api_call "/repos/me/demo/contents" no_options].
Proof.
  apply (list_projects_skips_private "me" account decimal []
           [public_repo; private_repo]).
  - eexists. repeat split.
  - reflexivity.
Defined.

Lemma get_project_tolerates_missing_manifest_witness :
  exists info recent,
    get_project "me" bare_project codec no_buffer no_json "demo" []
    = ([api_call "/repos/me/demo" no_options;
        api_call "/repos/me/demo/commits?per_page=5" no_options;
        api_call "/repos/me/demo/contents/package.json" no_options],
       inr (Stringified info))
    /\ field info "recentCommits" = JArr recent
    /\ recent = [short_of a_commit]
    /\ field info "dependencies" = JObj []
    /\ field info "devDependencies" = JObj [].
Proof.
  destruct (get_project_tolerates_missing_manifest "me" bare_project codec no_buffer no_json
              "demo" [] [("name", JStr "demo"); ("default_branch", JStr "main")]
              [a_commit])
    as (info & recent & Hrun & Hrecent & Hshort & _ & _ & _ & _ & Hempty).
  - eexists. repeat split.
  - eexists. repeat split.
  - reflexivity.
  - exists info, recent. split; [exact Hrun |]. split; [exact Hrecent |].
    split; [exact Hshort |].
    exact (Hempty (github_error (refusal 404 "Not Found")) eq_refl).
Defined.

Lemma copy_file_reads_then_writes_witness :
  fst (copy_file "me" delete_refused codec no_buffer codec "demo" "a.txt" "b.txt" "cp" [])
  = [api_call (contents_url "me" "demo" "a.txt") no_options;
     api_call (contents_url "me" "demo" "b.txt")
       (mkInit PUT (JObj [("message", JStr "cp"); ("content", JStr "aGk=")]))]
  /\ copy_file "me" all_refused codec no_buffer codec "demo" "a.txt" "b.txt" "cp" []
     = ([api_call (contents_url "me" "demo" "a.txt") no_options],
        inl (github_error (refusal 409 "conflict"))).
Proof.
  pose proof (copy_file_reads_then_writes "me" delete_refused codec no_buffer codec
                "demo" "a.txt" "b.txt" "cp" []) as (_ & _ & Hwrite).
  pose proof (copy_file_reads_then_writes "me" all_refused codec no_buffer codec
                "demo" "a.txt" "b.txt" "cp" []) as (_ & Hfail & _).
  split.
  - refine (Hwrite [("content", JStr "aGk="); ("sha", JStr "abc")] "aGk=" _ _).
    + eexists. repeat split.
    + reflexivity.
  - exact (Hfail (github_error (refusal 409 "conflict")) eq_refl).
Defined.

Lemma rename_file_deletes_only_after_create_witness :
  rename_file "me" all_refused codec no_buffer codec "demo" "a.txt" "b.txt" "mv" []
  = ([api_call (contents_url "me" "demo" "a.txt") no_options],
     inl (github_error (refusal 409 "conflict")))
  /\ exists content created,
       answers delete_refused [api_call (contents_url "me" "demo" "a.txt") no_options]
         (api_call (contents_url "me" "demo" "b.txt")
            (rename_create_options codec "mv" (codec content)))
         created.
Proof.
  pose proof (rename_file_deletes_only_after_create "me" all_refused codec no_buffer codec
                "demo" "a.txt" "b.txt" "mv" []) as (Hfail & _ & _).
  pose proof (rename_file_deletes_only_after_create "me" delete_refused codec no_buffer codec
                "demo" "a.txt" "b.txt" "mv" []) as (_ & _ & Hdelete).
  split.
  - exact (Hfail (github_error (refusal 409 "conflict")) eq_refl).
  - refine (Hdelete (api_call (contents_url "me" "demo" "a.txt")
                       (rename_delete_options "mv" (JStr "abc"))) _ _).
    + do 2 apply list_elem_of_further. apply list_elem_of_here.
    + reflexivity.
Defined.

Lemma delete_file_presents_the_sha_it_read_witness :
  fst (delete_file "me" delete_refused "demo" "a.txt" "rm" None [])
  = [api_call (contents_url "me" "demo" "a.txt") no_options;
     mkCall DELETE ("https://api.github.com" +:+ contents_url "me" "demo" "a.txt")
       (JObj [("message", JStr "rm"); ("sha", JStr "abc"); ("branch", JStr "main")])]
  /\ delete_file "me" all_refused "demo" "a.txt" "rm" None []
     = ([api_call (contents_url "me" "demo" "a.txt") no_options],
        inl (github_error (refusal 409 "conflict"))).
Proof.
  pose proof (delete_file_presents_the_sha_it_read "me" delete_refused
                "demo" "a.txt" "rm" None []) as (_ & Hdelete).
  pose proof (delete_file_presents_the_sha_it_read "me" all_refused
                "demo" "a.txt" "rm" None []) as (Hfail & _).
  split.
  - refine (Hdelete [("content", JStr "aGk="); ("sha", JStr "abc")] _).
    eexists. repeat split.
  - exact (Hfail (github_error (refusal 409 "conflict")) eq_refl).
Defined.

Lemma read_multiple_files_reads_each_path_witness :
  exists entries,
    read_multiple_files "me" one_file codec no_buffer "demo"
      ["b.txt"; "a.txt"; "__proto__"; "2"; "b.txt"] []
    = ([api_call (contents_url "me" "demo" "b.txt") no_options;
        api_call (contents_url "me" "demo" "a.txt") no_options;
        api_call (contents_url "me" "demo" "__proto__") no_options;
        api_call (contents_url "me" "demo" "2") no_options;
        api_call (contents_url "me" "demo" "b.txt") no_options],
       inr (Stringified (JObj entries)))
    /\ map fst entries = ["2"; "b.txt"; "a.txt"]
    /\ assoc "a.txt" entries = Some (JStr "aGk=")
    /\ assoc "b.txt" entries
       = Some (JStr "Error: GitHub API error: 404 - Not Found").
Proof.
  destruct (read_multiple_files_reads_each_path "me" one_file codec no_buffer "demo"
              ["b.txt"; "a.txt"; "__proto__"; "2"; "b.txt"] [])
    as (entries & Hrun & Hkeys & Hvalues).
  exists entries. split; [exact Hrun |]. split; [exact Hkeys |]. split.
  - refine (proj2 (Hvalues 1%nat "a.txt" eq_refl _ _)
              [("content", JStr "aGk="); ("sha", JStr "abc")] "aGk=" _ eq_refl).
    + discriminate.
    + intros Hin. repeat (apply elem_of_cons in Hin as [Hin | Hin]; [discriminate |]).
      by apply elem_of_nil in Hin.
    + eexists. repeat split.
  - refine (proj1 (Hvalues 4%nat "b.txt" eq_refl _ _) (refusal 404 "Not Found") _).
    + discriminate.
    + intros Hin. by apply elem_of_nil in Hin.
    + split; reflexivity.
Defined.

Lemma get_commits_abbreviates_sha_witness :
  exists rows,
    get_commits "me" commit_log "demo" None None []
    = ([api_call (get_commits_url "me" "demo" None None) no_options],
       inr (Stringified (JArr rows)))
    /\ length rows = 1%nat
    /\ Forall (fun row =>
                 exists short full,
                   field row "sha" = JStr short /\ field row "fullSha" = JStr full
                   /\ String.prefix short full = true
                   /\ String.length short = min 7 (String.length full))
         rows.
Proof.
  apply (get_commits_abbreviates_sha "me" commit_log "demo" None None [] [a_commit]).
  - eexists. repeat split.
  - reflexivity.
Defined.

Lemma create_tag_object_then_reference_witness :
  create_tag "me" git_objects "demo" "v1.0" "abc" None []
  = ([mkCall POST "https://api.github.com/repos/me/demo/git/tags"
        (JObj [("tag", JStr "v1.0"); ("message", JStr "v1.0");
               ("object", JStr "abc"); ("type", JStr "commit")]);
      mkCall POST "https://api.github.com/repos/me/demo/git/refs"
        (JObj [("ref", JStr "refs/tags/v1.0"); ("sha", JStr "t1")])],
     inr (Stringified (JObj [
       ("success", JBool true); ("tag", JStr "v1.0"); ("sha", JStr "t1")])))
  /\ create_tag "me" all_refused "demo" "v1.0" "abc" None []
     = ([mkCall POST "https://api.github.com/repos/me/demo/git/tags"
           (JObj [("tag", JStr "v1.0"); ("message", JStr "v1.0");
                  ("object", JStr "abc"); ("type", JStr "commit")])],
        inl (github_error (refusal 409 "conflict"))).
Proof.
  pose proof (create_tag_object_then_reference "me" git_objects "demo" "v1.0" "abc"
                None []) as (_ & Hmade).
  pose proof (create_tag_object_then_reference "me" all_refused "demo" "v1.0" "abc"
                None []) as (Hfail & _).
  split.
  - destruct (Hmade [("sha", JStr "t1"); ("object", JObj [("sha", JStr "abc")])])
      as (Hlog & _ & Hok).
    { eexists. repeat split. }
    apply injective_projections; [exact Hlog |].
    refine (Hok (JObj [("sha", JStr "t1"); ("object", JObj [("sha", JStr "abc")])]) _).
    eexists. repeat split.
  - exact (Hfail (github_error (refusal 409 "conflict")) eq_refl).
Defined.

Lemma create_branch_from_source_head_witness :
  fst (create_branch "me" git_objects "demo" "feature" None [])
  = [api_call "/repos/me/demo/git/ref/heads/main" no_options;
     mkCall POST "https://api.github.com/repos/me/demo/git/refs"
       (JObj [("ref", JStr "refs/heads/feature"); ("sha", JStr "abc")])]
  /\ create_branch "me" all_refused "demo" "feature" (Some "") []
     = ([api_call "/repos/me/demo/git/ref/heads/main" no_options],
        inl (github_error (refusal 409 "conflict")))
  /\ fst (create_branch "me" manifest_repo "demo" "feature" None [])
     = [api_call "/repos/me/demo/git/ref/heads/main" no_options].
Proof.
  pose proof (create_branch_from_source_head "me" git_objects "demo" "feature" None [])
    as (_ & _ & Hcreate).
  pose proof (create_branch_from_source_head "me" all_refused "demo" "feature"
                (Some "") []) as (Hfail & _ & _).
  pose proof (create_branch_from_source_head "me" manifest_repo "demo" "feature" None [])
    as (_ & Hnone & _).
  split; [| split].
  - refine (Hcreate [("sha", JStr "t1"); ("object", JObj [("sha", JStr "abc")])]
              [("sha", JStr "abc")] _ _).
    + eexists. repeat split.
    + reflexivity.
  - exact (Hfail (github_error (refusal 409 "conflict")) eq_refl).
  - refine (proj1 (Hnone [("content", JStr "e30="); ("sha", JStr "abc")] _ _)).
    + eexists. repeat split.
    + reflexivity.
Defined.

Lemma delete_branch_needs_a_json_body_witness :
  delete_branch "me" no_content "demo" "feature" []
  = ([mkCall DELETE "https://api.github.com/repos/me/demo/git/refs/heads/feature"
        JUndefined],
     inl (SyntaxError "Unexpected end of JSON input")).
Proof.
  exact (delete_branch_needs_a_json_body "me" no_content "demo" "feature" []
           (mkResponse 204 "" (inl (SyntaxError "Unexpected end of JSON input")))
           eq_refl eq_refl).
Defined.

Lemma update_issue_sends_truthy_fields_witness :
  exists data,
    fst (update_issue "me" all_refused "demo" (mkNumber "7" true)
           (Some "") None (Some "closed") (Some []) [])
    = [mkCall PATCH "https://api.github.com/repos/me/demo/issues/7" (JObj data)]
    /\ assoc "state" data = Some (JStr "closed")
    /\ assoc "labels" data = Some (JArr [])
    /\ "title" ∉ map fst data.
Proof.
  destruct (update_issue_sends_truthy_fields "me" all_refused "demo" (mkNumber "7" true)
              (Some "") None (Some "closed") (Some []) [])
    as (data & Hlog & Hnodup & Htitle & Hbody & Hstate & Hlabels & Hkeys).
  exists data. split; [exact Hlog |]. split; [| split].
  - apply Hstate. exists "closed". by repeat split.
  - apply Hlabels. by exists [].
  - intros Hin. apply list_elem_of_fmap in Hin as ([k v] & Hk & Hin). simpl in Hk. subst k.
    assert (exists w, assoc "title" data = Some w) as [w Hw].
    { clear -Hin. induction data as [| [k' v'] data IH]; [by apply elem_of_nil in Hin |].
      simpl. apply elem_of_cons in Hin as [[= <- <-] | Hin].
      - destruct (assoc "title" data); by eexists.
      - destruct (IH Hin) as [w ->]. by eexists. }
    apply Htitle in Hw as (t & [= <-] & Hne & _). by apply Hne.
Defined.

Lemma search_issues_encodes_its_qualifiers_witness :
  exists encoded,
    encodeURIComponent (utf16_of "login bug") = inr encoded
    /\ fst (search_issues "me" search_results "demo" (utf16_of "login bug")
              (Some TypePr) [])
       = [mkCall GET
            ("https://api.github.com/search/issues?q=" +:+ encoded
             +:+ "%2Brepo%3A" +:+ "me" +:+ "%2F" +:+ "demo" +:+ "%2Bis%3Apr")
            JUndefined].
Proof.
  exact (search_issues_encodes_its_qualifiers "me" search_results "demo"
           (utf16_of "login bug") (Some TypePr) [] eq_refl eq_refl eq_refl).
Defined.

Lemma search_issues_types_every_item_witness :
  exists rows,
    search_issues "me" search_results "demo" (utf16_of "login") (Some TypeIssue) []
    = ([api_call "/search/issues?q=login%2Brepo%3Ame%2Fdemo%2Bis%3Aissue" no_options],
       inr (Stringified (JArr rows)))
    /\ Forall2 (fun item row =>
                  field row "type"
                  = JStr (if truthy (field item "pull_request") then "pr" else "issue")
                  /\ field row "number" = field item "number")
         [an_issue; a_pull_request] rows.
Proof.
  apply (search_issues_types_every_item "me" search_results "demo" (utf16_of "login")
           (Some TypeIssue) [] "login%2Brepo%3Ame%2Fdemo%2Bis%3Aissue"
           [("total_count", JNum 2); ("items", JArr [an_issue; a_pull_request])]).
  - reflexivity.
  - eexists. repeat split.
  - reflexivity.
  - reflexivity.
Defined.

Lemma generate_build_url_uses_first_ten_images_witness :
  exists encodedPrompt encoded,
    encodeURIComponent (utf16_of "todo app") = inr encodedPrompt
    /\ Forall2 (fun img enc => encodeURIComponent img = inr enc)
         (replicate 10 (utf16_of "a.png")) encoded
    /\ generate_build_url (utf16_of "todo app")
         (Some (replicate 10 (utf16_of "a.png") ++ [[0xD83D]])) []
       = ([], inr (Stringified (JObj [
            ("url", JStr (build_prefix +:+ encodedPrompt
                          +:+ foldr (fun enc rest => "&images=" +:+ enc +:+ rest) ""
                                encoded));
            ("promptLength", JNum 8)]))).
Proof.
  apply (generate_build_url_uses_first_ten_images (utf16_of "todo app")
           (replicate 10 (utf16_of "a.png") ++ [[0xD83D]]) []).
  - reflexivity.
  - repeat constructor.
Defined.

Lemma generate_build_url_confines_the_prompt_witness :
  exists encoded,
    generate_build_url (utf16_of "a&b=c#d") None []
    = ([], inr (Stringified (JObj [
         ("url", JStr (build_prefix +:+ encoded)); ("promptLength", JNum 7)])))
    /\ Forall (fun ch => ch = "%"%char \/ unescaped (Z.of_N (Ascii.N_of_ascii ch)) = true)
         (String.list_ascii_of_string encoded)
    /\ (7 <= String.length encoded <= 63)%nat.
Proof.
  apply (generate_build_url_confines_the_prompt (utf16_of "a&b=c#d") []).
  - vm_compute. repeat (constructor; [split; [discriminate | reflexivity] |]).
    constructor.
  - reflexivity.
Defined.

Lemma list_hooks_leaves_x_of_tsx_witness :
  exists first second,
    list_hooks "me" hooks_listing "demo" []
    = ([api_call (contents_url "me" "demo" "src/hooks") no_options],
       inr (Stringified (JArr [first; second])))
    /\ field first "name" = JStr "use-toast"
    /\ field second "name" = JStr "use-mobilex".
Proof.
  destruct (list_hooks_leaves_x_of_tsx "me" hooks_listing "demo" []
              [entry "file" "use-toast.ts"; entry "file" "use-mobile.tsx"])
    as (rows & Hrun & Hrows).
  - eexists. repeat split.
  - reflexivity.
  - apply Forall2_cons_inv_l in Hrows as (first & rows' & [_ Hfirst] & Hrows & ->).
    apply Forall2_cons_inv_l in Hrows as (second & rows'' & [_ Hsecond] & Hrows & ->).
    apply Forall2_nil_inv_l in Hrows as ->.
    exists first, second. split; [exact Hrun |]. split.
    + exact (proj1 (Hfirst "use-toast" eq_refl) eq_refl).
    + exact (proj2 (Hsecond "use-mobile" eq_refl) eq_refl).
Defined.

Lemma list_types_keeps_d_of_declarations_witness :
  exists first second,
    list_types "me" types_listing "demo" []
    = ([api_call (contents_url "me" "demo" "src/types") no_options],
       inr (Stringified (JArr [first; second])))
    /\ field first "name" = JStr "index"
    /\ field second "name" = JStr "global.d".
Proof.
  destruct (list_types_keeps_d_of_declarations "me" types_listing "demo" []
              [entry "file" "index.ts"; entry "file" "global.d.ts"])
    as (rows & Hrun & Hrows).
  - eexists. repeat split.
  - reflexivity.
  - apply Forall2_cons_inv_l in Hrows as (first & rows' & [_ Hfirst] & Hrows & ->).
    apply Forall2_cons_inv_l in Hrows as (second & rows'' & [_ Hsecond] & Hrows & ->).
    apply Forall2_nil_inv_l in Hrows as ->.
    exists first, second. split; [exact Hrun |]. split.
    + exact (proj1 (Hfirst "index" eq_refl) eq_refl).
    + exact (proj2 (Hsecond "global" eq_refl) eq_refl).
Defined.

Lemma list_utils_prefers_utils_witness :
  fst (list_utils "me" empty_repo "demo" [])
  = [api_call (contents_url "me" "demo" "src/utils") no_options;
     api_call (contents_url "me" "demo" "src/lib") no_options]
  /\ list_utils "me" hooks_listing "demo" []
     = ([api_call (contents_url "me" "demo" "src/utils") no_options],
        inr (Stringified (JArr [
          JObj [("name", JStr "use-toast"); ("path", JStr "src/use-toast.ts")];
          JObj [("name", JStr "use-mobilex"); ("path", JStr "src/use-mobile.tsx")]]))).
Proof.
  pose proof (list_utils_prefers_utils "me" empty_repo "demo" []) as (_ & _ & _ & Hlib).
  pose proof (list_utils_prefers_utils "me" hooks_listing "demo" [])
    as (_ & _ & Hutils & _).
  split.
  - refine (Hlib (refusal 404 "Not Found") _). split; reflexivity.
  - refine (Hutils [entry "file" "use-toast.ts"; entry "file" "use-mobile.tsx"] _ _ _).
    + eexists. repeat split.
    + reflexivity.
Defined.

Lemma list_custom_components_keeps_tsx_files_witness :
  exists row,
    list_custom_components "me" components_listing "demo" []
    = ([api_call (contents_url "me" "demo" "src/components") no_options],
       inr (Stringified (JArr [row])))
    /\ field row "name" = JStr "Header"
    /\ field row "path" = JStr "src/Header.tsx".
Proof.
  destruct (list_custom_components_keeps_tsx_files "me" components_listing "demo" []
              [entry "file" "Header.tsx"; entry "dir" "ui"; entry "file" "README.md"])
    as (rows & Hrun & Hrows).
  - eexists. repeat split.
  - reflexivity.
  - apply Forall2_cons_inv_l in Hrows as (row & rows' & [Hpath Hname] & Hrows & ->).
    apply Forall2_nil_inv_l in Hrows as ->.
    exists row. split; [exact Hrun |]. split.
    + exact (Hname "Header" eq_refl eq_refl).
    + exact Hpath.
Defined.

Lemma analyze_dependencies_never_reports_routing_witness :
  exists report,
    snd (analyze_dependencies "me" manifest_repo codec no_buffer parse_manifest "demo" [])
    = inr (Stringified report)
    /\ field (field report "categories") "UI Framework"
       = JArr [JStr "react"; JStr "react-router-dom"]
    /\ field (field report "categories") "Routing" = JUndefined
    /\ field (field report "categories") "State Management" = JUndefined.
Proof.
  destruct (analyze_dependencies_never_reports_routing "me" manifest_repo codec no_buffer
              parse_manifest "demo" [] _ eq_refl)
    as (report & Hreport & Hrouting & Hstate & _).
  exists report. split; [by rewrite <- Hreport |]. split; [| by split].
  injection Hreport as <-. reflexivity.
Defined.

Lemma analyze_dependencies_files_each_key_once_witness :
  exists categories,
    analyze_dependencies "me" manifest_repo codec no_buffer parse_manifest "demo" []
    = ([api_call (contents_url "me" "demo" "package.json") no_options],
       inr (Stringified (JObj [
         ("total", JNum 5); ("production", JNum 3); ("development", JNum 2);
         ("categories", categories_value categories)])))
    /\ concat (map snd categories) ≡ₚ ["react"; "react-router-dom"; "zod"; "vite"]
    /\ Forall (fun entry =>
                 snd entry <> []
                 /\ Forall (fun dep =>
                              default "Other" (first_match dep categoryMap) = fst entry)
                      (snd entry)) categories.
Proof.
  apply (analyze_dependencies_files_each_key_once "me" manifest_repo codec no_buffer parse_manifest
           "demo" [] [("content", JStr "e30="); ("sha", JStr "abc")] "e30=" a_manifest).
  - eexists. repeat split.
  - reflexivity.
  - reflexivity.
  - reflexivity.
Defined.

Lemma get_supabase_config_tolerates_missing_types_witness :
  get_supabase_config "me" supabase_without_types codec no_buffer "demo" []
  = ([api_call (contents_url "me" "demo" "src/integrations/supabase/client.ts") no_options;
      api_call (contents_url "me" "demo" "src/integrations/supabase/types.ts") no_options],
     inr (Stringified (JObj [
       ("hasSupabase", JBool true); ("client", JStr "Y2xpZW50");
       ("types", JStr "Not found")])))
  /\ get_supabase_config "me" empty_repo codec no_buffer "demo" []
     = ([api_call (contents_url "me" "demo" "src/integrations/supabase/client.ts")
           no_options],
        inr (Stringified (JObj [("hasSupabase", JBool false)]))).
Proof.
  pose proof (get_supabase_config_tolerates_missing_types "me" supabase_without_types
                codec no_buffer "demo" []) as (_ & _ & Hclient).
  pose proof (get_supabase_config_tolerates_missing_types "me" empty_repo codec no_buffer
                "demo" []) as (_ & Habsent & _).
  split.
  - destruct (Hclient [("content", JStr "Y2xpZW50")] "Y2xpZW50") as (Hlog & Hrefused & _).
    { eexists. repeat split. }
    { reflexivity. }
    apply injective_projections; [exact Hlog |].
    refine (Hrefused (refusal 404 "Not Found") _). split; reflexivity.
  - refine (Habsent (refusal 404 "Not Found") _). split; reflexivity.
Defined.

Lemma configuration_getters_on_refusal_witness :
  snd (get_tailwind_config "me" empty_repo codec no_buffer "demo" [])
  = inr (Raw "No tailwind.config.ts found")
  /\ snd (get_readme "me" empty_repo codec no_buffer "demo" []) = inr (Raw "No README found")
  /\ snd (get_package_json "me" empty_repo codec no_buffer "demo" [])
     = inl (github_error (refusal 404 "Not Found")).
Proof.
  pose proof (configuration_getters_on_refusal "me" empty_repo codec no_buffer "demo" [])
    as (Hgetters & _ & Hpackage).
  apply Forall_cons in Hgetters as [(_ & _ & Htailwind) Hgetters].
  apply Forall_cons in Hgetters as [_ Hgetters].
  apply Forall_cons in Hgetters as [_ Hgetters].
  apply Forall_cons in Hgetters as [(_ & _ & Hreadme) _].
  split; [| split].
  - refine (Htailwind (refusal 404 "Not Found") _). split; reflexivity.
  - refine (Hreadme (refusal 404 "Not Found") _). split; reflexivity.
  - refine (Hpackage (refusal 404 "Not Found") _). split; reflexivity.
Defined.
